(** * The swallowing-study analysis core of [src/src/App.tsx]

    A shallow embedding of the numeric pipeline of the front end:
    [savitzkyGolayFilter], [extractCycleParameters], [detectSwallowingCycles]
    and [processAdvancedData] (with its local [calculateGroupZScore]).

    JavaScript numbers are kept behind the interface [JSNumber], so that every
    structural property is proved once, for any arithmetic.  Two instances are
    given: IEEE binary64 ([float], the arithmetic the program runs on, used to
    evaluate the functions on concrete recordings) and the real numbers (the
    exact arithmetic in which the algebraic property of the grouped
    standardization is stated).

    Frame numbers and array indices are integer-valued JavaScript numbers and
    are modelled in [Z].  [console.log] calls have no effect on the results
    and are left out. *)

From Stdlib Require Import Floats.PrimFloat.
From Stdlib Require Import ZArith List Bool Lia Reals Lra Permutation.
Import ListNotations.
Open Scope Z_scope.

Set Implicit Arguments.

(* Decimal literals such as [0.2] denote their nearest binary64 value. *)
Set Warnings "-inexact-float".

(** ** JavaScript numbers *)

Declare Scope js_scope.
Delimit Scope js_scope with js.

Class JSNumber (num : Type) : Type := {
  ofZ : Z -> num;              (* an integer-valued number *)
  nan : num;                   (* ToNumber(undefined) *)
  nopp : num -> num;           (* unary minus *)
  nadd : num -> num -> num;
  nsub : num -> num -> num;
  nmul : num -> num -> num;
  ndiv : num -> num -> num;
  nabs : num -> num;           (* Math.abs *)
  nsqrt : num -> num;          (* Math.sqrt *)
  nltb : num -> num -> bool;   (* a < b *)
  nleb : num -> num -> bool;   (* a <= b *)
  neqb : num -> num -> bool    (* a === b, both numbers *)
}.

Notation "- x" := (nopp x) : js_scope.
Infix "+" := nadd : js_scope.
Infix "-" := nsub : js_scope.
Infix "*" := nmul : js_scope.
Infix "/" := ndiv : js_scope.
Notation "a <? b" := (nltb a b) : js_scope.
Notation "a >? b" := (nltb b a) : js_scope.
Notation "a <=? b" := (nleb a b) : js_scope.
Notation "a >=? b" := (nleb b a) : js_scope.

(** Binary64: integers are built from exact doublings, so [ofZ] is exact
    below 2^53. *)
Fixpoint float_of_pos (p : positive) : float :=
  match p with
  | xH => 1%float
  | xO q => PrimFloat.mul 2%float (float_of_pos q)
  | xI q => PrimFloat.add (PrimFloat.mul 2%float (float_of_pos q)) 1%float
  end.

Definition float_of_Z (z : Z) : float :=
  match z with
  | Z0 => 0%float
  | Zpos p => float_of_pos p
  | Zneg p => PrimFloat.opp (float_of_pos p)
  end.

#[export] Instance float_JSNumber : JSNumber float := {
  ofZ := float_of_Z;
  nan := PrimFloat.nan;
  nopp := PrimFloat.opp;
  nadd := PrimFloat.add;
  nsub := PrimFloat.sub;
  nmul := PrimFloat.mul;
  ndiv := PrimFloat.div;
  nabs := PrimFloat.abs;
  nsqrt := PrimFloat.sqrt;
  nltb := PrimFloat.ltb;
  nleb := PrimFloat.leb;
  neqb := PrimFloat.eqb
}.

(** Exact arithmetic.  The reals have no NaN and their division is total:
    [nan] is a placeholder, and [x / 0] is not what JavaScript computes.  The
    real instance is therefore only used in statements whose hypotheses
    keep every index that is read in range and every divisor that is read
    different from 0. *)
Definition Rltb (a b : R) : bool := if Rlt_dec a b then true else false.
Definition Rleb (a b : R) : bool := if Rle_dec a b then true else false.
Definition Reqb (a b : R) : bool := if Req_dec_T a b then true else false.

#[export] Instance R_JSNumber : JSNumber R := {
  ofZ := IZR;
  nan := 0%R;
  nopp := Ropp;
  nadd := Rplus;
  nsub := Rminus;
  nmul := Rmult;
  ndiv := Rdiv;
  nabs := Rabs;
  nsqrt := sqrt;
  nltb := Rltb;
  nleb := Rleb;
  neqb := Reqb
}.

(** ** Arrays and loops *)

Definition len {A : Type} (l : list A) : Z := Z.of_nat (length l).

(** [for (i = lo; i < hi; i++)] *)
Definition range (lo hi : Z) : list Z :=
  map (fun k => lo + Z.of_nat k) (seq 0 (Z.to_nat (hi - lo))).

(** [for (i = from; i >= to; i--)] *)
Definition countDown (from to : Z) : list Z := rev (range to (from + 1)).

(** [Array.prototype.slice(s, e)], negative arguments counting from the end. *)
Definition slice {A : Type} (l : list A) (s e : Z) : list A :=
  let k := if s <? 0 then Z.max (len l + s) 0 else Z.min s (len l) in
  let f := if e <? 0 then Z.max (len l + e) 0 else Z.min e (len l) in
  firstn (Z.to_nat (f - k)) (skipn (Z.to_nat k) l).

(** [Array.prototype.findIndex], [None] for -1. *)
Fixpoint findIndex {A : Type} (p : A -> bool) (l : list A) : option Z :=
  match l with
  | [] => None
  | x :: r => if p x then Some 0
              else match findIndex p r with
                   | Some i => Some (i + 1)
                   | None => None
                   end
  end.

Definition atIndex {A : Type} (l : list A) (i : Z) : option A :=
  if i <? 0 then None else nth_error l (Z.to_nat i).

Section Pipeline.

Context {num : Type} `{JSNumber num}.

(** [Math.exp] is supplied by the runtime; every result below holds for any
    implementation of it. *)
Variable Math_exp : num -> num.

Local Open Scope js_scope.

(** The decimal literal [m]e-[e], e.g. [dec 15 3] for [0.015]. *)
Definition dec (m : Z) (e : nat) : num := ofZ m / ofZ (10 ^ Z.of_nat e).

Definition isNaN (x : num) : bool := negb (neqb x x).

(** A [number | null] used as an operand: [null] converts to [+0]. *)
Definition ToNumber (v : option num) : num :=
  match v with Some x => x | None => ofZ 0 end.

(** [l[i]] read as an operand, on an array of numbers and on an array of
    [number | null]; an index out of range reads [undefined], that is NaN. *)
Definition numAt (l : list num) (i : Z) : num :=
  match atIndex l i with Some x => x | None => nan end.

Definition valAt (l : list (option num)) (i : Z) : num :=
  match atIndex l i with Some v => ToNumber v | None => nan end.

(** [l.filter(val => val !== null)] *)
Definition filterNotNull (l : list (option num)) : list num :=
  flat_map (fun v => match v with Some x => [x] | None => [] end) l.

Definition isNotNull (v : option num) : bool :=
  match v with Some _ => true | None => false end.

(** Truthiness of a [number | null]: [null], [0] and NaN are falsy. *)
Definition truthy (v : option num) : bool :=
  match v with
  | Some x => negb (neqb x (ofZ 0)) && negb (isNaN x)
  | None => false
  end.

(** [Math.max(...l)] and [Math.min(...l)]: NaN as soon as one argument is,
    [+0] above [-0] (told apart by their inverses), [-Infinity] and
    [+Infinity] for no argument. *)
Definition maxOf (a b : num) : num :=
  if isNaN a || isNaN b then nan
  else if a <? b then b
  else if neqb a b && (ofZ 1 / a <? ofZ 1 / b) then b
  else a.

Definition minOf (a b : num) : num :=
  if isNaN a || isNaN b then nan
  else if b <? a then b
  else if neqb a b && (ofZ 1 / b <? ofZ 1 / a) then b
  else a.

Definition Math_max (l : list num) : num :=
  match l with
  | [] => ofZ (-1) / ofZ 0
  | x :: r => fold_left maxOf r x
  end.

Definition Math_min (l : list num) : num :=
  match l with
  | [] => ofZ 1 / ofZ 0
  | x :: r => fold_left minOf r x
  end.

(** [Math.floor x] for [0 <= x <= bound]: the largest integer not above [x]. *)
Fixpoint floorUpTo (bound : nat) (x : num) : Z :=
  match bound with
  | O => 0
  | S b => if ofZ (Z.of_nat bound) <=? x then Z.of_nat bound
           else floorUpTo b x
  end.

(** [[...l].sort((a, b) => a - b)]: the stable ascending sort.  The
    engine's sort is stable, so on a series without NaN, where the
    comparator is consistent, it returns this list; with a NaN sample the
    comparator is inconsistent and the order the engine returns is not
    specified: the definition stands for the sort on NaN-free series
    only. *)
Fixpoint insertSorted (x : num) (l : list num) : list num :=
  match l with
  | [] => [x]
  | y :: r => if x - y <? ofZ 0 then x :: y :: r else y :: insertSorted x r
  end.

Definition sortAscending (l : list num) : list num :=
  fold_left (fun acc x => insertSorted x acc) l [].

(** A loop that keeps the best value seen and its index, and may [break]
    after looking at an index:
    [for (i of idxs) { if (better(a[i], best)) best = a[i], i; if (stop(i)) break; }] *)
Fixpoint scanExtremum (better : num -> num -> bool) (value : Z -> num)
    (stop : Z -> bool) (idxs : list Z) (best : num * Z) : num * Z :=
  match idxs with
  | [] => best
  | i :: rest =>
      let best' := if better (value i) (fst best) then (value i, i) else best in
      if stop i then best' else scanExtremum better value stop rest best'
  end.

(** First differences [a[i] - a[i-1]], i = 1 .. length-1. *)
Definition differences (a : list num) : list num :=
  map (fun i => numAt a i - numAt a (i - 1)) (range 1 (len a)).

(** ** savitzkyGolayFilter (App.tsx 14-38) *)

Definition smoothAt (data : list (option num)) (halfWindow i : Z) : num :=
  let sums :=
    fold_left
      (fun (acc : num * num) j =>
         let idx := (i + j)%Z in
         if (0 <=? idx)%Z && (idx <? len data)%Z then
           let weight :=
             Math_exp (- ofZ (j * j) / ofZ (2 * halfWindow * halfWindow)) in
           (fst acc + valAt data idx * weight, snd acc + weight)
         else acc)
      (range (- halfWindow) (halfWindow + 1)) (ofZ 0, ofZ 0) in
  fst sums / snd sums.

Definition savitzkyGolayFilter (data : list (option num)) (windowSize : Z)
    : list (option num) :=
  if (len data <? windowSize)%Z then data
  else
    let halfWindow := (windowSize / 2)%Z in
    map (fun i => Some (smoothAt data halfWindow i)) (range 0 (len data)).

(** ** Processed rows

    One object per frame, as [processAdvancedData] builds them; its
    properties [smoothed_<p>], [normalized_<p>] and [zscore_<p>] are read and
    written by name ([row[paramName]]), so a row maps each parameter name to
    a [number | null].  [extractCycleParameters] also reads [cycleNumber],
    [startFrame] and [endFrame] off the rows; a row that lacks a property
    reads [undefined], here [None]. *)

Inductive Param : Type :=
| Pbolus_pharynx_overlap
| Pbolus_vestibule_overlap
| Ppharynx
| Pvestibule
| Pbolus
| Phyoid_c4_distance
| Pues_length.

Definition Param_eqb (p q : Param) : bool :=
  match p, q with
  | Pbolus_pharynx_overlap, Pbolus_pharynx_overlap
  | Pbolus_vestibule_overlap, Pbolus_vestibule_overlap
  | Ppharynx, Ppharynx
  | Pvestibule, Pvestibule
  | Pbolus, Pbolus
  | Phyoid_c4_distance, Phyoid_c4_distance
  | Pues_length, Pues_length => true
  | _, _ => false
  end.

Record Row : Type := {
  frame : Z;
  smoothed : Param -> option num;
  normalized : Param -> option num;
  zscore : Param -> option num;
  row_cycleNumber : option Z;
  row_startFrame : option Z;
  row_endFrame : option Z
}.

Definition normalized_bolus_vestibule_overlap (row : Row) : option num :=
  normalized row Pbolus_vestibule_overlap.
Definition normalized_vestibule (row : Row) : option num :=
  normalized row Pvestibule.
Definition zscore_pharynx (row : Row) : option num := zscore row Ppharynx.
Definition zscore_vestibule (row : Row) : option num := zscore row Pvestibule.
Definition zscore_hyoid_c4_distance (row : Row) : option num :=
  zscore row Phyoid_c4_distance.
Definition zscore_ues_length (row : Row) : option num :=
  zscore row Pues_length.
Definition zscore_bolus_pharynx_overlap (row : Row) : option num :=
  zscore row Pbolus_pharynx_overlap.

(** ** extractCycleParameters (App.tsx 41-671) *)

Record OverlapDetail : Type := {
  od_frame : Z;
  normalizedOverlap : num;
  normalizedVestibule : num;
  adjustedOverlap : num;
  adjustedVestibule : num;
  ratio : num
}.

Record ClinicalParameters : Type := {
  PCR : num;
  PCR_p95 : num;
  PCR_p5 : num;
  PCR_adjusted_p95 : num;
  PCR_adjusted_p5 : num;
  PCR_frames : Z;
  PCR_hasNegativeValues : bool;
  aspirationRisk : option bool;
  maxOverlapRatio : option num;
  aspirationThreshold : num;
  overlapRatioDetails : option (list OverlapDetail);
  HYB : option Z;
  HYB_peakFrame : option Z;
  HYB_valleyFrame : option Z;
  HYB_peakValue : option num;
  HYB_valleyValue : option num;
  UESO : option Z;
  UESC : option Z;
  UES_peakFrame : option Z;
  UES_peakValue : option num;
  UES_beforeValleyFrame : option Z;
  UES_afterValleyFrame : option Z;
  UES_beforeValleyValue : option num;
  UES_afterValleyValue : option num;
  LVC : option Z;
  LVCoff : option Z;
  LVC_peakFrame : option Z;
  LVC_peakValue : option num;
  LVC_valley1Frame : option Z;
  LVC_valley2Frame : option Z;
  LVC_valley1Value : option num;
  LVC_valley2Value : option num
}.

(** What the function returns: the object [{ PCR: null }] of the early
    return (every other property [undefined]), or the full object. *)
Inductive CycleParameters : Type :=
| PCRNullOnly
| Parameters (p : ClinicalParameters).

(** *** Parameter 1: PCR (lines 45-84) *)

Definition p95Index (sortedPharynx : list num) : Z :=
  floorUpTo (length sortedPharynx) (ofZ (len sortedPharynx) * dec 95 2).

Definition p5Index (sortedPharynx : list num) : Z :=
  floorUpTo (length sortedPharynx) (ofZ (len sortedPharynx) * dec 5 2).

(** Lines 61-78: [(adjustedP95, adjustedP5)]. *)
Definition adjustPercentiles (p95Value p5Value : num) (pharynxZScore : list num)
    : num * num :=
  if (p95Value <? ofZ 0) && (p5Value <? ofZ 0) then
    (nabs p95Value, nabs p5Value)
  else if (p95Value <? ofZ 0) || (p5Value <? ofZ 0) then
    let minValue := Math_min pharynxZScore in
    let offset := nabs minValue + dec 1 1 in
    (p95Value + offset, p5Value + offset)
  else (p95Value, p5Value).

(** *** Parameter 2: aspiration risk (lines 86-147) *)

(** Lines 107-117: [(adjustedOverlap, adjustedVestibule)]. *)
Definition adjustOverlapOperands (overlap vestibuleArea : num) : num * num :=
  if nabs vestibuleArea <? dec 1 2 then (overlap, dec 1 2)
  else if nabs overlap <? dec 1 2 then (dec 1 2, vestibuleArea)
  else (overlap, vestibuleArea).

Definition overlapDetailAt (startFrame : Z) (i : Z) (row : Row)
    : list OverlapDetail :=
  match normalized_bolus_vestibule_overlap row, normalized_vestibule row with
  | Some overlap, Some vestibuleArea =>
      let adjusted := adjustOverlapOperands overlap vestibuleArea in
      [ {| od_frame := (startFrame + i)%Z;
           normalizedOverlap := overlap;
           normalizedVestibule := vestibuleArea;
           adjustedOverlap := fst adjusted;
           adjustedVestibule := snd adjusted;
           ratio := fst adjusted / snd adjusted |} ]
  | _, _ => []
  end.

Definition overlapDetailsOf (startFrame : Z) (cycleData : list Row)
    : list OverlapDetail :=
  flat_map (fun ir => overlapDetailAt startFrame (fst ir) (snd ir))
           (combine (range 0 (len cycleData)) cycleData).

Definition aspirationThresholdValue : num := dec 2 1.

(** [(aspirationRisk, maxOverlapRatio, overlapRatioDetails)] *)
Definition aspirationBlock (startFrame : Z) (cycleData : list Row)
    : option bool * option num * option (list OverlapDetail) :=
  let bolusVestibuleOverlap :=
    filterNotNull (map normalized_bolus_vestibule_overlap cycleData) in
  let vestibule := filterNotNull (map normalized_vestibule cycleData) in
  if (0 <? len bolusVestibuleOverlap)%Z && (0 <? len vestibule)%Z then
    let overlapDetails := overlapDetailsOf startFrame cycleData in
    let overlapRatios := map ratio overlapDetails in
    if (0 <? len overlapRatios)%Z then
      let maxOverlapRatio := Math_max overlapRatios in
      (Some (maxOverlapRatio >=? aspirationThresholdValue),
       Some maxOverlapRatio, Some overlapDetails)
    else (None, None, None)
  else (None, None, None).

(** *** The widened search range (lines 194-212, 303-330, 438-463)

    The three landmark blocks repeat the same lines; [defaultEnd] is the
    block's initial [searchEndFrame].  The result is
    [(searchStartFrame, searchEndFrame)]. *)

Definition isCycleRow (row : Row) : bool :=
  match row_cycleNumber row with Some _ => true | None => false end.

Definition hasCycleNumber (cycleNumber : Z) (row : Row) : bool :=
  match row_cycleNumber row with
  | Some c => (c =? cycleNumber)%Z
  | None => false
  end.

Definition widenedSearch (processedData : list Row)
    (cycleNumber startFrame defaultEnd : Z) : Z * Z :=
  let allCycles := filter isCycleRow processedData in
  match findIndex (hasCycleNumber cycleNumber) allCycles with
  | None => (startFrame, defaultEnd)
  | Some cycleIndex =>
      let searchStartFrame :=
        if (0 <? cycleIndex)%Z then
          match atIndex allCycles (cycleIndex - 1) with
          | Some prevCycle =>
              match row_endFrame prevCycle with
              | Some e => Z.max 0 e
              | None => startFrame
              end
          | None => startFrame
          end
        else startFrame in
      let searchEndFrame :=
        if (cycleIndex <? len allCycles - 1)%Z then
          match atIndex allCycles (cycleIndex + 1) with
          | Some nextCycle =>
              match row_startFrame nextCycle with
              | Some s => s
              | None => defaultEnd
              end
          | None => defaultEnd
          end
        else defaultEnd in
      (searchStartFrame, searchEndFrame)
  end.

(** [maxValue, maxIndex]: the first largest element. *)
Definition argMax (a : list num) : num * Z :=
  scanExtremum (fun x best => x >? best) (numAt a) (fun _ => false)
               (range 1 (len a)) (numAt a 0, 0%Z).

(** *** Parameter 3: HYB (lines 149-277) *)

Record HybResult : Type := {
  hyb_peakFrame : Z;
  hyb_peakValue : num;
  hyb_valleyFrame : Z;
  hyb_valleyValue : num
}.

(** Lines 233-243 (and 344-355): the slope turns from falling to rising. *)
Definition slopeValley (diffData : list num) (i : Z) : bool :=
  (0 <? i)%Z && (i - 1 <? len diffData)%Z &&
  (numAt diffData (i - 1) <? ofZ 0) && (numAt diffData i >? ofZ 0).

(** Lines 216-264 (and 334-374): the valley before the peak. *)
Definition valleyBefore (a diffData : list num) (maxValue : num)
    (maxIndex searchStartInCycle : Z) : num * Z :=
  let backward := countDown (maxIndex - 1) searchStartInCycle in
  match find (slopeValley diffData) backward with
  | Some i => (numAt a i, i)
  | None =>
      scanExtremum (fun x best => x <? best) (numAt a)
        (fun i => (0 <? i)%Z && (numAt a i - numAt a (i - 1) >? dec 5 2))
        backward (maxValue, maxIndex)
  end.

Definition hybBlock (startFrame : Z) (cycleData processedData : list Row)
    (cycleNumber : Z) : option HybResult :=
  let hyoidC4Distance :=
    filterNotNull (map zscore_hyoid_c4_distance cycleData) in
  if (0 <? len hyoidC4Distance)%Z then
    let peak := argMax hyoidC4Distance in
    let searchStartFrame :=
      fst (widenedSearch processedData cycleNumber startFrame startFrame) in
    let diffData := differences hyoidC4Distance in
    let searchStartInCycle := Z.max 0 (searchStartFrame - startFrame) in
    let valley :=
      valleyBefore hyoidC4Distance diffData (fst peak) (snd peak)
                   searchStartInCycle in
    Some {| hyb_peakFrame := (startFrame + snd peak)%Z;
            hyb_peakValue := fst peak;
            hyb_valleyFrame := (startFrame + snd valley)%Z;
            hyb_valleyValue := fst valley |}
  else None.

(** *** UESO and UESC (lines 279-432) *)

Record UesResult : Type := {
  ues_peakFrame : Z;
  ues_peakValue : num;
  ues_beforeValleyFrame : Z;
  ues_beforeValleyValue : num;
  ues_afterValleyFrame : Z;
  ues_afterValleyValue : num
}.

(** Lines 389-420: the valley after the peak. *)
Definition valleyAfter (a diffData : list num) (maxValue : num)
    (maxIndex searchEndInCycle : Z) : num * Z :=
  let forward := range (maxIndex + 1) (searchEndInCycle + 1) in
  match find (fun i => (i <? len diffData)%Z &&
                       (numAt diffData (i - 1) >? ofZ 0) &&
                       (numAt diffData i <? ofZ 0)) forward with
  | Some i => (numAt a i, i)
  | None =>
      scanExtremum (fun x best => x <? best) (numAt a)
        (fun i => (i <? len a - 1)%Z &&
                  (numAt a (i + 1) - numAt a i >? dec 5 2))
        forward (maxValue, maxIndex)
  end.

Definition uesBlock (startFrame : Z) (cycleData processedData : list Row)
    (cycleNumber : Z) : option UesResult :=
  let uesLength := filterNotNull (map zscore_ues_length cycleData) in
  if (0 <? len uesLength)%Z then
    let peak := argMax uesLength in
    let diffData := differences uesLength in
    let search :=
      widenedSearch processedData cycleNumber startFrame
                    (startFrame + len uesLength - 1) in
    let searchStartInCycle := Z.max 0 (fst search - startFrame) in
    let before :=
      valleyBefore uesLength diffData (fst peak) (snd peak)
                   searchStartInCycle in
    let searchEndInCycle :=
      Z.min (len uesLength - 1) (snd search - startFrame) in
    let after :=
      valleyAfter uesLength diffData (fst peak) (snd peak) searchEndInCycle in
    Some {| ues_peakFrame := (startFrame + snd peak)%Z;
            ues_peakValue := fst peak;
            ues_beforeValleyFrame := (startFrame + snd before)%Z;
            ues_beforeValleyValue := fst before;
            ues_afterValleyFrame := (startFrame + snd after)%Z;
            ues_afterValleyValue := fst after |}
  else None.

(** *** LVC and LVCoff (lines 434-631) *)

Record LvcResult : Type := {
  lvc_valley1Frame : Z;
  lvc_valley1Value : num;
  lvc_peakFrame : Z;
  lvc_peakValue : num;
  lvc_valley2Frame : Z;
  lvc_valley2Value : num
}.

(** Lines 504-555: the peak before valley 1. *)
Definition lvcPeak (a diffData secondDiffData : list num) (valley1Value : num)
    (valley1Index searchStartInCycle : Z) : num * Z :=
  let backward := countDown (valley1Index - 1) searchStartInCycle in
  match find (fun i => (1 <? i)%Z && (i - 2 <? len secondDiffData)%Z &&
                       (numAt secondDiffData (i - 2) >? dec 1 1) &&
                       (numAt secondDiffData (i - 1) <? - dec 1 1))
             backward with
  | Some i => (numAt a i, i)
  | None =>
      match find (fun i => (0 <? i)%Z && (i - 1 <? len diffData)%Z &&
                           (numAt diffData (i - 1) >? dec 15 2) &&
                           (numAt diffData i <? - dec 15 2))
                 backward with
      | Some i => (numAt a i, i)
      | None =>
          scanExtremum (fun x best => x >? best) (numAt a)
            (fun i => (0 <? i)%Z &&
                      (numAt a (i + 1) - numAt a i <? - dec 15 2))
            backward (valley1Value, valley1Index)
      end
  end.

(** Lines 561-618: valley 2, after valley 1. *)
Definition lvcValley2 (a diffData secondDiffData : list num)
    (valley1Value : num) (valley1Index searchEndInCycle : Z) : num * Z :=
  let forward := range (valley1Index + 1) (searchEndInCycle + 1) in
  match find (fun i => (1 <? i)%Z && (i - 2 <? len secondDiffData)%Z &&
                       (numAt secondDiffData (i - 2) <? - dec 1 1) &&
                       (numAt secondDiffData (i - 1) >? dec 1 1))
             forward with
  | Some i => (numAt a i, i)
  | None =>
      match find (fun i => (0 <? i)%Z && (i - 1 <? len diffData)%Z &&
                           (numAt diffData (i - 1) <? - dec 15 2) &&
                           (numAt diffData i >? dec 15 2))
                 forward with
      | Some i => (numAt a i, i)
      | None =>
          scanExtremum (fun x best => x <? best) (numAt a)
            (fun i => (i <? len a - 1)%Z &&
                      (numAt a (i + 1) - numAt a i >? dec 15 2))
            forward (valley1Value, valley1Index)
      end
  end.

(** [vestibule] is the normalized vestibule series of the aspiration block:
    line 443 takes the default search end from its length. *)
Definition lvcBlock (startFrame : Z) (cycleData processedData : list Row)
    (cycleNumber : Z) (vestibule : list num) : option LvcResult :=
  let vestibuleData := filterNotNull (map zscore_vestibule cycleData) in
  if (0 <? len vestibuleData)%Z then
    let search :=
      widenedSearch processedData cycleNumber startFrame
                    (startFrame + len vestibule - 1) in
    let diffData := differences vestibuleData in
    let searchStartInCycle := Z.max 0 (fst search - startFrame) in
    let searchEndInCycle :=
      Z.min (len vestibuleData - 1) (snd search - startFrame) in
    let valley1 :=
      scanExtremum (fun x best => x <? best) (numAt vestibuleData)
        (fun _ => false) (range searchStartInCycle (searchEndInCycle + 1))
        (numAt vestibuleData 0, 0%Z) in
    let secondDiffData := differences diffData in
    let peak :=
      lvcPeak vestibuleData diffData secondDiffData (fst valley1)
              (snd valley1) searchStartInCycle in
    let valley2 :=
      lvcValley2 vestibuleData diffData secondDiffData (fst valley1)
                 (snd valley1) searchEndInCycle in
    Some {| lvc_valley1Frame := (startFrame + snd valley1)%Z;
            lvc_valley1Value := fst valley1;
            lvc_peakFrame := (startFrame + snd peak)%Z;
            lvc_peakValue := fst peak;
            lvc_valley2Frame := (startFrame + snd valley2)%Z;
            lvc_valley2Value := fst valley2 |}
  else None.

(** *** The whole function *)

Definition extractCycleParameters (startFrame endFrame : Z)
    (processedData : list Row) (cycleNumber : Z) : CycleParameters :=
  let cycleData := slice processedData startFrame (endFrame + 1) in
  let pharynxZScore := filterNotNull (map zscore_pharynx cycleData) in
  if (len pharynxZScore =? 0)%Z then PCRNullOnly
  else
    let sortedPharynx := sortAscending pharynxZScore in
    let p95Value := numAt sortedPharynx (p95Index sortedPharynx) in
    let p5Value := numAt sortedPharynx (p5Index sortedPharynx) in
    let adjusted := adjustPercentiles p95Value p5Value pharynxZScore in
    let aspiration := aspirationBlock startFrame cycleData in
    let vestibule := filterNotNull (map normalized_vestibule cycleData) in
    let hyb := hybBlock startFrame cycleData processedData cycleNumber in
    let ues := uesBlock startFrame cycleData processedData cycleNumber in
    let lvc :=
      lvcBlock startFrame cycleData processedData cycleNumber vestibule in
    Parameters
      {| PCR := snd adjusted / fst adjusted;
         PCR_p95 := p95Value;
         PCR_p5 := p5Value;
         PCR_adjusted_p95 := fst adjusted;
         PCR_adjusted_p5 := snd adjusted;
         PCR_frames := len pharynxZScore;
         PCR_hasNegativeValues := (p95Value <? ofZ 0) || (p5Value <? ofZ 0);
         aspirationRisk := fst (fst aspiration);
         maxOverlapRatio := snd (fst aspiration);
         aspirationThreshold := aspirationThresholdValue;
         overlapRatioDetails := snd aspiration;
         HYB := option_map hyb_valleyFrame hyb;
         HYB_peakFrame := option_map hyb_peakFrame hyb;
         HYB_valleyFrame := option_map hyb_valleyFrame hyb;
         HYB_peakValue := option_map hyb_peakValue hyb;
         HYB_valleyValue := option_map hyb_valleyValue hyb;
         UESO := option_map ues_beforeValleyFrame ues;
         UESC := option_map ues_afterValleyFrame ues;
         UES_peakFrame := option_map ues_peakFrame ues;
         UES_peakValue := option_map ues_peakValue ues;
         UES_beforeValleyFrame := option_map ues_beforeValleyFrame ues;
         UES_afterValleyFrame := option_map ues_afterValleyFrame ues;
         UES_beforeValleyValue := option_map ues_beforeValleyValue ues;
         UES_afterValleyValue := option_map ues_afterValleyValue ues;
         LVC := option_map lvc_peakFrame lvc;
         LVCoff := option_map lvc_valley2Frame lvc;
         LVC_peakFrame := option_map lvc_peakFrame lvc;
         LVC_peakValue := option_map lvc_peakValue lvc;
         LVC_valley1Frame := option_map lvc_valley1Frame lvc;
         LVC_valley2Frame := option_map lvc_valley2Frame lvc;
         LVC_valley1Value := option_map lvc_valley1Value lvc;
         LVC_valley2Value := option_map lvc_valley2Value lvc |}.

(** ** detectSwallowingCycles (App.tsx 674-866) *)

Record Cycle : Type := {
  cycleNumber : Z;
  startFrame : Z;
  peakFrame : Z;
  endFrame : Z;
  peakValue : num;
  duration : Z;
  startTime : num;
  endTime : num;
  durationTime : num;
  parameters : CycleParameters       (* ...cycleParameters *)
}.

Record SwallowingAnalysis : Type := {
  cycles : list Cycle;
  totalSwallows : Z;
  smoothedData : list (option num);
  diffData : list num;
  peaks : list Z
}.

(** The function returns the bare empty array on a short series (line 675),
    and the analysis object otherwise. *)
Inductive Detection : Type :=
| EmptyArray
| Analysis (a : SwallowingAnalysis).

(** The cycle list a caller reads off the result. *)
Definition cyclesOf (d : Detection) : list Cycle :=
  match d with
  | EmptyArray => []
  | Analysis a => cycles a
  end.

(** Lines 680-684. *)
Definition firstDifferences (smoothedData : list (option num)) : list num :=
  map (fun i => valAt smoothedData i - valAt smoothedData (i - 1))
      (range 1 (len smoothedData)).

(** Lines 686-705. *)
Definition windowSize : Z := 3.

Definition isPeak (smoothedData : list (option num)) (i : Z) : bool :=
  forallb (fun j => negb (negb (j =? i)%Z &&
                          (valAt smoothedData j >=? valAt smoothedData i)))
          (range (i - windowSize) (i + windowSize + 1)).

Definition detectPeaks (smoothedData : list (option num))
    (minPeakHeight : num) : list Z :=
  filter (fun i => isPeak smoothedData i &&
                   (valAt smoothedData i >? minPeakHeight))
         (range windowSize (len smoothedData - windowSize)).

(** Lines 713-730: the scan of [filteredPeaks] for one candidate; the result
    is [filteredPeaks] after a possible [splice], and [isSignificant]. *)
Fixpoint scanFiltered (smoothedData : list (option num)) (minCycleLength : Z)
    (currentPeak : Z) (filteredPeaks : list Z) : list Z * bool :=
  match filteredPeaks with
  | [] => ([], true)
  | prevPeak :: rest =>
      if (Z.abs (currentPeak - prevPeak) <? minCycleLength)%Z then
        if valAt smoothedData currentPeak >? valAt smoothedData prevPeak
        then (rest, true)
        else (prevPeak :: rest, false)
      else
        let r := scanFiltered smoothedData minCycleLength currentPeak rest in
        (prevPeak :: fst r, snd r)
  end.

(** Lines 707-735. *)
Definition filterPeaks (smoothedData : list (option num))
    (minCycleLength : Z) (peaks : list Z) : list Z :=
  fold_left
    (fun filteredPeaks currentPeak =>
       let r := scanFiltered smoothedData minCycleLength currentPeak
                             filteredPeaks in
       if snd r then fst r ++ [currentPeak] else fst r)
    peaks [].

(** Lines 753-790: the start frame of the cycle of index [i]. *)
Definition findStartFrame (smoothedData : list (option num))
    (diffData : list num) (i peakFrame lastEndFrame : Z) : Z :=
  if (i =? 0)%Z then
    match find (fun j => numAt diffData j >? dec 2 2) (range 0 peakFrame) with
    | Some j => j
    | None => 0%Z
    end
  else
    let searchStartFrame := (lastEndFrame + 1)%Z in
    let localMin :=
      scanExtremum (fun x best => x <? best) (valAt smoothedData)
        (fun _ => false) (range searchStartFrame peakFrame)
        (valAt smoothedData peakFrame, peakFrame) in
    match find (fun j => numAt diffData j >? dec 15 3)
               (range (snd localMin) peakFrame) with
    | Some j => j
    | None => snd localMin
    end.

(** Lines 792-815: the end frame. *)
Definition findEndFrame (smoothedData : list (option num))
    (diffData : list num) (peakFrame : Z) : Z :=
  let postLocalMin :=
    scanExtremum (fun x best => x <? best) (valAt smoothedData)
      (fun j => (j <? len smoothedData - 1)%Z && (numAt diffData j >? dec 2 2))
      (range (peakFrame + 1) (Z.min (len smoothedData) (peakFrame + 100)))
      (valAt smoothedData peakFrame, peakFrame) in
  match find (fun j => nabs (numAt diffData j) <? dec 15 3)
             (range (snd postLocalMin)
                    (Z.min (len smoothedData) (snd postLocalMin + 30))) with
  | Some j => j
  | None => snd postLocalMin
  end.

(** Lines 741-857: one turn of the loop over [filteredPeaks]; the state is
    [(swallowingCycles, lastEndFrame)]. *)
Definition cycleStep (smoothedData : list (option num)) (diffData : list num)
    (processedData : list Row) (fps : num)
    (state : list Cycle * Z) (ip : Z * Z) : list Cycle * Z :=
  let i := fst ip in
  let peakFrame := snd ip in
  let lastEndFrame := snd state in
  let startFrame :=
    findStartFrame smoothedData diffData i peakFrame lastEndFrame in
  let endFrame := findEndFrame smoothedData diffData peakFrame in
  let cycleLength := (endFrame - startFrame)%Z in
  let isReasonableLength := (5 <=? cycleLength)%Z && (cycleLength <=? 200)%Z in
  let isSequential := (lastEndFrame <? startFrame)%Z in
  let hasValidStart := (startFrame <? peakFrame)%Z in
  let hasValidEnd := (peakFrame <? endFrame)%Z in
  if isReasonableLength && isSequential && hasValidStart && hasValidEnd then
    let cycleParameters :=
      extractCycleParameters startFrame endFrame processedData (i + 1) in
    (fst state ++
       [ {| cycleNumber := (i + 1)%Z;
            startFrame := startFrame;
            peakFrame := peakFrame;
            endFrame := endFrame;
            peakValue := valAt smoothedData peakFrame;
            duration := cycleLength;
            startTime := ofZ startFrame / fps;
            endTime := ofZ endFrame / fps;
            durationTime := ofZ cycleLength / fps;
            parameters := cycleParameters |} ],
     endFrame)
  else state.

Definition detectSwallowingCycles (zscoreData : list (option num))
    (processedData : list Row) (fps minPeakHeight : num)
    (minCycleLength : Z) : Detection :=
  if (len zscoreData <? minCycleLength)%Z then EmptyArray
  else
    let smoothedData := savitzkyGolayFilter zscoreData 5 in
    let diffData := firstDifferences smoothedData in
    let peaks := detectPeaks smoothedData minPeakHeight in
    let filteredPeaks := filterPeaks smoothedData minCycleLength peaks in
    let swallowingCycles :=
      fst (fold_left (cycleStep smoothedData diffData processedData fps)
                     (combine (range 0 (len filteredPeaks)) filteredPeaks)
                     ([], (-1)%Z)) in
    Analysis {| cycles := swallowingCycles;
                totalSwallows := len swallowingCycles;
                smoothedData := smoothedData;
                diffData := diffData;
                peaks := filteredPeaks |}.

(** ** processAdvancedData (App.tsx 869-1028) *)

(** One element of [summary.signals.areas]. *)
Record Area : Type := {
  bolus_pharynx_overlap : option num;
  bolus_vestibule_overlap : option num;
  pharynx : option num;
  vestibule : option num;
  bolus : option num;
  hyoid_c4_distance : option num;
  ues_length : option num;
  c2c4_length : option num
}.

(** [a.bolus || 0] *)
Definition orZero (v : option num) : option num :=
  if truthy v then v else Some (ofZ 0).

(** Lines 883-892: the smoothed series; the last three are smoothed after
    [filter] has dropped their null (and, for the reference length,
    non-positive) samples. *)
Record Smoothed : Type := {
  sm_bolus_pharynx_overlap : list (option num);
  sm_bolus_vestibule_overlap : list (option num);
  sm_pharynx : list (option num);
  sm_vestibule : list (option num);
  sm_bolus : list (option num);
  sm_hyoid_c4_distance : list (option num);
  sm_ues_length : list (option num);
  sm_c2c4_length : list (option num)
}.

Definition smoothAll (originalAreas : list Area) : Smoothed :=
  {| sm_bolus_pharynx_overlap :=
       savitzkyGolayFilter (map bolus_pharynx_overlap originalAreas) 5;
     sm_bolus_vestibule_overlap :=
       savitzkyGolayFilter (map bolus_vestibule_overlap originalAreas) 5;
     sm_pharynx := savitzkyGolayFilter (map pharynx originalAreas) 5;
     sm_vestibule := savitzkyGolayFilter (map vestibule originalAreas) 5;
     sm_bolus :=
       savitzkyGolayFilter (map (fun a => orZero (bolus a)) originalAreas) 5;
     sm_hyoid_c4_distance :=
       savitzkyGolayFilter
         (filter isNotNull (map hyoid_c4_distance originalAreas)) 5;
     sm_ues_length :=
       savitzkyGolayFilter (filter isNotNull (map ues_length originalAreas)) 5;
     sm_c2c4_length :=
       savitzkyGolayFilter
         (filter (fun d => isNotNull d && (ToNumber d >? ofZ 0))
                 (map c2c4_length originalAreas)) 5 |}.

(** [series[index]] stored as a property: [number | null] ([undefined] does
    not occur, the area series have one element per frame). *)
Definition propAt (series : list (option num)) (index : Z) : option num :=
  match atIndex series index with Some v => v | None => None end.

Definition areaSeries (sm : Smoothed) (p : Param) : list (option num) :=
  match p with
  | Pbolus_pharynx_overlap => sm_bolus_pharynx_overlap sm
  | Pbolus_vestibule_overlap => sm_bolus_vestibule_overlap sm
  | Ppharynx => sm_pharynx sm
  | Pvestibule => sm_vestibule sm
  | Pbolus => sm_bolus sm
  | Phyoid_c4_distance => sm_hyoid_c4_distance sm
  | Pues_length => sm_ues_length sm
  end.

Definition isAreaParam (p : Param) : bool :=
  match p with
  | Phyoid_c4_distance | Pues_length => false
  | _ => true
  end.

(** The [smoothed_<p>] properties of a row: the five area series. *)
Definition smoothedProps (sm : Smoothed) (index : Z) (p : Param) : option num :=
  if isAreaParam p then propAt (areaSeries sm p) index else None.

(** Line 896: [smoothedData.c2c4_length[index] || area.c2c4_length]. *)
Definition c2c4LengthAt (sm : Smoothed) (index : Z) (area : Area) : option num :=
  match atIndex (sm_c2c4_length sm) index with
  | Some v => if truthy v then v else c2c4_length area
  | None => c2c4_length area
  end.

(** Lines 895-954: the row of frame [index], z-scores still null. *)
Definition normalizeRow (referenceC2C4 : num) (sm : Smoothed)
    (index : Z) (area : Area) : Row :=
  let c2c4Length := c2c4LengthAt sm index area in
  if negb (truthy c2c4Length) || (ToNumber c2c4Length <=? ofZ 0) then
    {| frame := index;
       smoothed := smoothedProps sm index;
       normalized := fun _ => None;
       zscore := fun _ => None;
       row_cycleNumber := None;
       row_startFrame := None;
       row_endFrame := None |}
  else
    let scaleFactor := referenceC2C4 / ToNumber c2c4Length in
    let scaleFactorSquared := scaleFactor * scaleFactor in
    {| frame := index;
       smoothed := smoothedProps sm index;
       normalized := fun p =>
         if isAreaParam p then
           Some (valAt (areaSeries sm p) index * scaleFactor)
         else
           match atIndex (areaSeries sm p) index with
           | Some None => None
           | _ => Some (valAt (areaSeries sm p) index * scaleFactorSquared)
           end;
       zscore := fun _ => None;
       row_cycleNumber := None;
       row_startFrame := None;
       row_endFrame := None |}.

Definition areaParameterNames : list Param :=
  [Pbolus_pharynx_overlap; Pbolus_vestibule_overlap; Ppharynx; Pvestibule;
   Pbolus].

Definition distanceParameterNames : list Param :=
  [Phyoid_c4_distance; Pues_length].

(** Lines 967-985: calculateGroupZScore.  [prop] reads the properties named
    by [paramNames]; the program passes the [normalized_] names. *)
Record GroupStats : Type := { mean : num; stdDev : num }.

Definition groupValuesOf (prop : Row -> Param -> option num)
    (paramNames : list Param) (data : list Row) : list num :=
  flat_map (fun paramName =>
              filterNotNull (map (fun row => prop row paramName) data))
           paramNames.

Definition sumOf (values : list num) : num :=
  fold_left (fun sum val => sum + val) values (ofZ 0).

Definition meanOf (values : list num) : num :=
  sumOf values / ofZ (len values).

(** [Math.pow(val - mean, 2)] is the square. *)
Definition varianceOf (values : list num) (m : num) : num :=
  fold_left (fun sum val => sum + (val - m) * (val - m)) values (ofZ 0)
  / ofZ (len values).

Definition calculateGroupZScore (paramNames : list Param) (data : list Row)
    : GroupStats :=
  let groupValues := groupValuesOf normalized paramNames data in
  if (len groupValues =? 0)%Z then {| mean := ofZ 0; stdDev := ofZ 1 |}
  else
    let m := meanOf groupValues in
    let variance := varianceOf groupValues m in
    let sd := nsqrt variance in
    {| mean := m; stdDev := if sd >? ofZ 0 then sd else ofZ 1 |}.

(** Lines 994-1012: [row[zscoreParamName] = ...] for one parameter. *)
Definition setZscore (paramName : Param) (v : option num) (row : Row) : Row :=
  {| frame := frame row;
     smoothed := smoothed row;
     normalized := normalized row;
     zscore := fun q => if Param_eqb q paramName then v else zscore row q;
     row_cycleNumber := row_cycleNumber row;
     row_startFrame := row_startFrame row;
     row_endFrame := row_endFrame row |}.

Definition standardizeParam (stats : GroupStats) (row : Row)
    (paramName : Param) : Row :=
  match normalized row paramName with
  | Some normalizedValue =>
      setZscore paramName
                (Some ((normalizedValue - mean stats) / stdDev stats)) row
  | None => row
  end.

Definition standardizeRow (areaStats distanceStats : GroupStats) (row : Row)
    : Row :=
  fold_left (standardizeParam distanceStats) distanceParameterNames
    (fold_left (standardizeParam areaStats) areaParameterNames row).

(** Lines 956-1012: the grouped standardization of the normalized rows. *)
Definition standardizeRows (normalizedData : list Row) : list Row :=
  let areaStats := calculateGroupZScore areaParameterNames normalizedData in
  let distanceStats :=
    calculateGroupZScore distanceParameterNames normalizedData in
  map (standardizeRow areaStats distanceStats) normalizedData.

Record Processed : Type := {
  reference : num;
  processedData : list Row;
  areaStats : GroupStats * Z;        (* mean, stdDev, parameterCount *)
  distanceStats : GroupStats * Z
}.

Definition normalizeRows (originalAreas : list Area) (referenceC2C4 : num)
    : list Row :=
  let sm := smoothAll originalAreas in
  map (fun ia => normalizeRow referenceC2C4 sm (fst ia) (snd ia))
      (combine (range 0 (len originalAreas)) originalAreas).

Definition processAdvancedData (originalAreas : list Area)
    (referenceC2C4 : num) : Processed :=
  let normalizedData := normalizeRows originalAreas referenceC2C4 in
  {| reference := referenceC2C4;
     processedData := standardizeRows normalizedData;
     areaStats :=
       (calculateGroupZScore areaParameterNames normalizedData,
        len areaParameterNames);
     distanceStats :=
       (calculateGroupZScore distanceParameterNames normalizedData,
        len distanceParameterNames) |}.

End Pipeline.

Arguments Row num : clear implicits.
Arguments OverlapDetail num : clear implicits.
Arguments ClinicalParameters num : clear implicits.
Arguments CycleParameters num : clear implicits.
Arguments HybResult num : clear implicits.
Arguments UesResult num : clear implicits.
Arguments LvcResult num : clear implicits.
Arguments Cycle num : clear implicits.
Arguments SwallowingAnalysis num : clear implicits.
Arguments Detection num : clear implicits.
Arguments Area num : clear implicits.
Arguments Smoothed num : clear implicits.
Arguments GroupStats num : clear implicits.
Arguments Processed num : clear implicits.

(** * Properties *)

(** ** Cycle segmentation *)

Section Segmentation.

Context {num : Type} `{JSNumber num}.
Variable Math_exp : num -> num.

(** The boundaries of a cycle are in order. *)
Definition ordered (c : Cycle num) : Prop :=
  startFrame c < peakFrame c < endFrame c.

(** [c] ends before [d] starts, and peaks before it. *)
Definition precedes (c d : Cycle num) : Prop :=
  endFrame c < startFrame d /\ peakFrame c < peakFrame d.

(** The invariant of the loop over [filteredPeaks]: the accepted cycles are
    ordered, pairwise disjoint in the order of acceptance, and none ends
    after [lastEndFrame]. *)
Definition segmented (state : list (Cycle num) * Z) : Prop :=
  Forall ordered (fst state) /\
  ForallOrdPairs precedes (fst state) /\
  Forall (fun c => endFrame c <= snd state) (fst state).

Lemma ForallOrdPairs_snoc (A : Type) (R : A -> A -> Prop) (l : list A) (x : A) :
  ForallOrdPairs R l -> Forall (fun y => R y x) l ->
  ForallOrdPairs R (l ++ [x]).
Proof.
  induction 1 as [|y l Hy Hl IH]; intros Hx; simpl.
  - constructor; [constructor | constructor].
  - inversion Hx; subst. constructor.
    + apply Forall_app; split; [assumption | constructor; [assumption | constructor]].
    + apply IH; assumption.
Qed.

Lemma ForallOrdPairs_nth (A : Type) (R : A -> A -> Prop) (l : list A) :
  ForallOrdPairs R l ->
  forall i j x y, (i < j)%nat ->
    nth_error l i = Some x -> nth_error l j = Some y -> R x y.
Proof.
  induction 1 as [|a l Ha Hl IH]; intros i j x y Hij Hi Hj.
  - destruct i; discriminate.
  - destruct j as [|j]; [lia|]. simpl in Hj. destruct i as [|i]; simpl in Hi.
    + injection Hi as <-. rewrite Forall_forall in Ha.
      apply Ha. eapply nth_error_In; eassumption.
    + apply (IH i j); [lia | assumption | assumption].
Qed.

Lemma segmented_init : segmented ([], -1).
Proof. repeat split; constructor. Qed.

Lemma cycleStep_segmented smoothed diff processedData fps state ip :
  segmented state ->
  segmented (cycleStep smoothed diff processedData fps state ip).
Proof.
  intros (Hord & Hpairs & Hlast). unfold cycleStep.
  set (start := findStartFrame smoothed diff (fst ip) (snd ip) (snd state)).
  set (stop := findEndFrame smoothed diff (snd ip)).
  destruct ((5 <=? stop - start) && (stop - start <=? 200)
            && (snd state <? start) && (start <? snd ip)
            && (snd ip <? stop)) eqn:Hvalid;
    [| repeat split; assumption].
  repeat rewrite andb_true_iff in Hvalid.
  destruct Hvalid as ((((_ & _) & Hseq) & Hstart) & Hend).
  apply Z.ltb_lt in Hseq, Hstart, Hend.
  unfold segmented; simpl. repeat split.
  - apply Forall_app; split; [assumption|].
    constructor; [|constructor]. unfold ordered; simpl. lia.
  - apply ForallOrdPairs_snoc; [assumption|].
    rewrite Forall_forall in *. intros c Hc.
    specialize (Hord c Hc). specialize (Hlast c Hc).
    unfold precedes, ordered in *; simpl. lia.
  - apply Forall_app; split.
    + rewrite Forall_forall in *. intros c Hc.
      specialize (Hlast c Hc). lia.
    + constructor; [simpl; lia | constructor].
Qed.

Lemma cycleLoop_segmented smoothed diff processedData fps steps state :
  segmented state ->
  segmented (fold_left (cycleStep smoothed diff processedData fps) steps state).
Proof.
  revert state. induction steps as [|ip steps IH]; intros state Hs; simpl.
  - assumption.
  - apply IH, cycleStep_segmented, Hs.
Qed.

(** C1. In the cycle list that [detectSwallowingCycles] returns, on any
    driver series, every cycle has [startFrame < peakFrame < endFrame], and
    a cycle that comes earlier in the list ends strictly before a later one
    starts and peaks strictly before it; in particular consecutive cycles
    never overlap and the list is in increasing order of [peakFrame]. *)
Theorem detected_cycles_ordered_and_disjoint
    (zscoreData : list (option num)) (processedData : list (Row num))
    (fps minPeakHeight : num) (minCycleLength : Z) :
  let cs := cyclesOf (detectSwallowingCycles Math_exp zscoreData processedData
                                             fps minPeakHeight minCycleLength) in
  (forall c, In c cs -> startFrame c < peakFrame c < endFrame c) /\
  (forall i c d, nth_error cs i = Some c -> nth_error cs (S i) = Some d ->
     endFrame c < startFrame d /\ peakFrame c < peakFrame d) /\
  (forall i j c d, (i < j)%nat ->
     nth_error cs i = Some c -> nth_error cs j = Some d ->
     endFrame c < startFrame d /\ peakFrame c < peakFrame d).
Proof.
  intros cs.
  assert (Hseg : Forall ordered cs /\ ForallOrdPairs precedes cs).
  { subst cs. unfold detectSwallowingCycles.
    destruct (len zscoreData <? minCycleLength); cbn [cyclesOf cycles].
    - split; constructor.
    - match goal with
      | |- context [fold_left ?f ?l ?s] =>
          assert (Hst : segmented (fold_left f l s))
            by apply cycleLoop_segmented, segmented_init
      end.
      destruct Hst as (Hord & Hpairs & _). split; assumption. }
  destruct Hseg as (Hord & Hpairs). repeat split.
  - rewrite Forall_forall in Hord. apply (Hord c); assumption.
  - rewrite Forall_forall in Hord. apply (Hord c); assumption.
  - eapply (ForallOrdPairs_nth Hpairs (i := i) (j := S i)); eauto.
  - eapply (ForallOrdPairs_nth Hpairs (i := i) (j := S i)); eauto.
  - eapply (ForallOrdPairs_nth Hpairs (i := i) (j := j)); eauto.
  - eapply (ForallOrdPairs_nth Hpairs (i := i) (j := j)); eauto.
Qed.

(** C9. A driver series strictly shorter than the minimum cycle length makes
    [detectSwallowingCycles] return the empty array: the cycle list is empty
    and nothing is thrown (the function is total). *)
Theorem short_series_gives_no_cycle
    (zscoreData : list (option num)) (processedData : list (Row num))
    (fps minPeakHeight : num) (minCycleLength : Z) :
  len zscoreData < minCycleLength ->
  detectSwallowingCycles Math_exp zscoreData processedData
                         fps minPeakHeight minCycleLength = EmptyArray /\
  cyclesOf (detectSwallowingCycles Math_exp zscoreData processedData
                                   fps minPeakHeight minCycleLength) = [].
Proof.
  intros Hshort. unfold detectSwallowingCycles.
  apply Z.ltb_lt in Hshort. rewrite Hshort. split; reflexivity.
Qed.

End Segmentation.

(** ** Clinical parameters of one cycle *)

(** The record a landmark block returns, read off its [let] chain. *)
Ltac blockResult E r :=
  apply (f_equal (fun o => match o with Some x => x | None => r end)) in E;
  cbv beta iota zeta in E; subst r;
  cbv beta iota delta [hyb_valleyFrame hyb_peakFrame
                       ues_beforeValleyFrame ues_peakFrame ues_afterValleyFrame
                       lvc_peakFrame lvc_valley1Frame lvc_valley2Frame].

Section Extraction.

Context {num : Type} `{JSNumber num}.

Local Open Scope js_scope.

Lemma len_zero_nil (A : Type) (l : list A) : (len l =? 0)%Z = true -> l = [].
Proof.
  destruct l; [reflexivity|]. unfold len. intros E.
  apply Z.eqb_eq in E. simpl length in E. lia.
Qed.

Lemma len_pos_cons (A : Type) (x : A) (l : list A) :
  (0 <? len (x :: l))%Z = true.
Proof. apply Z.ltb_lt. unfold len; simpl. lia. Qed.

(** The standardized pharynx samples of the cycle [startFrame .. endFrame]. *)
Definition pharynxSamples (processedData : list (Row num))
    (startFrame endFrame : Z) : list num :=
  filterNotNull (map (@zscore_pharynx num)
                     (slice processedData startFrame (endFrame + 1))).

(** The nearest-rank percentiles of a series: the elements of rank
    [floor (n * 0.05)] and [floor (n * 0.95)] of the sorted series. *)
Definition percentile5 (samples : list num) : num :=
  numAt (sortAscending samples) (p5Index (sortAscending samples)).

Definition percentile95 (samples : list num) : num :=
  numAt (sortAscending samples) (p95Index (sortAscending samples)).

(** Without a pharynx sample the function returns [{ PCR: null }] at once. *)
Lemma no_pharynx_sample_returns_early
    (startFrame endFrame : Z) (processedData : list (Row num)) (cycleNumber : Z) :
  pharynxSamples processedData startFrame endFrame = [] ->
  extractCycleParameters startFrame endFrame processedData cycleNumber
  = PCRNullOnly.
Proof.
  unfold pharynxSamples, extractCycleParameters. intros ->. reflexivity.
Qed.

(** With a pharynx sample it returns the full object. *)
Lemma pharynx_sample_gives_parameters
    (startFrame endFrame : Z) (processedData : list (Row num)) (cycleNumber : Z) :
  pharynxSamples processedData startFrame endFrame <> [] ->
  exists p,
    extractCycleParameters startFrame endFrame processedData cycleNumber
    = Parameters p /\
    PCR_p5 p = percentile5 (pharynxSamples processedData startFrame endFrame) /\
    PCR_p95 p = percentile95 (pharynxSamples processedData startFrame endFrame) /\
    PCR p = PCR_adjusted_p5 p / PCR_adjusted_p95 p /\
    (PCR_adjusted_p95 p, PCR_adjusted_p5 p)
    = adjustPercentiles (PCR_p95 p) (PCR_p5 p)
        (pharynxSamples processedData startFrame endFrame) /\
    aspirationRisk p
    = fst (fst (aspirationBlock startFrame
                  (slice processedData startFrame (endFrame + 1)))) /\
    maxOverlapRatio p
    = snd (fst (aspirationBlock startFrame
                  (slice processedData startFrame (endFrame + 1)))).
Proof.
  unfold pharynxSamples, extractCycleParameters. intros Hne.
  destruct (len _ =? 0)%Z eqn:E.
  - apply len_zero_nil in E. contradiction.
  - eexists. split; [reflexivity|]. simpl.
    repeat split; try reflexivity.
    destruct (adjustPercentiles _ _ _); reflexivity.
Qed.

(** The absolute-value branch, for any arithmetic: when the two values the
    function reads as percentiles are both negative, the reported PCR is the
    quotient of their absolute values. *)
Lemma pcr_of_negative_percentiles
    (startFrame endFrame : Z) (processedData : list (Row num)) (cycleNumber : Z) :
  let samples := pharynxSamples processedData startFrame endFrame in
  samples <> [] ->
  (percentile5 samples <? ofZ 0) = true ->
  (percentile95 samples <? ofZ 0) = true ->
  exists p,
    extractCycleParameters startFrame endFrame processedData cycleNumber
    = Parameters p /\
    PCR p = nabs (percentile5 samples) / nabs (percentile95 samples).
Proof.
  intros samples Hne H5 H95.
  destruct (pharynx_sample_gives_parameters startFrame endFrame processedData
              cycleNumber Hne)
    as (p & Hp & Hp5 & Hp95 & Hpcr & Hadj & _).
  exists p. split; [assumption|].
  fold samples in Hp5, Hp95, Hadj. rewrite Hpcr.
  unfold adjustPercentiles in Hadj. rewrite Hp5, Hp95, H5, H95 in Hadj.
  simpl in Hadj. injection Hadj as -> ->. reflexivity.
Qed.

(** C10. In the ratio of one frame at most one operand is clamped: a
    vestibule area with [|v| < 0.01] is replaced by 0.01 and the overlap is
    then used as it is, whatever its size; the overlap is replaced by 0.01
    only when the vestibule area is not below 0.01 in absolute value (that is
    [|v| >= 0.01] for a number) and [|overlap| < 0.01]. *)
Theorem at_most_one_operand_clamped
    (startFrame i : Z) (row : Row num) (overlap vestibuleArea : num) :
  normalized_bolus_vestibule_overlap row = Some overlap ->
  normalized_vestibule row = Some vestibuleArea ->
  exists d,
    overlapDetailAt startFrame i row = [d] /\
    ratio d = adjustedOverlap d / adjustedVestibule d /\
    (adjustedOverlap d = overlap \/ adjustedVestibule d = vestibuleArea) /\
    ((nabs vestibuleArea <? dec 1 2) = true ->
       adjustedVestibule d = dec 1 2 /\ adjustedOverlap d = overlap) /\
    ((nabs vestibuleArea <? dec 1 2) = false ->
       adjustedVestibule d = vestibuleArea /\
       ((nabs overlap <? dec 1 2) = true -> adjustedOverlap d = dec 1 2) /\
       ((nabs overlap <? dec 1 2) = false -> adjustedOverlap d = overlap)) /\
    (adjustedOverlap d <> overlap ->
       (nabs vestibuleArea <? dec 1 2) = false /\
       (nabs overlap <? dec 1 2) = true /\
       adjustedOverlap d = dec 1 2 /\ adjustedVestibule d = vestibuleArea).
Proof.
  intros Ho Hv. unfold overlapDetailAt. rewrite Ho, Hv.
  eexists. split; [reflexivity|]. simpl. unfold adjustOverlapOperands.
  destruct (nabs vestibuleArea <? dec 1 2) eqn:Ev;
    [| destruct (nabs overlap <? dec 1 2) eqn:Eo]; simpl;
    repeat split; intros; try discriminate; try reflexivity;
    try contradiction; auto.
Qed.

(** *** The search range *)

(** When no row carries a [cycleNumber], [allCycles] is empty and the range
    stays the cycle's own. *)
Lemma widenedSearch_without_cycle_rows
    (processedData : list (Row num)) (cycleNumber startFrame defaultEnd : Z) :
  Forall (fun row => row_cycleNumber row = None) processedData ->
  widenedSearch processedData cycleNumber startFrame defaultEnd
  = (startFrame, defaultEnd).
Proof.
  intros Hrows. unfold widenedSearch.
  assert (E : filter (@isCycleRow num) processedData = []).
  { induction Hrows as [|row rows Hrow _ IH]; [reflexivity|]. simpl.
    unfold isCycleRow at 1. rewrite Hrow. assumption. }
  rewrite E. reflexivity.
Qed.

(** *** Where the landmarks can lie

    Whatever the rows hold, the landmark searches run over the samples of the
    cycle itself: the start of the search is clamped by [Math.max(0, ...)]
    and its end by [Math.min(length - 1, ...)]. *)

Lemma In_range (lo hi i : Z) : In i (range lo hi) -> (lo <= i < hi)%Z.
Proof.
  unfold range. intros Hi. apply in_map_iff in Hi.
  destruct Hi as (k & <- & Hk). apply in_seq in Hk. lia.
Qed.

Lemma In_countDown (from to i : Z) :
  In i (countDown from to) -> (to <= i <= from)%Z.
Proof.
  unfold countDown. intros Hi. apply in_rev in Hi. apply In_range in Hi. lia.
Qed.

Lemma scanExtremum_index (better : num -> num -> bool) (value : Z -> num)
    (stop : Z -> bool) (idxs : list Z) :
  forall best,
    snd (scanExtremum better value stop idxs best) = snd best \/
    In (snd (scanExtremum better value stop idxs best)) idxs.
Proof.
  induction idxs as [|i idxs IH]; intros best; simpl.
  - left. reflexivity.
  - destruct (stop i).
    + destruct (better (value i) (fst best)); simpl; auto.
    + destruct (IH (if better (value i) (fst best) then (value i, i) else best))
        as [E | Hin]; [| auto].
      rewrite E. destruct (better (value i) (fst best)); simpl; auto.
Qed.

Lemma find_index (test : Z -> bool) (idxs : list Z) (i : Z) :
  find test idxs = Some i -> In i idxs.
Proof. intros E. apply find_some in E. apply E. Qed.

Lemma argMax_index (a : list num) :
  (0 < len a)%Z -> (0 <= snd (argMax a) <= len a - 1)%Z.
Proof.
  intros Hlen. unfold argMax.
  destruct (scanExtremum_index (fun x best => x >? best) (numAt a)
              (fun _ => false) (range 1 (len a)) (numAt a 0, 0%Z))
    as [E | Hin].
  - rewrite E. simpl. lia.
  - apply In_range in Hin. lia.
Qed.

Lemma valleyBefore_index (a diffData : list num) (maxValue : num)
    (maxIndex searchStartInCycle : Z) :
  (0 <= searchStartInCycle)%Z -> (0 <= maxIndex)%Z ->
  (0 <= snd (valleyBefore a diffData maxValue maxIndex searchStartInCycle)
   <= maxIndex)%Z.
Proof.
  intros Hs Hm. unfold valleyBefore.
  destruct (find _ _) as [i|] eqn:E.
  - apply find_index, In_countDown in E. simpl. lia.
  - match goal with
    | |- context [scanExtremum ?b ?v ?st ?l ?best] =>
        destruct (scanExtremum_index b v st l best) as [E' | Hin]
    end.
    + rewrite E'. simpl. lia.
    + apply In_countDown in Hin. lia.
Qed.

Lemma valleyAfter_index (a diffData : list num) (maxValue : num)
    (maxIndex searchEndInCycle : Z) :
  (0 <= maxIndex <= len a - 1)%Z -> (searchEndInCycle <= len a - 1)%Z ->
  (0 <= snd (valleyAfter a diffData maxValue maxIndex searchEndInCycle)
   <= len a - 1)%Z.
Proof.
  intros Hm He. unfold valleyAfter.
  destruct (find _ _) as [i|] eqn:E.
  - apply find_index, In_range in E. simpl. lia.
  - match goal with
    | |- context [scanExtremum ?b ?v ?st ?l ?best] =>
        destruct (scanExtremum_index b v st l best) as [E' | Hin]
    end.
    + rewrite E'. simpl. lia.
    + apply In_range in Hin. lia.
Qed.

Lemma lvcPeak_index (a diffData secondDiffData : list num) (valley1Value : num)
    (valley1Index searchStartInCycle : Z) :
  (0 <= searchStartInCycle)%Z -> (0 <= valley1Index)%Z ->
  (0 <= snd (lvcPeak a diffData secondDiffData valley1Value valley1Index
                     searchStartInCycle)
   <= valley1Index)%Z.
Proof.
  intros Hs Hv. unfold lvcPeak.
  destruct (find _ _) as [i|] eqn:E1.
  - apply find_index, In_countDown in E1. simpl. lia.
  - clear E1. destruct (find _ _) as [i|] eqn:E2.
    + apply find_index, In_countDown in E2. simpl. lia.
    + match goal with
      | |- context [scanExtremum ?b ?v ?st ?l ?best] =>
          destruct (scanExtremum_index b v st l best) as [E' | Hin]
      end.
      * rewrite E'. simpl. lia.
      * apply In_countDown in Hin. lia.
Qed.

Lemma lvcValley2_index (a diffData secondDiffData : list num)
    (valley1Value : num) (valley1Index searchEndInCycle : Z) :
  (0 <= valley1Index <= len a - 1)%Z -> (searchEndInCycle <= len a - 1)%Z ->
  (0 <= snd (lvcValley2 a diffData secondDiffData valley1Value valley1Index
                        searchEndInCycle)
   <= len a - 1)%Z.
Proof.
  intros Hv He. unfold lvcValley2.
  destruct (find _ _) as [i|] eqn:E1.
  - apply find_index, In_range in E1. simpl. lia.
  - clear E1. destruct (find _ _) as [i|] eqn:E2.
    + apply find_index, In_range in E2. simpl. lia.
    + match goal with
      | |- context [scanExtremum ?b ?v ?st ?l ?best] =>
          destruct (scanExtremum_index b v st l best) as [E' | Hin]
      end.
      * rewrite E'. simpl. lia.
      * apply In_range in Hin. lia.
Qed.

Lemma len_filterNotNull (A : Type) (f : A -> option num) (l : list A) :
  (len (filterNotNull (map f l)) <= len l)%Z.
Proof.
  unfold len. induction l as [|x l IH]; simpl; [lia|].
  rewrite length_app. destruct (f x); simpl; lia.
Qed.

Lemma len_slice (A : Type) (l : list A) (s e : Z) :
  (0 <= s <= e)%Z -> (len (slice l s (e + 1)) <= e - s + 1)%Z.
Proof.
  intros Hse. unfold slice, len.
  rewrite length_firstn.
  destruct (s <? 0)%Z eqn:Es; [apply Z.ltb_lt in Es; lia|].
  destruct (e + 1 <? 0)%Z eqn:Ee; [apply Z.ltb_lt in Ee; lia|].
  fold (len l). lia.
Qed.

Lemma hybBlock_inside (startFrame : Z) (cycleData processedData : list (Row num))
    (cycleNumber : Z) (r : HybResult num) :
  hybBlock startFrame cycleData processedData cycleNumber = Some r ->
  (startFrame <= hyb_valleyFrame r <= startFrame + len cycleData - 1)%Z.
Proof.
  unfold hybBlock. destruct (0 <? len _)%Z eqn:Hlen; [| discriminate].
  apply Z.ltb_lt in Hlen. intros E. blockResult E r.
  pose proof (argMax_index _ Hlen) as Hmax.
  pose proof (len_filterNotNull (@zscore_hyoid_c4_distance num) cycleData) as Hle.
  match goal with
  | |- context [valleyBefore ?a ?d ?mv ?mi ?ss] =>
      assert (Hv : (0 <= snd (valleyBefore a d mv mi ss) <= mi)%Z)
        by (apply valleyBefore_index; lia)
  end.
  lia.
Qed.

Lemma uesBlock_inside (startFrame : Z) (cycleData processedData : list (Row num))
    (cycleNumber : Z) (r : UesResult num) :
  uesBlock startFrame cycleData processedData cycleNumber = Some r ->
  (startFrame <= ues_beforeValleyFrame r <= startFrame + len cycleData - 1)%Z /\
  (startFrame <= ues_afterValleyFrame r <= startFrame + len cycleData - 1)%Z.
Proof.
  unfold uesBlock. destruct (0 <? len _)%Z eqn:Hlen; [| discriminate].
  apply Z.ltb_lt in Hlen. intros E. blockResult E r.
  pose proof (argMax_index _ Hlen) as Hmax.
  pose proof (len_filterNotNull (@zscore_ues_length num) cycleData) as Hle.
  split.
  - match goal with
    | |- context [valleyBefore ?a ?d ?mv ?mi ?ss] =>
        assert (Hv : (0 <= snd (valleyBefore a d mv mi ss) <= mi)%Z)
          by (apply valleyBefore_index; lia)
    end.
    lia.
  - match goal with
    | |- context [valleyAfter ?a ?d ?mv ?mi ?se] =>
        assert (Hv : (0 <= snd (valleyAfter a d mv mi se) <= len a - 1)%Z)
          by (apply valleyAfter_index; lia)
    end.
    lia.
Qed.

Lemma lvcBlock_inside (startFrame : Z) (cycleData processedData : list (Row num))
    (cycleNumber : Z) (vestibule : list num) (r : LvcResult num) :
  lvcBlock startFrame cycleData processedData cycleNumber vestibule = Some r ->
  (startFrame <= lvc_peakFrame r <= startFrame + len cycleData - 1)%Z /\
  (startFrame <= lvc_valley2Frame r <= startFrame + len cycleData - 1)%Z.
Proof.
  unfold lvcBlock. destruct (0 <? len _)%Z eqn:Hlen; [| discriminate].
  apply Z.ltb_lt in Hlen. intros E. blockResult E r.
  pose proof (len_filterNotNull (@zscore_vestibule num) cycleData) as Hle.
  set (a := filterNotNull (map (@zscore_vestibule num) cycleData)) in *.
  set (search := widenedSearch processedData cycleNumber startFrame
                               (startFrame + len vestibule - 1)).
  set (searchStart := Z.max 0 (fst search - startFrame)).
  set (searchEnd := Z.min (len a - 1) (snd search - startFrame)).
  set (valley1 := scanExtremum (fun x best => x <? best) (numAt a)
                    (fun _ => false) (range searchStart (searchEnd + 1))
                    (numAt a 0, 0%Z)).
  assert (H1 : (0 <= snd valley1 <= len a - 1)%Z).
  { unfold valley1.
    destruct (scanExtremum_index (fun x best => x <? best) (numAt a)
                (fun _ => false) (range searchStart (searchEnd + 1))
                (numAt a 0, 0%Z)) as [E | Hin].
    - rewrite E. simpl. lia.
    - apply In_range in Hin. lia. }
  split.
  - match goal with
    | |- context [lvcPeak ?x ?d ?sd ?vv ?vi ?ss] =>
        assert (Hv : (0 <= snd (lvcPeak x d sd vv vi ss) <= vi)%Z)
          by (apply lvcPeak_index; lia)
    end.
    lia.
  - match goal with
    | |- context [lvcValley2 ?x ?d ?sd ?vv ?vi ?se] =>
        assert (Hv : (0 <= snd (lvcValley2 x d sd vv vi se) <= len x - 1)%Z)
          by (apply lvcValley2_index; lia)
    end.
    lia.
Qed.

(** Every landmark the function reports lies between the cycle's own
    [startFrame] and [endFrame], whatever the rows hold. *)
Theorem landmarks_stay_inside_cycle
    (startFrame endFrame : Z) (processedData : list (Row num)) (cycleNumber : Z)
    (p : ClinicalParameters num) (landmark : Z) :
  (0 <= startFrame <= endFrame)%Z ->
  extractCycleParameters startFrame endFrame processedData cycleNumber
  = Parameters p ->
  In (Some landmark) [HYB p; UESO p; UESC p; LVC p; LVCoff p] ->
  (startFrame <= landmark <= endFrame)%Z.
Proof.
  intros Hse Hp Hin. unfold extractCycleParameters in Hp.
  destruct (len _ =? 0)%Z; [discriminate|]. injection Hp as <-.
  pose proof (len_slice processedData Hse) as Hlen.
  simpl in Hin.
  destruct Hin as [E | [E | [E | [E | [E | []]]]]].
  - destruct (hybBlock _ _ _ _) as [r|] eqn:Er; [| discriminate].
    injection E as <-. apply hybBlock_inside in Er. lia.
  - destruct (uesBlock _ _ _ _) as [r|] eqn:Er; [| discriminate].
    injection E as <-. apply uesBlock_inside in Er. lia.
  - destruct (uesBlock _ _ _ _) as [r|] eqn:Er; [| discriminate].
    injection E as <-. apply uesBlock_inside in Er. lia.
  - destruct (lvcBlock _ _ _ _ _) as [r|] eqn:Er; [| discriminate].
    injection E as <-. apply lvcBlock_inside in Er. lia.
  - destruct (lvcBlock _ _ _ _ _) as [r|] eqn:Er; [| discriminate].
    injection E as <-. apply lvcBlock_inside in Er. lia.
Qed.

End Extraction.

(** ** The processed rows *)

Section Rows.

Context {num : Type} `{JSNumber num}.
Variable Math_exp : num -> num.

Local Open Scope js_scope.

Lemma length_range (lo hi : Z) : length (range lo hi) = Z.to_nat (hi - lo).
Proof. unfold range. rewrite length_map, length_seq. reflexivity. Qed.

Lemma Param_eqb_eq (p q : Param) : Param_eqb p q = true <-> p = q.
Proof. destruct p, q; simpl; split; intros E; congruence. Qed.

(** The value [standardizeParam] stores for a normalized value. *)
Definition standardized (stats : GroupStats num) (v : num) : num :=
  (v - mean stats) / stdDev stats.

Lemma normalized_standardizeParam (stats : GroupStats num) (row : Row num)
    (q : Param) :
  normalized (standardizeParam stats row q) = normalized row /\
  row_cycleNumber (standardizeParam stats row q) = row_cycleNumber row.
Proof.
  unfold standardizeParam. destruct (normalized row q); split; reflexivity.
Qed.

Lemma zscore_standardizeParam (stats : GroupStats num) (row : Row num)
    (q p : Param) :
  zscore (standardizeParam stats row q) p =
  if Param_eqb p q then
    match normalized row p with
    | Some v => Some (standardized stats v)
    | None => zscore row p
    end
  else zscore row p.
Proof.
  unfold standardizeParam.
  destruct (Param_eqb p q) eqn:E.
  - apply Param_eqb_eq in E. subst q.
    destruct (normalized row p); simpl.
    + assert (E : Param_eqb p p = true) by (apply Param_eqb_eq; reflexivity).
      rewrite E. reflexivity.
    + reflexivity.
  - destruct (normalized row q); simpl; [rewrite E|]; reflexivity.
Qed.

Lemma fold_standardizeParam (stats : GroupStats num) (names : list Param) :
  forall (row : Row num),
    normalized (fold_left (standardizeParam stats) names row) = normalized row /\
    row_cycleNumber (fold_left (standardizeParam stats) names row)
    = row_cycleNumber row /\
    forall p,
      zscore (fold_left (standardizeParam stats) names row) p =
      if existsb (Param_eqb p) names then
        match normalized row p with
        | Some v => Some (standardized stats v)
        | None => zscore row p
        end
      else zscore row p.
Proof.
  induction names as [|q names IH]; intros row; simpl.
  - repeat split.
  - destruct (IH (standardizeParam stats row q)) as (Hn & Hc & Hz).
    destruct (normalized_standardizeParam stats row q) as (Hn' & Hc').
    rewrite Hn, Hc, Hn', Hc'. repeat split. intros p.
    rewrite Hz, Hn', zscore_standardizeParam.
    destruct (Param_eqb p q), (existsb (Param_eqb p) names),
      (normalized row p); reflexivity.
Qed.

(** What [standardizeRow] leaves in a row: the normalized values are kept,
    and each z-score is the standardized normalized value of its group, or
    what it was when that value is null. *)
Lemma standardizeRow_spec (areaStats distanceStats : GroupStats num)
    (row : Row num) :
  normalized (standardizeRow areaStats distanceStats row) = normalized row /\
  row_cycleNumber (standardizeRow areaStats distanceStats row)
  = row_cycleNumber row /\
  forall p,
    zscore (standardizeRow areaStats distanceStats row) p =
    match normalized row p with
    | Some v =>
        Some (standardized (if isAreaParam p then areaStats else distanceStats) v)
    | None => zscore row p
    end.
Proof.
  unfold standardizeRow.
  destruct (fold_standardizeParam areaStats areaParameterNames row)
    as (Hn1 & Hc1 & Hz1).
  destruct (fold_standardizeParam distanceStats distanceParameterNames
              (fold_left (standardizeParam areaStats) areaParameterNames row))
    as (Hn2 & Hc2 & Hz2).
  rewrite Hn2, Hc2, Hn1, Hc1. repeat split. intros p.
  rewrite Hz2, Hn1, Hz1.
  destruct p; simpl; destruct (normalized row _); reflexivity.
Qed.

(** The rows [normalizeRow] builds: no [cycleNumber], null z-scores, and
    either every normalized value null or every normalized area present. *)
Lemma normalizeRow_spec (referenceC2C4 : num) (sm : Smoothed num) (index : Z)
    (area : Area num) :
  let row := normalizeRow referenceC2C4 sm index area in
  row_cycleNumber row = None /\
  (forall p, zscore row p = None) /\
  ((forall p, normalized row p = None) \/
   (forall p, isAreaParam p = true -> normalized row p <> None)).
Proof.
  unfold normalizeRow.
  destruct (negb (truthy (c2c4LengthAt sm index area))
            || (ToNumber (c2c4LengthAt sm index area) <=? ofZ 0)); simpl.
  - repeat split. left. reflexivity.
  - repeat split. right. intros p Hp. rewrite Hp. discriminate.
Qed.

Lemma length_normalizeRows (originalAreas : list (Area num)) (referenceC2C4 : num) :
  length (normalizeRows Math_exp originalAreas referenceC2C4)
  = length originalAreas.
Proof.
  unfold normalizeRows. rewrite length_map, length_combine, length_range.
  unfold len. lia.
Qed.

(** Every derived row list has one row per frame. *)
Lemma length_processedData (originalAreas : list (Area num)) (referenceC2C4 : num) :
  length (processedData (processAdvancedData Math_exp originalAreas referenceC2C4))
  = length originalAreas.
Proof.
  unfold processAdvancedData, standardizeRows; simpl.
  rewrite length_map. apply length_normalizeRows.
Qed.

(** A row of the processed data: it carries no [cycleNumber], and where its
    normalized vestibule area is present so is its pharynx z-score. *)
Definition pipelineRow (row : Row num) : Prop :=
  row_cycleNumber row = None /\
  (normalized_vestibule row <> None -> zscore_pharynx row <> None).

Lemma processedData_pipelineRows (originalAreas : list (Area num))
    (referenceC2C4 : num) :
  Forall pipelineRow
    (processedData (processAdvancedData Math_exp originalAreas referenceC2C4)).
Proof.
  unfold processAdvancedData, standardizeRows, normalizeRows; simpl.
  rewrite Forall_forall. intros row Hrow.
  apply in_map_iff in Hrow. destruct Hrow as (row0 & <- & Hrow0).
  apply in_map_iff in Hrow0. destruct Hrow0 as ((index & area) & <- & _).
  simpl.
  match goal with
  | |- pipelineRow (standardizeRow ?a ?d (normalizeRow ?r ?sm ?i ?ar)) =>
      destruct (standardizeRow_spec a d (normalizeRow r sm i ar))
        as (Hn & Hc & Hz);
      destruct (normalizeRow_spec r sm i ar) as (Hc0 & _ & Hnorm)
  end.
  unfold pipelineRow, normalized_vestibule, zscore_pharynx.
  rewrite Hc, Hn, Hz. split; [assumption|]. intros Hv.
  destruct Hnorm as [Hnone | Hsome].
  - rewrite Hnone in Hv. contradiction.
  - specialize (Hsome Ppharynx eq_refl).
    destruct (normalized _ Ppharynx); [discriminate | contradiction].
Qed.


(** C2 (what the program does). Whatever the recording and the cycle, the
    rows of the processed data carry no [cycleNumber], so the range in which
    [extractCycleParameters] searches the landmarks (HYB, UESO, UESC, LVC,
    LVCoff) is never widened: the backward limit stays the cycle's own
    [startFrame] and the forward limit the block's own default, not the
    previous cycle's [endFrame] or the next cycle's [startFrame]. *)
Theorem search_range_is_never_widened
    (originalAreas : list (Area num)) (referenceC2C4 : num)
    (cycleNumber startFrame defaultEnd : Z) :
  widenedSearch
    (processedData (processAdvancedData Math_exp originalAreas referenceC2C4))
    cycleNumber startFrame defaultEnd
  = (startFrame, defaultEnd).
Proof.
  apply widenedSearch_without_cycle_rows.
  eapply Forall_impl; [| apply processedData_pipelineRows].
  intros row (Hc & _). exact Hc.
Qed.

(** *** Aspiration risk *)

(** The adjusted overlap/vestibule ratios of the frames of a cycle on which
    both normalized values are present. *)
Definition frameRatios (cycleData : list (Row num)) : list num :=
  flat_map
    (fun row =>
       match normalized_bolus_vestibule_overlap row, normalized_vestibule row with
       | Some overlap, Some vestibuleArea =>
           [fst (adjustOverlapOperands overlap vestibuleArea)
            / snd (adjustOverlapOperands overlap vestibuleArea)]
       | _, _ => []
       end)
    cycleData.

Lemma ratios_of_overlapDetails (startFrame : Z) (cycleData : list (Row num)) :
  forall idxs,
    length idxs = length cycleData ->
    map (@ratio num)
        (flat_map (fun ir => overlapDetailAt startFrame (fst ir) (snd ir))
                  (combine idxs cycleData))
    = frameRatios cycleData.
Proof.
  induction cycleData as [|row rows IH]; intros idxs Hlen.
  - destruct idxs; reflexivity.
  - destruct idxs as [|i idxs]; [discriminate|]. simpl.
    rewrite map_app, IH by (simpl in Hlen; lia). f_equal.
    unfold overlapDetailAt.
    destruct (normalized_bolus_vestibule_overlap row),
      (normalized_vestibule row); reflexivity.
Qed.

Lemma filterNotNull_In (A : Type) (f : A -> option num) (l : list A) (x : A) (v : num) :
  In x l -> f x = Some v -> In v (filterNotNull (map f l)).
Proof.
  intros Hx Hf. unfold filterNotNull. apply in_flat_map.
  exists (Some v). split; [| left; reflexivity].
  rewrite <- Hf. apply in_map. assumption.
Qed.

Lemma In_slice (A : Type) (l : list A) (s e : Z) (x : A) :
  In x (slice l s e) -> In x l.
Proof.
  unfold slice. intros Hx.
  rewrite <- (firstn_skipn (Z.to_nat (if s <? 0 then Z.max (len l + s) 0
                                      else Z.min s (len l))) l)%Z.
  apply in_or_app. right.
  match type of Hx with
  | In _ (firstn ?n ?m) => rewrite <- (firstn_skipn n m)
  end.
  apply in_or_app. left. assumption.
Qed.

Lemma positive_len (A : Type) (l : list A) (x : A) :
  In x l -> (0 <? len l)%Z = true.
Proof. destruct l; [contradiction|]. intros _. apply len_pos_cons. Qed.

(** The aspiration block, when some frame has both values. *)
Lemma aspirationBlock_with_frame (startFrame : Z) (cycleData : list (Row num))
    (row : Row num) :
  In row cycleData ->
  normalized_bolus_vestibule_overlap row <> None ->
  normalized_vestibule row <> None ->
  fst (aspirationBlock startFrame cycleData)
  = (Some (Math_max (frameRatios cycleData) >=? dec 2 1),
     Some (Math_max (frameRatios cycleData))).
Proof.
  intros Hin Ho Hv. unfold aspirationBlock.
  destruct (normalized_bolus_vestibule_overlap row) as [o|] eqn:Eo;
    [| contradiction].
  destruct (normalized_vestibule row) as [v|] eqn:Ev; [| contradiction].
  rewrite (positive_len _ _ (filterNotNull_In _ _ _ Hin Eo)).
  rewrite (positive_len _ _ (filterNotNull_In _ _ _ Hin Ev)). simpl.
  unfold overlapDetailsOf.
  rewrite ratios_of_overlapDetails by (rewrite length_range; unfold len; lia).
  assert (Hr : In (fst (adjustOverlapOperands o v) / snd (adjustOverlapOperands o v))
                  (frameRatios cycleData)).
  { unfold frameRatios. apply in_flat_map. exists row. split; [assumption|].
    rewrite Eo, Ev. left. reflexivity. }
  rewrite (positive_len _ _ Hr). reflexivity.
Qed.

(** C5. For a cycle of the processed data with at least one frame on which
    the normalized bolus-vestibule overlap and the normalized vestibule area
    are both present, [aspirationRisk] is the truth value of
    [maximum ratio >= 0.2], the maximum being taken over the adjusted
    overlap/vestibule ratios of those frames. *)
Theorem aspiration_risk_iff_max_ratio_reaches_threshold
    (originalAreas : list (Area num)) (referenceC2C4 : num)
    (startFrame endFrame cycleNumber : Z) (row : Row num) :
  let rows :=
    processedData (processAdvancedData Math_exp originalAreas referenceC2C4) in
  let cycleData := slice rows startFrame (endFrame + 1) in
  In row cycleData ->
  normalized_bolus_vestibule_overlap row <> None ->
  normalized_vestibule row <> None ->
  exists p,
    extractCycleParameters startFrame endFrame rows cycleNumber = Parameters p /\
    maxOverlapRatio p = Some (Math_max (frameRatios cycleData)) /\
    aspirationRisk p = Some (Math_max (frameRatios cycleData) >=? dec 2 1).
Proof.
  intros rows cycleData Hin Ho Hv.
  assert (Hp : pipelineRow row).
  { pose proof (processedData_pipelineRows originalAreas referenceC2C4) as Hall.
    rewrite Forall_forall in Hall. apply Hall.
    eapply In_slice. exact Hin. }
  destruct Hp as (_ & Hz). specialize (Hz Hv).
  destruct (zscore_pharynx row) as [z|] eqn:Ez; [| contradiction].
  assert (Hne : pharynxSamples rows startFrame endFrame <> []).
  { intros E. pose proof (filterNotNull_In _ _ _ Hin Ez) as Hz'.
    unfold pharynxSamples in E. fold cycleData in E. rewrite E in Hz'.
    contradiction. }
  destruct (pharynx_sample_gives_parameters startFrame endFrame rows
              cycleNumber Hne)
    as (p & Hpar & _ & _ & _ & _ & Hrisk & Hmax).
  exists p. split; [assumption|].
  fold cycleData in Hrisk, Hmax.
  rewrite (aspirationBlock_with_frame startFrame _ _ Hin Ho Hv) in Hrisk, Hmax.
  split; assumption.
Qed.

End Rows.

(** ** Grouped standardization *)

Section Pooling.

Context {num : Type} `{JSNumber num}.

(** The z-scores of one parameter over all rows are the standardized
    normalized values of that parameter, in the same order. *)
Lemma zscores_of_param (areaStats distanceStats : GroupStats num) (p : Param)
    (rows : list (Row num)) :
  Forall (fun row => forall q, zscore row q = None) rows ->
  filterNotNull (map (fun row => zscore row p)
                     (map (standardizeRow areaStats distanceStats) rows))
  = map (standardized (if isAreaParam p then areaStats else distanceStats))
        (filterNotNull (map (fun row => normalized row p) rows)).
Proof.
  induction 1 as [|row rows Hrow _ IH]; [reflexivity|].
  simpl. rewrite IH.
  destruct (standardizeRow_spec areaStats distanceStats row) as (_ & _ & Hz).
  rewrite Hz, Hrow. destruct (normalized row p); reflexivity.
Qed.

(** The pooled z-scores of a group are the standardized pooled values. *)
Lemma pooled_zscores (areaStats distanceStats : GroupStats num) (isArea : bool)
    (names : list Param) (rows : list (Row num)) :
  Forall (fun row => forall q, zscore row q = None) rows ->
  Forall (fun p => isAreaParam p = isArea) names ->
  groupValuesOf (@zscore num) names
                (map (standardizeRow areaStats distanceStats) rows)
  = map (standardized (if isArea then areaStats else distanceStats))
        (groupValuesOf (@normalized num) names rows).
Proof.
  intros Hrows Hnames. unfold groupValuesOf.
  induction Hnames as [|p names Hp _ IH]; [reflexivity|].
  simpl. rewrite map_app, IH, (zscores_of_param _ _ _ Hrows), Hp. reflexivity.
Qed.

End Pooling.

Section ExactArithmetic.

Local Open Scope R_scope.

Fixpoint Rsum (l : list R) : R :=
  match l with
  | [] => 0
  | x :: r => x + Rsum r
  end.

Lemma fold_left_Rsum (g : R -> R) (l : list R) :
  forall a, fold_left (fun sum val => sum + g val) l a = a + Rsum (map g l).
Proof.
  induction l as [|x l IH]; intros a; simpl.
  - lra.
  - rewrite IH. lra.
Qed.

Lemma sumOf_Rsum (l : list R) : sumOf l = Rsum l.
Proof.
  unfold sumOf. simpl.
  rewrite (fold_left_Rsum (fun v => v)), map_id. lra.
Qed.

Lemma varianceOf_Rsum (l : list R) (m : R) :
  varianceOf l m = Rsum (map (fun v => (v - m) * (v - m)) l) / IZR (len l).
Proof.
  unfold varianceOf. simpl.
  rewrite (fold_left_Rsum (fun v => (v - m) * (v - m))).
  f_equal. lra.
Qed.

Lemma Rsum_standardized (m s : R) (l : list R) :
  s <> 0 ->
  Rsum (map (fun v => (v - m) / s) l) = (Rsum l - INR (length l) * m) / s.
Proof.
  intros Hs. induction l as [|x l IH].
  - simpl. field. assumption.
  - cbn [map Rsum length]. rewrite IH, S_INR. field. assumption.
Qed.

Lemma Rsum_squares_standardized (m s : R) (l : list R) :
  s <> 0 ->
  Rsum (map (fun z => (z - 0) * (z - 0)) (map (fun v => (v - m) / s) l))
  = Rsum (map (fun v => (v - m) * (v - m)) l) / (s * s).
Proof.
  intros Hs. induction l as [|x l IH].
  - simpl. field. assumption.
  - cbn [map Rsum]. rewrite IH. field. assumption.
Qed.

Lemma Rsum_squares_nonneg (m : R) (l : list R) :
  0 <= Rsum (map (fun v => (v - m) * (v - m)) l).
Proof.
  induction l as [|x l IH]; simpl; [lra|].
  pose proof (Rle_0_sqr (x - m)) as Hx. unfold Rsqr in Hx. lra.
Qed.

Lemma Rsum_squares_pos (m : R) (l : list R) (v : R) :
  In v l -> v <> m -> 0 < Rsum (map (fun v => (v - m) * (v - m)) l).
Proof.
  induction l as [|x l IH]; intros Hin Hv; [contradiction|].
  simpl. destruct Hin as [-> | Hin].
  - pose proof (Rsum_squares_nonneg m l).
    assert (0 < (v - m) * (v - m)) by nra. lra.
  - specialize (IH Hin Hv).
    pose proof (Rle_0_sqr (x - m)) as Hx. unfold Rsqr in Hx. lra.
Qed.

Lemma len_INR (A : Type) (l : list A) : IZR (len l) = INR (length l).
Proof. unfold len. symmetry. apply INR_IZR_INZ. Qed.

(** Mean and standard deviation of the standardized values of a series that
    is not constant. *)
Lemma standardized_moments (l : list R) (v w : R) :
  In v l -> In w l -> v <> w ->
  let m := meanOf l in
  let s := sqrt (varianceOf l m) in
  0 < s /\
  meanOf (map (fun x => (x - m) / s) l) = 0 /\
  varianceOf (map (fun x => (x - m) / s) l) 0 = 1.
Proof.
  intros Hv Hw Hvw m s.
  assert (Hn : 0 < INR (length l)).
  { destruct l; [contradiction|]. apply lt_0_INR. simpl. lia. }
  assert (Hvar : 0 < varianceOf l m).
  { rewrite varianceOf_Rsum, len_INR.
    apply Rdiv_lt_0_compat; [| assumption].
    destruct (Req_dec v m) as [Evm | Nvm].
    - apply Rsum_squares_pos with (v := w); [assumption | congruence].
    - apply Rsum_squares_pos with (v := v); assumption. }
  assert (Hs : 0 < s) by (apply sqrt_lt_R0; assumption).
  assert (Hss : s * s = varianceOf l m) by (apply sqrt_sqrt; lra).
  split; [assumption|]. split.
  - unfold meanOf at 1. rewrite sumOf_Rsum. simpl.
    rewrite Rsum_standardized by lra.
    rewrite len_INR, length_map.
    unfold m, meanOf. rewrite sumOf_Rsum. simpl. rewrite len_INR.
    field. split; lra.
  - rewrite varianceOf_Rsum, Rsum_squares_standardized by lra.
    rewrite len_INR, length_map, Hss.
    rewrite varianceOf_Rsum, len_INR in *.
    set (q := Rsum (map (fun x => (x - m) * (x - m)) l)) in *.
    assert (Hq : 0 < q).
    { apply Rmult_lt_reg_r with (/ INR (length l)).
      - apply Rinv_0_lt_compat. assumption.
      - unfold Rdiv in Hvar. lra. }
    field. split; lra.
Qed.

(** C8 (amended). For each of the two groups whose pooled normalized values
    are not all equal, every z-score of the group is
    [(value - group_mean) / group_stddev], with the mean and the population
    standard deviation pooled over all frames and all parameters of the
    group, and the pooled z-scores have population mean 0 and population
    standard deviation 1. *)
Theorem standardized_group_has_mean_0_and_stddev_1
    (rows : list (Row R)) (names : list Param) (v w : R) :
  names = areaParameterNames \/ names = distanceParameterNames ->
  Forall (fun row => forall q, zscore row q = None) rows ->
  In v (groupValuesOf (@normalized R) names rows) ->
  In w (groupValuesOf (@normalized R) names rows) ->
  v <> w ->
  let values := groupValuesOf (@normalized R) names rows in
  let stats := calculateGroupZScore names rows in
  let zscores := groupValuesOf (@zscore R) names (standardizeRows rows) in
  mean stats = meanOf values /\
  stdDev stats = sqrt (varianceOf values (meanOf values)) /\
  zscores = map (fun x => (x - mean stats) / stdDev stats) values /\
  meanOf zscores = 0 /\
  sqrt (varianceOf zscores (meanOf zscores)) = 1.
Proof.
  intros Hnames Hrows Hv Hw Hvw values stats zscores.
  destruct (@standardized_moments values v w Hv Hw Hvw) as (Hs & Hmean & Hvar).
  assert (Hstats : mean stats = meanOf values /\
                   stdDev stats = sqrt (varianceOf values (meanOf values))).
  { unfold stats, calculateGroupZScore. fold values.
    destruct (len values =? 0)%Z eqn:E.
    - apply len_zero_nil in E. unfold values in E. rewrite E in Hv.
      contradiction.
    - cbn [mean stdDev nltb ofZ nsqrt R_JSNumber].
      split; [reflexivity|]. unfold Rltb.
      destruct (Rlt_dec 0 (sqrt (varianceOf values (meanOf values))));
        [reflexivity | contradiction]. }
  destruct Hstats as (Hm & Hsd).
  assert (Hz : zscores = map (fun x => (x - mean stats) / stdDev stats) values).
  { unfold zscores, standardizeRows.
    destruct Hnames as [-> | ->].
    - rewrite (@pooled_zscores _ _ _ _ true) by
        (assumption || (repeat constructor)). reflexivity.
    - rewrite (@pooled_zscores _ _ _ _ false) by
        (assumption || (repeat constructor)). reflexivity. }
  repeat split; try assumption.
  - rewrite Hz, Hm, Hsd. exact Hmean.
  - rewrite Hz, Hm, Hsd. rewrite Hmean, Hvar. apply sqrt_1.
Qed.

End ExactArithmetic.

(** * Recordings

    The functions evaluated on small recordings, in binary64 (and, for the
    grouped standardization, in exact arithmetic). *)

(** [Math.exp] at the three arguments a window of 5 needs. *)
Definition exp_table (x : float) : float :=
  if PrimFloat.eqb x 0%float then 1%float
  else if PrimFloat.eqb x (-0.125)%float then 0.8824969025845955%float
  else if PrimFloat.eqb x (-0.5)%float then 0.6065306597126334%float
  else PrimFloat.nan.

Definition noValues : Param -> option float := fun _ => None.

Definition withValue (p : Param) (v : float) (f : Param -> option float)
    : Param -> option float :=
  fun q => if Param_eqb q p then Some v else f q.

Definition rowOf (index : Z) (normalizedValues zscores : Param -> option float)
    : Row float :=
  {| frame := index;
     smoothed := fun _ => None;
     normalized := normalizedValues;
     zscore := zscores;
     row_cycleNumber := None;
     row_startFrame := None;
     row_endFrame := None |}.

Definition areaOf (overlap vestibuleArea : float)
    (hyoid ues c2c4 : option float) : Area float :=
  {| bolus_pharynx_overlap := Some 1%float;
     bolus_vestibule_overlap := Some overlap;
     pharynx := Some 4%float;
     vestibule := Some vestibuleArea;
     bolus := Some 2%float;
     hyoid_c4_distance := hyoid;
     ues_length := ues;
     c2c4_length := c2c4 |}.

(** The decimal literals of the program, as binary64 reads them. *)
Example literals_are_the_binary64_literals :
  (dec 2 2, dec 15 3, dec 95 2, dec 5 2, dec 1 1, dec 2 1, dec 15 2, dec 1 2)
  = (0.02, 0.015, 0.95, 0.05, 0.1, 0.2, 0.15, 0.01)%float.
Proof. vm_compute. reflexivity. Qed.

(** ** Short series *)

Lemma short_series_gives_no_cycle_witness :
  detectSwallowingCycles exp_table [Some 1; Some 2; Some 1]%float []
                         30%float 0.3%float 15 = EmptyArray /\
  cyclesOf (detectSwallowingCycles exp_table [Some 1; Some 2; Some 1]%float []
                                   30%float 0.3%float 15) = [].
Proof.
  apply short_series_gives_no_cycle. unfold len. simpl. lia.
Defined.

(** ** PCR *)

(** A cycle of three frames with pharynx z-scores -8, -2, -5. *)
Definition pharynxRows : list (Row float) :=
  [rowOf 0 noValues (withValue Ppharynx (-8)%float noValues);
   rowOf 1 noValues (withValue Ppharynx (-2)%float noValues);
   rowOf 2 noValues (withValue Ppharynx (-5)%float noValues)].

Lemma pcr_of_negative_percentiles_witness :
  percentile5 (pharynxSamples pharynxRows 0 2) = (-8)%float /\
  percentile95 (pharynxSamples pharynxRows 0 2) = (-2)%float /\
  exists p,
    extractCycleParameters 0 2 pharynxRows 1 = Parameters p /\
    PCR p = 4%float.
Proof.
  split; [vm_compute; reflexivity|]. split; [vm_compute; reflexivity|].
  destruct (@pcr_of_negative_percentiles float _ 0 2 pharynxRows 1)
    as (p & Hp & Hpcr).
  - vm_compute. discriminate.
  - vm_compute. reflexivity.
  - vm_compute. reflexivity.
  - exists p. split; [exact Hp|]. rewrite Hpcr. vm_compute. reflexivity.
Defined.

(** The absolute-value branch evaluated on the values -2 and -8 taken as the
    5th and the 95th percentile, an order that no sorted series gives them:
    the ratio is 2/8. *)
Example pcr_absolute_value_branch (pharynxZScore : list float) :
  let adjusted := adjustPercentiles (-8)%float (-2)%float pharynxZScore in
  adjusted = (8, 2)%float /\
  PrimFloat.div (snd adjusted) (fst adjusted) = 0.25%float.
Proof. split; vm_compute; reflexivity. Qed.

(** ** Aspiration risk *)

(** Three calibrated frames (reference 10, every C2-C4 length 10) whose
    vestibule area is 1 and whose overlaps are 0.1, [peakOverlap], 0.05. *)
Definition thresholdAreas (peakOverlap : float) : list (Area float) :=
  [areaOf 0.1%float 1%float (Some 3%float) (Some 2%float) (Some 10%float);
   areaOf peakOverlap 1%float (Some 5%float) (Some 4%float) (Some 10%float);
   areaOf 0.05%float 1%float (Some 4%float) (Some 3%float) (Some 10%float)].

Definition thresholdRows (peakOverlap : float) : list (Row float) :=
  processedData (processAdvancedData exp_table (thresholdAreas peakOverlap)
                                     10%float).

Lemma aspiration_risk_at_threshold_witness :
  exists p,
    extractCycleParameters 0 2 (thresholdRows 0.2%float) 1 = Parameters p /\
    maxOverlapRatio p = Some 0.2%float /\
    aspirationRisk p = Some true.
Proof.
  destruct (@aspiration_risk_iff_max_ratio_reaches_threshold float _ exp_table
              (thresholdAreas 0.2%float) 10%float 0 2 1
              (nth 1 (thresholdRows 0.2%float) (rowOf 0 noValues noValues)))
    as (p & Hp & Hmax & Hrisk).
  - vm_compute. right. left. reflexivity.
  - vm_compute. discriminate.
  - vm_compute. discriminate.
  - exists p. split; [exact Hp|]. split.
    + rewrite Hmax. vm_compute. reflexivity.
    + rewrite Hrisk. vm_compute. reflexivity.
Defined.

(** A maximum ratio of 0.199999 is below the threshold. *)
Example aspiration_risk_below_threshold :
  exists p,
    extractCycleParameters 0 2 (thresholdRows 0.199999%float) 1 = Parameters p /\
    maxOverlapRatio p = Some 0.199999%float /\
    aspirationRisk p = Some false.
Proof.
  eexists. split; [vm_compute; reflexivity|].
  split; vm_compute; reflexivity.
Qed.

(** ** Clamping *)

Lemma at_most_one_operand_clamped_witness :
  exists d,
    overlapDetailAt 0 0
      (rowOf 0 (withValue Pbolus_vestibule_overlap 0.005%float
                  (withValue Pvestibule 0.004%float noValues)) noValues)
    = [d] /\
    adjustedOverlap d = 0.005%float /\
    adjustedVestibule d = 0.01%float /\
    ratio d = 0.5%float.
Proof.
  destruct (@at_most_one_operand_clamped float _ 0 0
              (rowOf 0 (withValue Pbolus_vestibule_overlap 0.005%float
                          (withValue Pvestibule 0.004%float noValues)) noValues)
              0.005%float 0.004%float eq_refl eq_refl)
    as (d & Hd & Hratio & _ & Hsmall & _).
  destruct (Hsmall eq_refl) as (Hv & Ho).
  exists d. split; [exact Hd|]. split; [exact Ho|]. split; [exact Hv|].
  rewrite Hratio, Hv, Ho. vm_compute. reflexivity.
Defined.

(** ** The early return *)

(** A cycle of five frames with every series present, the pharynx z-score
    apart when [withPharynx] is false. *)
Definition landmarkFrame (withPharynx : bool) (index : Z)
    (hyoid ues vestibuleZ overlap : float) : Row float :=
  rowOf index
    (withValue Pbolus_vestibule_overlap overlap
       (withValue Pvestibule 1%float noValues))
    (withValue Phyoid_c4_distance hyoid
       (withValue Pues_length ues
          (withValue Pvestibule vestibuleZ
             (if withPharynx then withValue Ppharynx 1%float noValues
              else noValues)))).

Definition landmarkRows (withPharynx : bool) : list (Row float) :=
  [landmarkFrame withPharynx 0 1%float 0.5%float 2%float 0.1%float;
   landmarkFrame withPharynx 1 0.5%float 0.2%float 1%float 0.3%float;
   landmarkFrame withPharynx 2 2%float 1.5%float 0.5%float 0.1%float;
   landmarkFrame withPharynx 3 1%float 0.3%float 1.5%float 0.1%float;
   landmarkFrame withPharynx 4 1.5%float 0.6%float 2%float 0.05%float].

(** The landmarks and the risk flag of a returned object. *)
Definition landmarksOf (c : CycleParameters float)
    : option (option bool * option Z * option Z * option Z * option Z * option Z) :=
  match c with
  | PCRNullOnly => None
  | Parameters p =>
      Some (aspirationRisk p, HYB p, UESO p, UESC p, LVC p, LVCoff p)
  end.

(** Hand-built rows, which [processAdvancedData] never produces: the pharynx
    z-score is absent on every frame while every other series is present.
    There the early return of line 50 leaves the risk flag and the landmarks
    out, although the same frames with a pharynx z-score give all of them. *)
Example early_return_on_rows_without_pharynx_only :
  pharynxSamples (landmarkRows false) 0 4 = [] /\
  extractCycleParameters 0 4 (landmarkRows false) 1 = PCRNullOnly /\
  landmarksOf (extractCycleParameters 0 4 (landmarkRows false) 1) = None /\
  landmarksOf (extractCycleParameters 0 4 (landmarkRows true) 1)
  = Some (Some true, Some 1, Some 1, Some 3, Some 1, Some 2).
Proof. repeat split; vm_compute; reflexivity. Qed.

(** ** Series with absent samples *)

(** Three calibrated frames; the first has no hyoid-C4 distance. *)
Definition shiftedAreas : list (Area float) :=
  [areaOf 0.1%float 1%float None (Some 2%float) (Some 10%float);
   areaOf 0.1%float 1%float (Some 5%float) (Some 4%float) (Some 10%float);
   areaOf 0.1%float 1%float (Some 7%float) (Some 3%float) (Some 10%float)].

(** C3 (what the program does). The rows are one per frame, but the hyoid-C4
    series is smoothed after its absent samples are dropped and then read at
    the frame index: frame 0, which has no sample, gets the sample of
    frame 1, frame 1 gets that of frame 2, and frame 2 reads past the end
    (NaN); the NaN then spreads to every z-score of the distance group. *)
Theorem hyoid_series_is_shifted_by_absent_samples (Math_exp : float -> float) :
  let rows := processedData (processAdvancedData Math_exp shiftedAreas 10%float) in
  length rows = length shiftedAreas /\
  map (@hyoid_c4_distance float) shiftedAreas
  = [None; Some 5%float; Some 7%float] /\
  map (fun row => normalized row Phyoid_c4_distance) rows
  = [Some 5%float; Some 7%float; Some PrimFloat.nan] /\
  map (fun row => zscore row Phyoid_c4_distance) rows
  = [Some PrimFloat.nan; Some PrimFloat.nan; Some PrimFloat.nan] /\
  map (fun row => zscore row Pues_length) rows
  = [Some PrimFloat.nan; Some PrimFloat.nan; Some PrimFloat.nan].
Proof. repeat split; vm_compute; reflexivity. Qed.

(** Three frames with pharynx area 4; the first has no C2-C4 length, the
    others have 20 and 10; the reference is 10. *)
Definition uncalibratedAreas : list (Area float) :=
  [areaOf 0.1%float 1%float (Some 3%float) (Some 2%float) None;
   areaOf 0.1%float 1%float (Some 5%float) (Some 4%float) (Some 20%float);
   areaOf 0.1%float 1%float (Some 7%float) (Some 3%float) (Some 10%float)].

(** C7 (what the program does). The C2-C4 series is smoothed after its absent
    samples are dropped and then read at the frame index: frame 0, which has
    no calibration length, is normalized with the length of frame 1
    (4 * 10/20 = 2, instead of absent), and frame 1, whose length is 20, with
    the length of frame 2 (4 * 10/10 = 4, instead of 2); likewise for the
    hyoid-C4 distance (3 * (10/20)^2 and 5 * (10/10)^2). *)
Theorem calibration_series_is_shifted_by_absent_samples (Math_exp : float -> float) :
  let rows :=
    processedData (processAdvancedData Math_exp uncalibratedAreas 10%float) in
  map (@c2c4_length float) uncalibratedAreas
  = [None; Some 20%float; Some 10%float] /\
  map (@pharynx float) uncalibratedAreas
  = [Some 4%float; Some 4%float; Some 4%float] /\
  map (fun row => normalized row Ppharynx) rows
  = [Some 2%float; Some 4%float; Some 4%float] /\
  map (fun row => normalized row Phyoid_c4_distance) rows
  = [Some 0.75%float; Some 5%float; Some 7%float].
Proof. repeat split; vm_compute; reflexivity. Qed.

(** ** Grouped standardization *)

(** A normalized row whose area measurements are all [areaValue] and whose
    distance measurements are all [distanceValue]; z-scores still null. *)
Definition realRow (areaValue distanceValue : R) : Row R :=
  {| frame := 0;
     smoothed := fun _ => None;
     normalized := fun p =>
       if isAreaParam p then Some areaValue else Some distanceValue;
     zscore := fun _ => None;
     row_cycleNumber := None;
     row_startFrame := None;
     row_endFrame := None |}.

(** A recording whose groups are not constant, and one whose groups are. *)
Definition variedRows : list (Row R) := [realRow 1 10; realRow 3 20].
Definition constantRows : list (Row R) := [realRow 3 5; realRow 3 5].

Lemma standardized_group_witness :
  let zscores :=
    groupValuesOf (@zscore R) areaParameterNames (standardizeRows variedRows) in
  meanOf zscores = 0%R /\ sqrt (varianceOf zscores (meanOf zscores)) = 1%R.
Proof.
  destruct (@standardized_group_has_mean_0_and_stddev_1 variedRows
              areaParameterNames 1%R 3%R)
    as (_ & _ & _ & Hmean & Hsd).
  - left. reflexivity.
  - repeat constructor.
  - simpl. left. reflexivity.
  - simpl. right. left. reflexivity.
  - lra.
  - split; assumption.
Defined.

Definition constantValues : list R := [3; 3; 3; 3; 3; 3; 3; 3; 3; 3]%R.
Definition zeroValues : list R := [0; 0; 0; 0; 0; 0; 0; 0; 0; 0]%R.

Lemma constant_group_values :
  groupValuesOf (@normalized R) areaParameterNames constantRows
  = constantValues.
Proof. reflexivity. Qed.

Lemma constant_group_stats :
  calculateGroupZScore areaParameterNames constantRows
  = {| mean := 3%R; stdDev := 1%R |}.
Proof.
  unfold calculateGroupZScore. rewrite constant_group_values.
  change (len constantValues =? 0) with false. cbv iota.
  assert (Em : meanOf constantValues = 3%R)
    by (unfold meanOf, sumOf, len, constantValues; simpl; lra).
  rewrite Em.
  assert (Ev : varianceOf constantValues 3%R = 0%R)
    by (unfold varianceOf, len, constantValues; simpl; lra).
  rewrite Ev. cbn [nsqrt nltb ofZ R_JSNumber]. rewrite sqrt_0.
  unfold Rltb. destruct (Rlt_dec 0 0); [lra | reflexivity].
Qed.

(** C8 (counterexample). On a recording whose area measurements are all
    equal the standard deviation of the area group is 0, the divisor is
    floored to 1, every z-score of the group is 0, and their pooled standard
    deviation is 0, not 1. *)
Lemma constant_group_has_stddev_0 :
  let zscores :=
    groupValuesOf (@zscore R) areaParameterNames (standardizeRows constantRows) in
  zscores = zeroValues /\
  meanOf zscores = 0%R /\
  sqrt (varianceOf zscores (meanOf zscores)) = 0%R /\
  sqrt (varianceOf zscores (meanOf zscores)) <> 1%R.
Proof.
  intros zscores.
  assert (Hz : zscores = zeroValues).
  { unfold zscores, standardizeRows.
    rewrite (@pooled_zscores _ _ _ _ true) by (repeat constructor).
    rewrite constant_group_values, constant_group_stats.
    unfold standardized, constantValues, zeroValues. simpl.
    repeat f_equal; lra. }
  assert (Em : meanOf zscores = 0%R).
  { rewrite Hz. unfold meanOf, sumOf, len, zeroValues. simpl. lra. }
  assert (Hsd : sqrt (varianceOf zscores (meanOf zscores)) = 0%R).
  { rewrite Em, Hz.
    assert (Ev : varianceOf zeroValues 0%R = 0%R)
      by (unfold varianceOf, len, zeroValues; simpl; lra).
    rewrite Ev. apply sqrt_0. }
  split; [assumption|]. split; [assumption|]. split; [assumption|].
  rewrite Hsd. lra.
Qed.

(** The same in binary64, through [processAdvancedData]: two frames whose
    five area measurements are all 3. *)
Definition constantAreas : list (Area float) :=
  let a := {| bolus_pharynx_overlap := Some 3%float;
              bolus_vestibule_overlap := Some 3%float;
              pharynx := Some 3%float;
              vestibule := Some 3%float;
              bolus := Some 3%float;
              hyoid_c4_distance := Some 5%float;
              ues_length := Some 7%float;
              c2c4_length := Some 10%float |} in
  [a; a].

Example constant_group_binary64 (Math_exp : float -> float) :
  let rows :=
    processedData (processAdvancedData Math_exp constantAreas 10%float) in
  let zscores := groupValuesOf (@zscore float) areaParameterNames rows in
  zscores = [0; 0; 0; 0; 0; 0; 0; 0; 0; 0]%float /\
  PrimFloat.sqrt (varianceOf zscores (meanOf zscores)) = 0%float.
Proof. split; vm_compute; reflexivity. Qed.

(** ** Whole recordings *)

(** A driver series of 60 frames with one Gaussian bump of amplitude 2
    centred on frame 30 (standard deviation 5, three decimals). *)
Definition bump : list float :=
  [0.000; 0.000; 0.000; 0.000; 0.000; 0.000; 0.000; 0.000; 0.000; 0.000;
   0.001; 0.001; 0.003; 0.006; 0.012; 0.022; 0.040; 0.068; 0.112; 0.178;
   0.271; 0.396; 0.556; 0.751; 0.974; 1.213; 1.452; 1.671; 1.846; 1.960;
   2.000; 1.960; 1.846; 1.671; 1.452; 1.213; 0.974; 0.751; 0.556; 0.396;
   0.271; 0.178; 0.112; 0.068; 0.040; 0.022; 0.012; 0.006; 0.003; 0.001;
   0.001; 0.000; 0.000; 0.000; 0.000; 0.000; 0.000; 0.000; 0.000; 0.000]%float.

(** [(cycleNumber, startFrame, peakFrame, endFrame)] of a cycle. *)
Definition boundaries (c : Cycle float) : Z * Z * Z * Z :=
  (cycleNumber c, startFrame c, peakFrame c, endFrame c).

(** With the default thresholds (0.3 and 15) the bump is one cycle, peaking
    on frame 30. *)
Example one_bump_is_one_cycle :
  map boundaries
      (cyclesOf (detectSwallowingCycles exp_table (map Some bump) []
                                        30%float 0.3%float 15))
  = [(1, 15, 30, 53)].
Proof. vm_compute. reflexivity. Qed.

(** Two bumps, centred on frames 20 and 60 (amplitudes 2 and 1.5, standard
    deviation 4). *)
Definition twoBumps : list float :=
  [0.000; 0.000; 0.000; 0.000; 0.001; 0.002; 0.004; 0.010; 0.022; 0.046;
   0.088; 0.159; 0.271; 0.433; 0.649; 0.916; 1.213; 1.510; 1.765; 1.938;
   2.000; 1.938; 1.765; 1.510; 1.213; 0.916; 0.649; 0.433; 0.271; 0.159;
   0.088; 0.046; 0.022; 0.010; 0.004; 0.002; 0.001; 0.000; 0.000; 0.000;
   0.000; 0.000; 0.000; 0.000; 0.001; 0.001; 0.003; 0.008; 0.017; 0.034;
   0.066; 0.119; 0.203; 0.324; 0.487; 0.687; 0.910; 1.132; 1.324; 1.454;
   1.500; 1.454; 1.324; 1.132; 0.910; 0.687; 0.487; 0.324; 0.203; 0.119;
   0.066; 0.034; 0.017; 0.008; 0.003; 0.001; 0.001; 0.000; 0.000; 0.000;
   0.000; 0.000; 0.000; 0.000; 0.000; 0.000; 0.000; 0.000; 0.000; 0.000]%float.

(** A recording of 90 frames whose measurements follow the two bumps, every
    C2-C4 length being the reference 10. *)
Definition recordingAreas : list (Area float) :=
  map (fun v : float =>
         {| bolus_pharynx_overlap := Some (PrimFloat.mul 4 v);
            bolus_vestibule_overlap := Some (PrimFloat.mul 0.1 v);
            pharynx := Some (PrimFloat.sub 3 v);
            vestibule := Some (PrimFloat.sub 2 (PrimFloat.mul 0.5 v));
            bolus := Some (PrimFloat.add 1 v);
            hyoid_c4_distance := Some (PrimFloat.add 2 (PrimFloat.mul 0.5 v));
            ues_length := Some (PrimFloat.add 1 (PrimFloat.mul 0.25 v));
            c2c4_length := Some 10 |}%float)
      twoBumps.

(** The analysis as [handleAdvancedAnalysis] runs it (lines 1205-1214). *)
Definition recordingAnalysis : Detection float :=
  let processed := processAdvancedData exp_table recordingAreas 10%float in
  detectSwallowingCycles exp_table
    (map (@zscore_bolus_pharynx_overlap float) (processedData processed))
    (processedData processed) 30%float 0.3%float 15.

(** Two cycles, frames 6-40 and 46-81.  Every landmark of the second cycle
    (HYB, UESO, UESC, LVC, LVCoff) lies in 46-81; its LVC is its own start
    frame, where the backward search stops, six frames after the end of the
    first cycle. *)
Example two_swallows_end_to_end :
  map (fun c => (boundaries c, landmarksOf (parameters c)))
      (cyclesOf recordingAnalysis)
  = [((1, 6, 20, 40),
      Some (Some false, Some 19, Some 19, Some 39, Some 6, Some 20));
     ((2, 46, 60, 81),
      Some (Some false, Some 59, Some 58, Some 79, Some 46, Some 60))].
Proof. vm_compute. reflexivity. Qed.

(** * Further properties

    Properties of the same functions that the code shows beyond the ones
    above, and of the code around them. *)

(** ** Lists of indices *)

Lemma range_In (lo hi i : Z) : lo <= i < hi -> In i (range lo hi).
Proof.
  intros Hi. unfold range. apply in_map_iff.
  exists (Z.to_nat (i - lo)). split; [lia|]. apply in_seq. lia.
Qed.

Lemma range_cons (lo hi : Z) :
  lo < hi -> range lo hi = lo :: range (lo + 1) hi.
Proof.
  intros Hlt. unfold range.
  replace (Z.to_nat (hi - lo)) with (S (Z.to_nat (hi - (lo + 1)))) by lia.
  simpl. f_equal; [lia|].
  rewrite <- seq_shift, map_map. apply map_ext. intros k. lia.
Qed.

Lemma range_nil (lo hi : Z) : hi <= lo -> range lo hi = [].
Proof.
  intros Hle. unfold range.
  replace (Z.to_nat (hi - lo)) with 0%nat by lia. reflexivity.
Qed.

Lemma ForallOrdPairs_map (A B : Type) (R : A -> A -> Prop) (S : B -> B -> Prop)
    (f : A -> B) (l : list A) :
  (forall x y, R x y -> S (f x) (f y)) ->
  ForallOrdPairs R l -> ForallOrdPairs S (map f l).
Proof.
  intros Hf. induction 1 as [|x l Hx _ IH]; simpl; constructor.
  - rewrite Forall_forall in *. intros y Hy.
    apply in_map_iff in Hy. destruct Hy as (z & <- & Hz). auto.
  - assumption.
Qed.

Lemma ForallOrdPairs_filter (A : Type) (R : A -> A -> Prop) (p : A -> bool)
    (l : list A) :
  ForallOrdPairs R l -> ForallOrdPairs R (filter p l).
Proof.
  induction 1 as [|x l Hx _ IH]; simpl; [constructor|].
  destruct (p x); [| assumption]. constructor; [| assumption].
  rewrite Forall_forall in *. intros y Hy.
  apply filter_In in Hy. apply Hx, Hy.
Qed.

Lemma ForallOrdPairs_seq (a n : nat) : ForallOrdPairs lt (seq a n).
Proof.
  revert a. induction n as [|n IH]; intros a; simpl; constructor.
  - rewrite Forall_forall. intros y Hy. apply in_seq in Hy. lia.
  - apply IH.
Qed.

Lemma ForallOrdPairs_range (lo hi : Z) : ForallOrdPairs Z.lt (range lo hi).
Proof.
  unfold range. apply ForallOrdPairs_map with (R := lt).
  - intros x y Hxy. lia.
  - apply ForallOrdPairs_seq.
Qed.

Lemma ForallOrdPairs_combine (A B : Type) (R : A -> A -> Prop)
    (l : list A) (m : list B) :
  ForallOrdPairs R l ->
  ForallOrdPairs (fun a b => R (fst a) (fst b)) (combine l m).
Proof.
  intros Hl. revert m. induction Hl as [|x l Hx _ IH]; intros m.
  - constructor.
  - destruct m as [|y m]; simpl; constructor.
    + rewrite Forall_forall in *. intros (a, b) Hab. simpl.
      apply Hx. eapply in_combine_l. exact Hab.
    + apply IH.
Qed.

Lemma In_combine_range (A : Type) (l : list A) :
  forall lo i x,
    In (i, x) (combine (range lo (lo + len l)) l) ->
    lo <= i /\ nth_error l (Z.to_nat (i - lo)) = Some x.
Proof.
  induction l as [|y l IH]; intros lo i x Hin.
  - rewrite combine_nil in Hin. contradiction.
  - rewrite range_cons in Hin by (unfold len; simpl length; lia).
    simpl in Hin. destruct Hin as [E | Hin].
    + injection E as <- <-. split; [lia|].
      replace (lo - lo) with 0 by lia. reflexivity.
    + replace (lo + len (y :: l)) with (lo + 1 + len l) in Hin
        by (unfold len; simpl length; lia).
      apply IH in Hin. destruct Hin as (Hlo & Hnth). split; [lia|].
      replace (Z.to_nat (i - lo)) with (S (Z.to_nat (i - (lo + 1)))) by lia.
      exact Hnth.
Qed.

(** ** Smoothing and peaks *)

Section Peaks.

Context {num : Type} `{JSNumber num}.
Variable Math_exp : num -> num.

Local Open Scope js_scope.

(** The filtered peaks and the smoothed series a caller reads off the
    result; the bare empty array has neither. *)
Definition peaksOf (d : Detection num) : list Z :=
  match d with
  | EmptyArray => []
  | Analysis a => peaks a
  end.

Definition smoothedOf (d : Detection num) : list (option num) :=
  match d with
  | EmptyArray => []
  | Analysis a => smoothedData a
  end.

Lemma length_savitzkyGolayFilter (data : list (option num)) (windowSize : Z) :
  length (savitzkyGolayFilter Math_exp data windowSize) = length data.
Proof.
  unfold savitzkyGolayFilter. destruct (len data <? windowSize)%Z.
  - reflexivity.
  - rewrite length_map, length_range. unfold len. lia.
Qed.

(** X1. The filter returns a series of the same length; a series shorter
    than the window is returned as it is (nulls included); otherwise every
    element of the result is a number, also where the input is null. *)
Theorem smoothing_keeps_length_and_fills_nulls
    (data : list (option num)) (windowSize : Z) :
  let out := savitzkyGolayFilter Math_exp data windowSize in
  length out = length data /\
  ((len data < windowSize)%Z -> out = data) /\
  ((windowSize <= len data)%Z -> Forall (fun v => v <> None) out).
Proof.
  intros out. split; [apply length_savitzkyGolayFilter|].
  unfold out, savitzkyGolayFilter. split; intros Hw.
  - apply Z.ltb_lt in Hw. rewrite Hw. reflexivity.
  - apply Z.ltb_ge in Hw. rewrite Hw.
    rewrite Forall_forall. intros v Hv.
    apply in_map_iff in Hv. destruct Hv as (i & <- & _). discriminate.
Qed.

(** *** The peak filter (lines 707-735) *)

(** Two peaks in order and at least [minCycleLength] frames apart. *)
Definition apart (minCycleLength p q : Z) : Prop :=
  (p < q /\ minCycleLength <= q - p)%Z.

Lemma scanFiltered_spec (smoothedData : list (option num))
    (minCycleLength currentPeak : Z) (filteredPeaks : list Z) :
  ForallOrdPairs (apart minCycleLength) filteredPeaks ->
  Forall (fun p => p < currentPeak)%Z filteredPeaks ->
  let r := scanFiltered smoothedData minCycleLength currentPeak filteredPeaks in
  incl (fst r) filteredPeaks /\
  ForallOrdPairs (apart minCycleLength) (fst r) /\
  (snd r = true -> Forall (fun p => apart minCycleLength p currentPeak) (fst r)).
Proof.
  induction 1 as [|p rest Hp Hrest IH]; intros Hlt; simpl.
  - repeat split; [apply incl_refl | constructor | constructor].
  - inversion Hlt as [|? ? Hpc Hrestc]; subst.
    destruct (Z.abs (currentPeak - p) <? minCycleLength)%Z eqn:Enear.
    + apply Z.ltb_lt in Enear.
      destruct (valAt smoothedData currentPeak >? valAt smoothedData p); simpl.
      * repeat split; [apply incl_tl, incl_refl | assumption |].
        intros _. rewrite Forall_forall in *. intros q Hq.
        specialize (Hp q Hq). specialize (Hrestc q Hq).
        unfold apart in *. lia.
      * repeat split; [apply incl_refl | constructor; assumption |].
        discriminate.
    + apply Z.ltb_ge in Enear.
      destruct (IH Hrestc) as (Hincl & Hpairs & Hsig). simpl.
      repeat split.
      * intros q [-> | Hq]; [left; reflexivity | right; apply Hincl, Hq].
      * constructor; [| assumption].
        rewrite Forall_forall in *. intros q Hq. apply Hp, Hincl, Hq.
      * intros Hs. constructor; [unfold apart; lia | apply Hsig, Hs].
Qed.

Lemma filterPeaks_spec (smoothedData : list (option num)) (minCycleLength : Z)
    (candidates : list Z) :
  ForallOrdPairs Z.lt candidates ->
  forall filteredPeaks,
    ForallOrdPairs (apart minCycleLength) filteredPeaks ->
    (forall p c, In p filteredPeaks -> In c candidates -> p < c)%Z ->
    let out :=
      fold_left
        (fun filteredPeaks currentPeak =>
           let r := scanFiltered smoothedData minCycleLength currentPeak
                                 filteredPeaks in
           if snd r then fst r ++ [currentPeak] else fst r)
        candidates filteredPeaks in
    ForallOrdPairs (apart minCycleLength) out /\
    incl out (filteredPeaks ++ candidates).
Proof.
  induction 1 as [|c cs Hc Hcs IH]; intros fp Hfp Hbelow; simpl.
  - split; [assumption|]. rewrite app_nil_r. apply incl_refl.
  - assert (Hlt : Forall (fun p => p < c)%Z fp).
    { rewrite Forall_forall. intros p Hp. apply Hbelow; [assumption | left; reflexivity]. }
    destruct (@scanFiltered_spec smoothedData minCycleLength c fp Hfp Hlt)
      as (Hincl & Hpairs & Hsig).
    set (r := scanFiltered smoothedData minCycleLength c fp) in *.
    set (fp' := if snd r then fst r ++ [c] else fst r).
    assert (Hfp' : ForallOrdPairs (apart minCycleLength) fp').
    { unfold fp'. destruct (snd r); [| assumption].
      apply ForallOrdPairs_snoc; [assumption | apply Hsig; reflexivity]. }
    assert (Hincl' : incl fp' (fp ++ [c])).
    { unfold fp'. intros q Hq. apply in_or_app.
      destruct (snd r).
      - apply in_app_or in Hq. destruct Hq as [Hq | Hq]; [left; apply Hincl, Hq | right; exact Hq].
      - left. apply Hincl, Hq. }
    assert (Hbelow' : (forall p c', In p fp' -> In c' cs -> p < c')%Z).
    { intros p c' Hp Hc'. apply Hincl' in Hp. apply in_app_or in Hp.
      destruct Hp as [Hp | [<- | []]].
      - apply Hbelow; [assumption | right; assumption].
      - rewrite Forall_forall in Hc. apply Hc, Hc'. }
    destruct (IH fp' Hfp' Hbelow') as (Hout & Hsub).
    split; [exact Hout|].
    intros q Hq. apply Hsub in Hq. apply in_app_or in Hq.
    apply in_or_app. destruct Hq as [Hq | Hq].
    + apply Hincl' in Hq. apply in_app_or in Hq.
      destruct Hq as [Hq | [<- | []]]; [left; assumption | right; left; reflexivity].
    + right. right. assumption.
Qed.

Lemma detectPeaks_sorted (smoothedData : list (option num)) (minPeakHeight : num) :
  ForallOrdPairs Z.lt (detectPeaks smoothedData minPeakHeight).
Proof.
  unfold detectPeaks. apply ForallOrdPairs_filter, ForallOrdPairs_range.
Qed.

Lemma filterPeaks_separated (smoothedData : list (option num))
    (minPeakHeight : num) (minCycleLength : Z) :
  let out := filterPeaks smoothedData minCycleLength
                         (detectPeaks smoothedData minPeakHeight) in
  ForallOrdPairs (apart minCycleLength) out /\
  incl out (detectPeaks smoothedData minPeakHeight).
Proof.
  unfold filterPeaks.
  destruct (@filterPeaks_spec smoothedData minCycleLength
              (detectPeaks smoothedData minPeakHeight)
              (detectPeaks_sorted smoothedData minPeakHeight) []
              (FOP_nil _)) as (Hout & Hincl).
  - intros p c [].
  - split; assumption.
Qed.

(** What [peaksOf] and [smoothedOf] are on a series that is long enough. *)
Lemma detection_fields (zscoreData : list (option num))
    (processedData : list (Row num)) (fps minPeakHeight : num)
    (minCycleLength : Z) :
  let d := detectSwallowingCycles Math_exp zscoreData processedData fps
                                  minPeakHeight minCycleLength in
  (d = EmptyArray /\ peaksOf d = [] /\ cyclesOf d = []) \/
  (smoothedOf d = savitzkyGolayFilter Math_exp zscoreData 5 /\
   peaksOf d = filterPeaks (smoothedOf d) minCycleLength
                           (detectPeaks (smoothedOf d) minPeakHeight) /\
   cyclesOf d =
   fst (fold_left
          (cycleStep (smoothedOf d) (firstDifferences (smoothedOf d))
                     processedData fps)
          (combine (range 0 (len (peaksOf d))) (peaksOf d)) ([], (-1)%Z))).
Proof.
  unfold detectSwallowingCycles.
  destruct (len zscoreData <? minCycleLength)%Z.
  - left. repeat split.
  - right. repeat split.
Qed.

(** X2. The filtered peaks of an analysis are in increasing order and any
    two of them are at least [minCycleLength] frames apart: of two candidate
    peaks closer than that, at most one is kept. *)
Theorem filtered_peaks_are_separated
    (zscoreData : list (option num)) (processedData : list (Row num))
    (fps minPeakHeight : num) (minCycleLength : Z) (i j : nat) (p q : Z) :
  let ps := peaksOf (detectSwallowingCycles Math_exp zscoreData processedData
                                            fps minPeakHeight minCycleLength) in
  (i < j)%nat -> nth_error ps i = Some p -> nth_error ps j = Some q ->
  (p < q /\ minCycleLength <= q - p)%Z.
Proof.
  intros ps Hij Hi Hj.
  assert (Hps : ForallOrdPairs (apart minCycleLength) ps).
  { unfold ps.
    destruct (detection_fields zscoreData processedData fps minPeakHeight
                               minCycleLength) as [(_ & -> & _) | (_ & -> & _)].
    - constructor.
    - apply filterPeaks_separated. }
  exact (ForallOrdPairs_nth Hps Hij Hi Hj).
Qed.

Lemma filtered_peak_is_candidate (zscoreData : list (option num))
    (processedData : list (Row num)) (fps minPeakHeight : num)
    (minCycleLength : Z) (p : Z) :
  let d := detectSwallowingCycles Math_exp zscoreData processedData
                                  fps minPeakHeight minCycleLength in
  In p (peaksOf d) ->
  len (smoothedOf d) = len zscoreData /\
  In p (detectPeaks (smoothedOf d) minPeakHeight) /\
  (3 <= p <= len zscoreData - 4)%Z.
Proof.
  intros d Hp.
  destruct (detection_fields zscoreData processedData fps minPeakHeight
                             minCycleLength) as [(_ & E & _) | (Es & Ep & _)];
    fold d in E || fold d in Es, Ep.
  - rewrite E in Hp. contradiction.
  - assert (Hlen : len (smoothedOf d) = len zscoreData).
    { rewrite Es. unfold len. rewrite length_savitzkyGolayFilter. reflexivity. }
    rewrite Ep in Hp. apply filterPeaks_separated in Hp.
    repeat split; try assumption;
      unfold detectPeaks in Hp; apply filter_In in Hp;
      destruct Hp as (Hrange & _); apply In_range in Hrange;
      unfold windowSize in *; lia.
Qed.

(** X3. Every filtered peak of an analysis lies at least [windowSize = 3]
    frames inside the series, its smoothed value exceeds [minPeakHeight], and
    no other frame within 3 frames of it has a smoothed value [>=] its own. *)
Theorem filtered_peaks_are_significant_local_maxima
    (zscoreData : list (option num)) (processedData : list (Row num))
    (fps minPeakHeight : num) (minCycleLength : Z) (p : Z) :
  let d := detectSwallowingCycles Math_exp zscoreData processedData
                                  fps minPeakHeight minCycleLength in
  In p (peaksOf d) ->
  (3 <= p <= len zscoreData - 4)%Z /\
  (valAt (smoothedOf d) p >? minPeakHeight) = true /\
  forall j, (p - 3 <= j <= p + 3)%Z -> j <> p ->
            (valAt (smoothedOf d) j >=? valAt (smoothedOf d) p) = false.
Proof.
  intros d Hp.
  destruct (detection_fields zscoreData processedData fps minPeakHeight
                             minCycleLength) as [(_ & E & _) | (Es & Ep & _)];
    fold d in E || fold d in Es, Ep.
  - rewrite E in Hp. contradiction.
  - rewrite Ep in Hp. apply filterPeaks_separated in Hp.
    unfold detectPeaks in Hp. apply filter_In in Hp.
    destruct Hp as (Hrange & Htest). apply In_range in Hrange.
    apply andb_true_iff in Htest. destruct Htest as (Hpeak & Hheight).
    assert (Hlen : len (smoothedOf d) = len zscoreData).
    { rewrite Es. unfold len. rewrite length_savitzkyGolayFilter. reflexivity. }
    unfold windowSize in *. rewrite Hlen in Hrange.
    split; [lia|]. split; [assumption|].
    intros j Hj Hne. unfold isPeak in Hpeak.
    rewrite forallb_forall in Hpeak.
    assert (Hin : In j (range (p - windowSize) (p + windowSize + 1)))
      by (apply range_In; unfold windowSize; lia).
    specialize (Hpeak j Hin).
    assert (Ej : (j =? p)%Z = false) by (apply Z.eqb_neq; assumption).
    rewrite Ej in Hpeak. simpl in Hpeak.
    apply negb_true_iff in Hpeak. exact Hpeak.
Qed.

End Peaks.

(** ** The cycles of an analysis *)

Section Cycles.

Context {num : Type} `{JSNumber num}.
Variable Math_exp : num -> num.

Local Open Scope js_scope.

(** The cycle that one turn of the loop pushes for the peak [snd ip] of
    index [fst ip], when the last accepted cycle ended on [lastEndFrame]. *)
Definition builtFrom (smoothedData : list (option num)) (diffData : list num)
    (processedData : list (Row num)) (fps : num) (lastEndFrame : Z)
    (ip : Z * Z) (c : Cycle num) : Prop :=
  cycleNumber c = (fst ip + 1)%Z /\
  peakFrame c = snd ip /\
  startFrame c = findStartFrame smoothedData diffData (fst ip) (snd ip)
                                lastEndFrame /\
  endFrame c = findEndFrame smoothedData diffData (snd ip) /\
  duration c = (endFrame c - startFrame c)%Z /\
  (5 <= duration c <= 200)%Z /\
  (lastEndFrame < startFrame c)%Z /\
  (startFrame c < peakFrame c < endFrame c)%Z /\
  peakValue c = valAt smoothedData (snd ip) /\
  parameters c = extractCycleParameters (startFrame c) (endFrame c)
                                        processedData (cycleNumber c) /\
  startTime c = ofZ (startFrame c) / fps /\
  endTime c = ofZ (endFrame c) / fps /\
  durationTime c = ofZ (duration c) / fps.

Lemma cycleStep_cases (smoothedData : list (option num)) (diffData : list num)
    (processedData : list (Row num)) (fps : num)
    (state : list (Cycle num) * Z) (ip : Z * Z) :
  cycleStep smoothedData diffData processedData fps state ip = state \/
  exists c,
    cycleStep smoothedData diffData processedData fps state ip
    = (fst state ++ [c], endFrame c) /\
    builtFrom smoothedData diffData processedData fps (snd state) ip c.
Proof.
  unfold cycleStep.
  set (start := findStartFrame smoothedData diffData (fst ip) (snd ip)
                               (snd state)).
  set (stop := findEndFrame smoothedData diffData (snd ip)).
  destruct ((5 <=? stop - start)%Z && (stop - start <=? 200)%Z
            && (snd state <? start)%Z && (start <? snd ip)%Z
            && (snd ip <? stop)%Z) eqn:Hvalid; [| left; reflexivity].
  repeat rewrite andb_true_iff in Hvalid.
  destruct Hvalid as ((((H5 & H200) & Hseq) & Hstart) & Hend).
  apply Z.leb_le in H5, H200. apply Z.ltb_lt in Hseq, Hstart, Hend.
  right.
  match goal with |- context [fst state ++ [?c]] => exists c end.
  split; [reflexivity|].
  unfold builtFrom; simpl. repeat split; lia.
Qed.

Lemma findEndFrame_inside (smoothedData : list (option num))
    (diffData : list num) (peak : Z) :
  (peak < findEndFrame smoothedData diffData peak)%Z ->
  (findEndFrame smoothedData diffData peak < len smoothedData)%Z.
Proof.
  unfold findEndFrame.
  match goal with
  | |- context [scanExtremum ?b ?v ?st ?l ?best] =>
      destruct (scanExtremum_index b v st l best) as [E | Hin];
      set (postLocalMin := scanExtremum b v st l best) in *
  end.
  - destruct (find _ _) as [j|] eqn:Ej.
    + apply find_index, In_range in Ej. lia.
    + simpl in E. lia.
  - apply In_range in Hin.
    destruct (find _ _) as [j|] eqn:Ej.
    + apply find_index, In_range in Ej. lia.
    + lia.
Qed.

(** A cycle of the analysis of a series of [n] frames with the filtered
    peaks [allPeaks]. *)
Definition cycleOfAnalysis (smoothedData : list (option num))
    (processedData : list (Row num)) (fps : num) (allPeaks : list Z)
    (c : Cycle num) : Prop :=
  exists lastEndFrame index,
    (-1 <= lastEndFrame)%Z /\
    (0 <= index)%Z /\
    nth_error allPeaks (Z.to_nat index) = Some (peakFrame c) /\
    builtFrom smoothedData (firstDifferences smoothedData) processedData fps
              lastEndFrame (index, peakFrame c) c.

Lemma cycleLoop_cycles (smoothedData : list (option num))
    (processedData : list (Row num)) (fps : num) (allPeaks : list Z)
    (steps : list (Z * Z)) :
  (forall ip, In ip steps ->
              (0 <= fst ip)%Z /\
              nth_error allPeaks (Z.to_nat (fst ip)) = Some (snd ip)) ->
  forall state,
    (-1 <= snd state)%Z ->
    Forall (cycleOfAnalysis smoothedData processedData fps allPeaks)
           (fst state) ->
    Forall (cycleOfAnalysis smoothedData processedData fps allPeaks)
           (fst (fold_left
                   (cycleStep smoothedData (firstDifferences smoothedData)
                              processedData fps) steps state)).
Proof.
  induction steps as [|ip steps IH]; intros Hsteps state Hlast Hall; simpl.
  - assumption.
  - assert (Hrest : forall ip', In ip' steps ->
                      (0 <= fst ip')%Z /\
                      nth_error allPeaks (Z.to_nat (fst ip')) = Some (snd ip'))
      by (intros ip' Hin; apply Hsteps; right; assumption).
    destruct (cycleStep_cases smoothedData (firstDifferences smoothedData)
                              processedData fps state ip)
      as [E | (c & E & Hc)]; rewrite E.
    + apply IH; assumption.
    + apply IH; [assumption | |]; simpl.
      * destruct Hc as (_ & _ & _ & _ & _ & _ & Hs & Ho & _). lia.
      * apply Forall_app. split; [assumption|].
        constructor; [| constructor].
        destruct (Hsteps ip (or_introl eq_refl)) as (H0 & Hnth).
        assert (Hp : peakFrame c = snd ip) by apply Hc.
        exists (snd state), (fst ip).
        split; [assumption|]. split; [assumption|].
        split; [rewrite Hp; assumption|].
        rewrite Hp, <- surjective_pairing. exact Hc.
Qed.

(** The cycle numbers grow along the list of cycles. *)
Lemma cycleLoop_numbers (smoothedData : list (option num)) (diffData : list num)
    (processedData : list (Row num)) (fps : num) (steps : list (Z * Z)) :
  ForallOrdPairs (fun a b => (fst a < fst b)%Z) steps ->
  forall state,
    ForallOrdPairs (fun c d => (cycleNumber c < cycleNumber d)%Z) (fst state) ->
    (forall c ip, In c (fst state) -> In ip steps ->
                  (cycleNumber c < fst ip + 1)%Z) ->
    ForallOrdPairs (fun c d => (cycleNumber c < cycleNumber d)%Z)
      (fst (fold_left (cycleStep smoothedData diffData processedData fps)
                      steps state)) /\
    (length (fst (fold_left (cycleStep smoothedData diffData processedData fps)
                            steps state))
     <= length (fst state) + length steps)%nat.
Proof.
  induction 1 as [|ip steps Hip Hsteps IH]; intros state Hord Hbelow; simpl.
  - split; [assumption | lia].
  - destruct (cycleStep_cases smoothedData diffData processedData fps state ip)
      as [E | (c & E & Hc)]; rewrite E.
    + destruct (IH state Hord) as (Ho & Hl).
      * intros c ip' Hc Hin. apply Hbelow; [assumption | right; assumption].
      * split; [assumption | lia].
    + destruct Hc as (Hn & _).
      destruct (IH (fst state ++ [c], endFrame c)) as (Ho & Hl); simpl.
      * apply ForallOrdPairs_snoc; [assumption|].
        rewrite Forall_forall. intros c' Hc'. rewrite Hn.
        apply Hbelow; [assumption | left; reflexivity].
      * intros c' ip' Hc' Hin. apply in_app_or in Hc'.
        destruct Hc' as [Hc' | [<- | []]].
        -- apply Hbelow; [assumption | right; assumption].
        -- rewrite Hn. rewrite Forall_forall in Hip.
           specialize (Hip ip' Hin). lia.
      * split; [assumption|]. simpl in Hl. rewrite length_app in Hl.
        simpl in Hl. lia.
Qed.

Lemma steps_of_peaks (allPeaks : list Z) (ip : Z * Z) :
  In ip (combine (range 0 (len allPeaks)) allPeaks) ->
  (0 <= fst ip)%Z /\ nth_error allPeaks (Z.to_nat (fst ip)) = Some (snd ip).
Proof.
  destruct ip as (i, p). intros Hin.
  apply (@In_combine_range Z allPeaks 0 i p) in Hin.
  destruct Hin as (H0 & Hnth). simpl.
  replace (i - 0)%Z with i in Hnth by lia. split; assumption.
Qed.

Lemma analysis_cycles (zscoreData : list (option num))
    (processedData : list (Row num)) (fps minPeakHeight : num)
    (minCycleLength : Z) :
  let d := detectSwallowingCycles Math_exp zscoreData processedData fps
                                  minPeakHeight minCycleLength in
  Forall (cycleOfAnalysis (smoothedOf d) processedData fps (peaksOf d))
         (cyclesOf d) /\
  ForallOrdPairs (fun c e => (cycleNumber c < cycleNumber e)%Z) (cyclesOf d) /\
  (length (cyclesOf d) <= length (peaksOf d))%nat.
Proof.
  intros d.
  destruct (detection_fields Math_exp zscoreData processedData fps
                             minPeakHeight minCycleLength)
    as [(_ & Ep & Ec) | (_ & _ & Ec)]; fold d in Ec; try fold d in Ep.
  - rewrite Ec, Ep. repeat split; constructor.
  - rewrite Ec. split; [| split].
    + apply cycleLoop_cycles; [apply steps_of_peaks | simpl; lia | constructor].
    + apply cycleLoop_numbers.
      * apply ForallOrdPairs_combine, ForallOrdPairs_range.
      * constructor.
      * intros c ip [].
    + match goal with
      | |- context [fold_left ?f ?l ?s] =>
          destruct (@cycleLoop_numbers (smoothedOf d)
                      (firstDifferences (smoothedOf d)) processedData fps l
                      (ForallOrdPairs_combine _
                         (ForallOrdPairs_range 0 (len (peaksOf d)))) s)
            as (_ & Hl)
      end.
      * constructor.
      * intros c ip [].
      * simpl in Hl. rewrite length_combine, length_range in Hl.
        unfold len in *. lia.
Qed.

(** X4. Every cycle of an analysis lies inside the series: its start frame
    is at least 0, its end frame at most the last frame, its peak at least 3
    frames from either end; its [duration] is [endFrame - startFrame] and
    lies between 5 and 200 frames. *)
Theorem cycles_lie_inside_the_series
    (zscoreData : list (option num)) (processedData : list (Row num))
    (fps minPeakHeight : num) (minCycleLength : Z) (c : Cycle num) :
  In c (cyclesOf (detectSwallowingCycles Math_exp zscoreData processedData
                                         fps minPeakHeight minCycleLength)) ->
  (0 <= startFrame c)%Z /\
  (endFrame c <= len zscoreData - 1)%Z /\
  (3 <= peakFrame c <= len zscoreData - 4)%Z /\
  duration c = (endFrame c - startFrame c)%Z /\
  (5 <= duration c <= 200)%Z.
Proof.
  intros Hc.
  destruct (analysis_cycles zscoreData processedData fps minPeakHeight
                            minCycleLength) as (Hall & _ & _).
  rewrite Forall_forall in Hall. specialize (Hall c Hc).
  destruct Hall as (lastEnd & index & Hlast & Hindex & Hnth & Hbuilt).
  destruct Hbuilt as (_ & _ & _ & He & Hd & Hdur & Hs & Ho & _).
  simpl in He.
  apply nth_error_In in Hnth.
  apply (filtered_peak_is_candidate Math_exp) in Hnth.
  destruct Hnth as (Hlen & _ & Hpeak).
  assert (Hend : (endFrame c < len zscoreData)%Z).
  { rewrite <- Hlen, He. apply findEndFrame_inside. rewrite <- He. lia. }
  repeat split; try assumption; lia.
Qed.

(** X5. A cycle of an analysis is built on one of the filtered peaks: its
    [cycleNumber] is that peak's position in [peaks] counted from 1 (not the
    cycle's own position in [cycles]), [peakFrame] is the peak, [peakValue]
    the smoothed value there, [parameters] the clinical parameters of exactly
    its own frames and number, and the three times are the frame counts
    divided by [fps]. *)
Theorem cycles_are_built_on_filtered_peaks
    (zscoreData : list (option num)) (processedData : list (Row num))
    (fps minPeakHeight : num) (minCycleLength : Z) (c : Cycle num) :
  let d := detectSwallowingCycles Math_exp zscoreData processedData
                                  fps minPeakHeight minCycleLength in
  In c (cyclesOf d) ->
  (1 <= cycleNumber c <= len (peaksOf d))%Z /\
  nth_error (peaksOf d) (Z.to_nat (cycleNumber c - 1)) = Some (peakFrame c) /\
  peakValue c = valAt (smoothedOf d) (peakFrame c) /\
  parameters c = extractCycleParameters (startFrame c) (endFrame c)
                                        processedData (cycleNumber c) /\
  startTime c = ofZ (startFrame c) / fps /\
  endTime c = ofZ (endFrame c) / fps /\
  durationTime c = ofZ (endFrame c - startFrame c) / fps.
Proof.
  intros d Hc.
  destruct (analysis_cycles zscoreData processedData fps minPeakHeight
                            minCycleLength) as (Hall & _ & _).
  fold d in Hall. rewrite Forall_forall in Hall. specialize (Hall c Hc).
  destruct Hall as (lastEnd & index & _ & Hindex & Hnth & Hbuilt).
  destruct Hbuilt as (Hn & _ & _ & _ & Hd & _ & _ & _ & Hv & Hp & Hs & He & Ht).
  simpl in Hn, Hv.
  assert (Hlt : (Z.to_nat index < length (peaksOf d))%nat)
    by (apply nth_error_Some; rewrite Hnth; discriminate).
  replace (cycleNumber c - 1)%Z with index by lia.
  rewrite <- Hd. unfold len. repeat split; try assumption; lia.
Qed.

(** X6. The cycle numbers strictly increase along [cycles] (they may skip
    the numbers of rejected peaks), and so do the peak frames. *)
Theorem cycle_numbers_increase
    (zscoreData : list (option num)) (processedData : list (Row num))
    (fps minPeakHeight : num) (minCycleLength : Z) (i j : nat)
    (c e : Cycle num) :
  let d := detectSwallowingCycles Math_exp zscoreData processedData
                                  fps minPeakHeight minCycleLength in
  (i < j)%nat ->
  nth_error (cyclesOf d) i = Some c -> nth_error (cyclesOf d) j = Some e ->
  (cycleNumber c < cycleNumber e)%Z /\ (peakFrame c < peakFrame e)%Z.
Proof.
  intros d Hij Hi Hj.
  destruct (analysis_cycles zscoreData processedData fps minPeakHeight
                            minCycleLength) as (Hall & Hord & _).
  fold d in Hall, Hord.
  assert (Hlt : (cycleNumber c < cycleNumber e)%Z)
    by exact (ForallOrdPairs_nth Hord Hij Hi Hj).
  split; [assumption|].
  rewrite Forall_forall in Hall.
  destruct (Hall c (nth_error_In _ _ Hi))
    as (_ & ic & _ & Hic & Hnc & (Hcn & _)).
  destruct (Hall e (nth_error_In _ _ Hj))
    as (_ & ie & _ & Hie & Hne & (Hen & _)).
  simpl in Hcn, Hen.
  assert (Hps : ForallOrdPairs (apart minCycleLength) (peaksOf d)).
  { unfold d.
    destruct (detection_fields Math_exp zscoreData processedData fps
                minPeakHeight minCycleLength) as [(_ & -> & _) | (_ & -> & _)].
    - constructor.
    - apply filterPeaks_separated. }
  assert (Hnat : (Z.to_nat ic < Z.to_nat ie)%nat) by lia.
  exact (proj1 (ForallOrdPairs_nth Hps Hnat Hnc Hne)).
Qed.

(** X7. An analysis has at most one cycle per filtered peak. *)
Theorem at_most_one_cycle_per_peak
    (zscoreData : list (option num)) (processedData : list (Row num))
    (fps minPeakHeight : num) (minCycleLength : Z) :
  let d := detectSwallowingCycles Math_exp zscoreData processedData
                                  fps minPeakHeight minCycleLength in
  (len (cyclesOf d) <= len (peaksOf d))%Z.
Proof.
  intros d.
  destruct (analysis_cycles zscoreData processedData fps minPeakHeight
                            minCycleLength) as (_ & _ & Hlen).
  fold d in Hlen. unfold len. lia.
Qed.

End Cycles.

(** *** The recording of two swallows *)

Definition recordingRows : list (Row float) :=
  processedData (processAdvancedData exp_table recordingAreas 10%float).

Definition recordingDriver : list (option float) :=
  map (@zscore_bolus_pharynx_overlap float) recordingRows.

Lemma filtered_peaks_are_separated_witness :
  (20 < 60 /\ 15 <= 60 - 20)%Z.
Proof.
  apply (@filtered_peaks_are_separated float _ exp_table recordingDriver
           recordingRows 30%float 0.3%float 15 0%nat 1%nat 20 60).
  - lia.
  - vm_compute. reflexivity.
  - vm_compute. reflexivity.
Defined.

Lemma filtered_peaks_are_significant_local_maxima_witness :
  let d := detectSwallowingCycles exp_table recordingDriver recordingRows
                                  30%float 0.3%float 15 in
  (3 <= 60 <= len recordingDriver - 4)%Z /\
  (valAt (smoothedOf d) 60 >? 0.3%float)%js = true /\
  forall j, (60 - 3 <= j <= 60 + 3)%Z -> j <> 60%Z ->
            (valAt (smoothedOf d) j >=? valAt (smoothedOf d) 60)%js = false.
Proof.
  apply (@filtered_peaks_are_significant_local_maxima float _ exp_table
           recordingDriver recordingRows 30%float 0.3%float 15 60).
  vm_compute. right. left. reflexivity.
Defined.

Lemma cycles_lie_inside_the_series_witness :
  exists c,
    In c (cyclesOf recordingAnalysis) /\
    boundaries c = (2, 46, 60, 81)%Z /\
    ((0 <= startFrame c)%Z /\
     (endFrame c <= len recordingDriver - 1)%Z /\
     (3 <= peakFrame c <= len recordingDriver - 4)%Z /\
     duration c = (endFrame c - startFrame c)%Z /\
     (5 <= duration c <= 200)%Z).
Proof.
  eexists. split; [vm_compute; right; left; reflexivity|].
  split; [vm_compute; reflexivity|].
  apply (@cycles_lie_inside_the_series float _ exp_table recordingDriver
           recordingRows 30%float 0.3%float 15).
  vm_compute. right. left. reflexivity.
Defined.

Lemma cycles_are_built_on_filtered_peaks_witness :
  exists c,
    In c (cyclesOf recordingAnalysis) /\
    boundaries c = (2, 46, 60, 81)%Z /\
    nth_error (peaksOf recordingAnalysis) (Z.to_nat (cycleNumber c - 1))
    = Some (peakFrame c) /\
    parameters c = extractCycleParameters 46 81 recordingRows 2.
Proof.
  eexists. split; [vm_compute; right; left; reflexivity|].
  split; [vm_compute; reflexivity|].
  match goal with
  | |- nth_error _ (Z.to_nat (cycleNumber ?c - 1)) = _ /\ _ =>
      destruct (@cycles_are_built_on_filtered_peaks float _ exp_table
                  recordingDriver recordingRows 30%float 0.3%float 15 c)
        as (_ & Hnth & _ & Hparameters & _)
  end.
  - vm_compute. right. left. reflexivity.
  - split; [exact Hnth | exact Hparameters].
Defined.

Lemma cycle_numbers_increase_witness :
  exists c e,
    nth_error (cyclesOf recordingAnalysis) 0 = Some c /\
    nth_error (cyclesOf recordingAnalysis) 1 = Some e /\
    boundaries c = (1, 6, 20, 40)%Z /\
    boundaries e = (2, 46, 60, 81)%Z /\
    (cycleNumber c < cycleNumber e)%Z /\ (peakFrame c < peakFrame e)%Z.
Proof.
  eexists. eexists.
  split; [vm_compute; reflexivity|]. split; [vm_compute; reflexivity|].
  split; [vm_compute; reflexivity|]. split; [vm_compute; reflexivity|].
  apply (@cycle_numbers_increase float _ exp_table recordingDriver
           recordingRows 30%float 0.3%float 15 0%nat 1%nat).
  - lia.
  - vm_compute. reflexivity.
  - vm_compute. reflexivity.
Defined.

(** ** The parameters of a cycle *)

Section Landmarks.

Context {num : Type} `{JSNumber num}.

Local Open Scope js_scope.

Lemma valleyBefore_before (a diffData : list num) (maxValue : num)
    (maxIndex searchStartInCycle : Z) :
  (snd (valleyBefore a diffData maxValue maxIndex searchStartInCycle)
   <= maxIndex)%Z.
Proof.
  unfold valleyBefore.
  destruct (find _ _) as [i|] eqn:E.
  - apply find_index, In_countDown in E. simpl. lia.
  - match goal with
    | |- context [scanExtremum ?b ?v ?st ?l ?best] =>
        destruct (scanExtremum_index b v st l best) as [E' | Hin]
    end.
    + rewrite E'. simpl. lia.
    + apply In_countDown in Hin. lia.
Qed.

Lemma valleyAfter_after (a diffData : list num) (maxValue : num)
    (maxIndex searchEndInCycle : Z) :
  (maxIndex
   <= snd (valleyAfter a diffData maxValue maxIndex searchEndInCycle))%Z.
Proof.
  unfold valleyAfter.
  destruct (find _ _) as [i|] eqn:E.
  - apply find_index, In_range in E. simpl. lia.
  - match goal with
    | |- context [scanExtremum ?b ?v ?st ?l ?best] =>
        destruct (scanExtremum_index b v st l best) as [E' | Hin]
    end.
    + rewrite E'. simpl. lia.
    + apply In_range in Hin. lia.
Qed.

Lemma lvcPeak_before (a diffData secondDiffData : list num)
    (valley1Value : num) (valley1Index searchStartInCycle : Z) :
  (snd (lvcPeak a diffData secondDiffData valley1Value valley1Index
                searchStartInCycle)
   <= valley1Index)%Z.
Proof.
  unfold lvcPeak.
  destruct (find _ _) as [i|] eqn:E1.
  - apply find_index, In_countDown in E1. simpl. lia.
  - clear E1. destruct (find _ _) as [i|] eqn:E2.
    + apply find_index, In_countDown in E2. simpl. lia.
    + match goal with
      | |- context [scanExtremum ?b ?v ?st ?l ?best] =>
          destruct (scanExtremum_index b v st l best) as [E' | Hin]
      end.
      * rewrite E'. simpl. lia.
      * apply In_countDown in Hin. lia.
Qed.

Lemma lvcValley2_after (a diffData secondDiffData : list num)
    (valley1Value : num) (valley1Index searchEndInCycle : Z) :
  (valley1Index
   <= snd (lvcValley2 a diffData secondDiffData valley1Value valley1Index
                      searchEndInCycle))%Z.
Proof.
  unfold lvcValley2.
  destruct (find _ _) as [i|] eqn:E1.
  - apply find_index, In_range in E1. simpl. lia.
  - clear E1. destruct (find _ _) as [i|] eqn:E2.
    + apply find_index, In_range in E2. simpl. lia.
    + match goal with
      | |- context [scanExtremum ?b ?v ?st ?l ?best] =>
          destruct (scanExtremum_index b v st l best) as [E' | Hin]
      end.
      * rewrite E'. simpl. lia.
      * apply In_range in Hin. lia.
Qed.

Lemma hybBlock_ordered (startFrame : Z)
    (cycleData processedData : list (Row num)) (cycleNumber : Z)
    (r : HybResult num) :
  hybBlock startFrame cycleData processedData cycleNumber = Some r ->
  (hyb_valleyFrame r <= hyb_peakFrame r)%Z.
Proof.
  unfold hybBlock. destruct (0 <? len _)%Z; [| discriminate].
  intros E. blockResult E r.
  match goal with
  | |- context [valleyBefore ?a ?d ?mv ?mi ?ss] =>
      pose proof (valleyBefore_before a d mv mi ss)
  end.
  lia.
Qed.

Lemma uesBlock_ordered (startFrame : Z)
    (cycleData processedData : list (Row num)) (cycleNumber : Z)
    (r : UesResult num) :
  uesBlock startFrame cycleData processedData cycleNumber = Some r ->
  (ues_beforeValleyFrame r <= ues_peakFrame r <= ues_afterValleyFrame r)%Z.
Proof.
  unfold uesBlock. destruct (0 <? len _)%Z; [| discriminate].
  intros E. blockResult E r.
  match goal with
  | |- context [valleyBefore ?a ?d ?mv ?mi ?ss] =>
      pose proof (valleyBefore_before a d mv mi ss)
  end.
  match goal with
  | |- context [valleyAfter ?a ?d ?mv ?mi ?se] =>
      pose proof (valleyAfter_after a d mv mi se)
  end.
  lia.
Qed.

Lemma lvcBlock_ordered (startFrame : Z)
    (cycleData processedData : list (Row num)) (cycleNumber : Z)
    (vestibule : list num) (r : LvcResult num) :
  lvcBlock startFrame cycleData processedData cycleNumber vestibule = Some r ->
  (lvc_peakFrame r <= lvc_valley1Frame r <= lvc_valley2Frame r)%Z.
Proof.
  unfold lvcBlock. destruct (0 <? len _)%Z; [| discriminate].
  intros E. blockResult E r.
  match goal with
  | |- context [lvcPeak ?a ?d ?sd ?v ?vi ?ss] =>
      pose proof (lvcPeak_before a d sd v vi ss)
  end.
  match goal with
  | |- context [lvcValley2 ?a ?d ?sd ?v ?vi ?se] =>
      pose proof (lvcValley2_after a d sd v vi se)
  end.
  lia.
Qed.

(** Two reported frames in order, when both are reported. *)
Definition inOrder (first second : option Z) : Prop :=
  match first, second with
  | Some f, Some s => (f <= s)%Z
  | _, _ => True
  end.

(** X8. The landmarks of each family come in the order of the movement:
    HYB (the valley) is not after the hyoid peak, UESO not after the UES peak
    and that not after UESC, LVC (the peak before the first valley) not after
    that valley and that not after LVCoff. *)
Theorem landmarks_are_ordered
    (startFrame endFrame : Z) (processedData : list (Row num)) (cycleNumber : Z)
    (p : ClinicalParameters num) :
  extractCycleParameters startFrame endFrame processedData cycleNumber
  = Parameters p ->
  inOrder (HYB p) (HYB_peakFrame p) /\
  inOrder (UESO p) (UES_peakFrame p) /\
  inOrder (UES_peakFrame p) (UESC p) /\
  inOrder (LVC p) (LVC_valley1Frame p) /\
  inOrder (LVC_valley1Frame p) (LVCoff p).
Proof.
  intros Hp. unfold extractCycleParameters in Hp.
  destruct (len _ =? 0)%Z; [discriminate|]. injection Hp as <-.
  cbn [HYB HYB_peakFrame UESO UES_peakFrame UESC LVC LVC_valley1Frame LVCoff].
  destruct (hybBlock _ _ _ _) as [hyb|] eqn:Ehyb;
    destruct (uesBlock _ _ _ _) as [ues|] eqn:Eues;
    destruct (lvcBlock _ _ _ _ _) as [lvc|] eqn:Elvc;
    cbn [option_map inOrder];
    try (apply hybBlock_ordered in Ehyb);
    try (apply uesBlock_ordered in Eues);
    try (apply lvcBlock_ordered in Elvc);
    repeat split; solve [exact I | lia].
Qed.

(** *** Aspiration risk without a complete frame *)

Lemma frameRatios_nil (cycleData : list (Row num)) :
  frameRatios cycleData = [] <->
  forall row, In row cycleData ->
              normalized_bolus_vestibule_overlap row = None \/
              normalized_vestibule row = None.
Proof.
  unfold frameRatios. induction cycleData as [|row rows IH]; simpl.
  - split; [intros _ row [] | reflexivity].
  - split.
    + intros E. apply app_eq_nil in E. destruct E as (Erow & Erows).
      intros row' [<- | Hin].
      * destruct (normalized_bolus_vestibule_overlap row);
          [| left; reflexivity].
        destruct (normalized_vestibule row); [discriminate | right; reflexivity].
      * apply IH; assumption.
    + intros Hall.
      rewrite (proj2 IH) by (intros row' Hin; apply Hall; right; assumption).
      rewrite app_nil_r.
      destruct (Hall row (or_introl eq_refl)) as [-> | E]; [reflexivity|].
      rewrite E. destruct (normalized_bolus_vestibule_overlap row); reflexivity.
Qed.

Lemma aspirationBlock_without_frame (startFrame : Z)
    (cycleData : list (Row num)) :
  frameRatios cycleData = [] ->
  aspirationBlock startFrame cycleData = (None, None, None).
Proof.
  intros E. unfold aspirationBlock.
  destruct ((0 <? len _)%Z && (0 <? len _)%Z); [| reflexivity].
  unfold overlapDetailsOf.
  rewrite ratios_of_overlapDetails by (rewrite length_range; unfold len; lia).
  rewrite E. reflexivity.
Qed.

(** X9. [aspirationRisk] and [maxOverlapRatio] are null exactly when no frame
    of the cycle has both the normalized bolus-vestibule overlap and the
    normalized vestibule area, even if each of the two series has samples on
    other frames. *)
Theorem aspiration_risk_is_null_without_a_complete_frame
    (startFrame endFrame : Z) (processedData : list (Row num)) (cycleNumber : Z)
    (p : ClinicalParameters num) :
  extractCycleParameters startFrame endFrame processedData cycleNumber
  = Parameters p ->
  (aspirationRisk p = None <->
   forall row, In row (slice processedData startFrame (endFrame + 1)) ->
               normalized_bolus_vestibule_overlap row = None \/
               normalized_vestibule row = None) /\
  (maxOverlapRatio p = None <-> aspirationRisk p = None).
Proof.
  intros Hp. unfold extractCycleParameters in Hp.
  destruct (len _ =? 0)%Z; [discriminate|]. injection Hp as <-.
  cbn [aspirationRisk maxOverlapRatio].
  set (cycleData := slice processedData startFrame (endFrame + 1)).
  rewrite <- frameRatios_nil.
  destruct (frameRatios cycleData) as [|r rs] eqn:E.
  - rewrite (aspirationBlock_without_frame startFrame cycleData E). simpl.
    repeat split; reflexivity.
  - assert (Hr : In r (frameRatios cycleData)) by (rewrite E; left; reflexivity).
    unfold frameRatios in Hr. apply in_flat_map in Hr.
    destruct Hr as (row & Hrow & Hr).
    assert (Ho : normalized_bolus_vestibule_overlap row <> None)
      by (intros Eo; rewrite Eo in Hr; contradiction).
    assert (Hv : normalized_vestibule row <> None).
    { intros Ev. rewrite Ev in Hr.
      destruct (normalized_bolus_vestibule_overlap row); contradiction. }
    rewrite (aspirationBlock_with_frame startFrame cycleData row Hrow Ho Hv).
    simpl. repeat split; discriminate.
Qed.

End Landmarks.

(** X10. In binary64 the divisor of an overlap ratio is never closer to zero
    than 0.01: every detail of a cycle comes from one row of the cycle that
    has both values, its frame is [startFrame] plus the offset of that row
    in the cycle, its two normalized values are those of the row, [ratio] is
    [adjustedOverlap / adjustedVestibule] and the test
    [|adjustedVestibule| < 0.01] fails. *)
Theorem overlap_ratio_divisor_is_not_small
    (startFrame : Z) (cycleData : list (Row float)) (d : OverlapDetail float) :
  In d (overlapDetailsOf startFrame cycleData) ->
  ratio d = PrimFloat.div (adjustedOverlap d) (adjustedVestibule d) /\
  PrimFloat.ltb (PrimFloat.abs (adjustedVestibule d)) 0.01 = false /\
  exists (offset : nat) (row : Row float),
    nth_error cycleData offset = Some row /\
    od_frame d = (startFrame + Z.of_nat offset)%Z /\
    normalized_bolus_vestibule_overlap row = Some (normalizedOverlap d) /\
    normalized_vestibule row = Some (normalizedVestibule d).
Proof.
  unfold overlapDetailsOf. intros Hd. apply in_flat_map in Hd.
  destruct Hd as ((i & row) & Hin & Hd). simpl in Hd.
  apply (@In_combine_range _ cycleData 0 i row) in Hin.
  destruct Hin as (Hi & Hrow).
  replace (i - 0)%Z with i in Hrow by lia.
  unfold overlapDetailAt in Hd.
  destruct (normalized_bolus_vestibule_overlap row) as [o|] eqn:Eo;
    [| contradiction].
  destruct (normalized_vestibule row) as [v|] eqn:Ev; [| contradiction].
  destruct Hd as [<- | []].
  cbn [ratio adjustedOverlap adjustedVestibule od_frame normalizedOverlap
       normalizedVestibule].
  split; [reflexivity|]. split.
  - unfold adjustOverlapOperands.
    destruct (nabs v <? dec 1 2)%js eqn:E.
    + vm_compute. reflexivity.
    + destruct (nabs o <? dec 1 2)%js; exact E.
  - exists (Z.to_nat i), row.
    split; [exact Hrow|]. split; [lia|]. split; assumption.
Qed.

Lemma landmarks_are_ordered_witness :
  exists p,
    extractCycleParameters 46 81 recordingRows 2 = Parameters p /\
    (HYB p, HYB_peakFrame p) = (Some 59, Some 60)%Z /\
    (UESO p, UES_peakFrame p, UESC p) = (Some 58, Some 60, Some 79)%Z /\
    (LVC p, LVC_valley1Frame p, LVCoff p) = (Some 46, Some 60, Some 60)%Z /\
    (inOrder (HYB p) (HYB_peakFrame p) /\
     inOrder (UESO p) (UES_peakFrame p) /\
     inOrder (UES_peakFrame p) (UESC p) /\
     inOrder (LVC p) (LVC_valley1Frame p) /\
     inOrder (LVC_valley1Frame p) (LVCoff p)).
Proof.
  eexists. split; [vm_compute; reflexivity|].
  split; [vm_compute; reflexivity|].
  split; [vm_compute; reflexivity|].
  split; [vm_compute; reflexivity|].
  apply (@landmarks_are_ordered float _ 46 81 recordingRows 2).
  vm_compute. reflexivity.
Defined.

(** Each of the two series has a sample, but on different frames. *)
Definition staggeredRows : list (Row float) :=
  [rowOf 0 (withValue Pbolus_vestibule_overlap 0.3%float noValues)
         (withValue Ppharynx 1%float noValues);
   rowOf 1 (withValue Pvestibule 1%float noValues)
         (withValue Ppharynx 2%float noValues)].

Lemma aspiration_risk_is_null_without_a_complete_frame_witness :
  exists p,
    extractCycleParameters 0 1 staggeredRows 1 = Parameters p /\
    aspirationRisk p = None /\
    ((aspirationRisk p = None <->
      forall row, In row (slice staggeredRows 0 (1 + 1)) ->
                  normalized_bolus_vestibule_overlap row = None \/
                  normalized_vestibule row = None) /\
     (maxOverlapRatio p = None <-> aspirationRisk p = None)).
Proof.
  eexists. split; [vm_compute; reflexivity|].
  split; [vm_compute; reflexivity|].
  apply (@aspiration_risk_is_null_without_a_complete_frame float _ 0 1
           staggeredRows 1).
  vm_compute. reflexivity.
Defined.

Lemma overlap_ratio_divisor_is_not_small_witness :
  exists d,
    In d (overlapDetailsOf 0 (thresholdRows 0.2%float)) /\
    od_frame d = 1%Z /\
    (ratio d = PrimFloat.div (adjustedOverlap d) (adjustedVestibule d) /\
     PrimFloat.ltb (PrimFloat.abs (adjustedVestibule d)) 0.01 = false /\
     exists (offset : nat) (row : Row float),
       nth_error (thresholdRows 0.2%float) offset = Some row /\
       od_frame d = (0 + Z.of_nat offset)%Z /\
       normalized_bolus_vestibule_overlap row = Some (normalizedOverlap d) /\
       normalized_vestibule row = Some (normalizedVestibule d)).
Proof.
  eexists. split; [vm_compute; right; left; reflexivity|].
  split; [vm_compute; reflexivity|].
  apply (@overlap_ratio_divisor_is_not_small 0 (thresholdRows 0.2%float)).
  vm_compute. right. left. reflexivity.
Defined.

(** ** The rows of the processed data *)

Section ProcessedRows.

Context {num : Type} `{JSNumber num}.
Variable Math_exp : num -> num.

Local Open Scope js_scope.

Lemma map_fst_combine_same_length (A B : Type) (l : list A) :
  forall (m : list B), length l = length m -> map fst (combine l m) = l.
Proof.
  induction l as [|x l IH]; intros [|y m] Hlen; simpl in *;
    try reflexivity; try discriminate.
  f_equal. apply IH. lia.
Qed.

Lemma frame_fold_standardizeParam (stats : GroupStats num)
    (names : list Param) :
  forall row : Row num,
    frame (fold_left (standardizeParam stats) names row) = frame row /\
    smoothed (fold_left (standardizeParam stats) names row) = smoothed row.
Proof.
  induction names as [|q names IH]; intros row; simpl.
  - split; reflexivity.
  - destruct (IH (standardizeParam stats row q)) as (-> & ->).
    unfold standardizeParam. destruct (normalized row q); split; reflexivity.
Qed.

Lemma frame_standardizeRow (areaStats distanceStats : GroupStats num)
    (row : Row num) :
  frame (standardizeRow areaStats distanceStats row) = frame row /\
  smoothed (standardizeRow areaStats distanceStats row) = smoothed row.
Proof.
  unfold standardizeRow.
  destruct (frame_fold_standardizeParam distanceStats distanceParameterNames
              (fold_left (standardizeParam areaStats) areaParameterNames row))
    as (-> & ->).
  apply frame_fold_standardizeParam.
Qed.

Lemma frame_normalizeRow (referenceC2C4 : num) (sm : Smoothed num) (index : Z)
    (area : Area num) :
  frame (normalizeRow referenceC2C4 sm index area) = index /\
  forall p, isAreaParam p = false ->
            smoothed (normalizeRow referenceC2C4 sm index area) p = None.
Proof.
  unfold normalizeRow.
  destruct (negb (truthy (c2c4LengthAt sm index area))
            || (ToNumber (c2c4LengthAt sm index area) <=? ofZ 0)); simpl;
    (split; [reflexivity|]);
    intros p Hp; unfold smoothedProps; rewrite Hp; reflexivity.
Qed.

(** X11. The processed data has one row per frame, in frame order
    ([frame] is the index in the recording).  In every row a z-score is
    present exactly where the normalized value is, the normalized areas are
    all present or every normalized value is null, and no smoothed value is
    kept for the two distances. *)
Theorem processed_rows_follow_the_frames
    (originalAreas : list (Area num)) (referenceC2C4 : num) :
  let rows :=
    processedData (processAdvancedData Math_exp originalAreas referenceC2C4) in
  map (@frame num) rows = range 0 (len originalAreas) /\
  Forall (fun row =>
            (forall p, zscore row p = None <-> normalized row p = None) /\
            ((forall p, normalized row p = None) \/
             (forall p, isAreaParam p = true -> normalized row p <> None)) /\
            (forall p, isAreaParam p = false -> smoothed row p = None))
         rows.
Proof.
  unfold processAdvancedData, standardizeRows, normalizeRows.
  cbn [processedData]. split.
  - rewrite !map_map.
    rewrite <- (map_fst_combine_same_length (range 0 (len originalAreas))
                  originalAreas) at 2
      by (rewrite length_range; unfold len; lia).
    apply map_ext. intros (index & area). cbn [fst snd].
    rewrite (proj1 (frame_standardizeRow _ _ _)).
    apply frame_normalizeRow.
  - rewrite Forall_forall. intros row Hrow.
    apply in_map_iff in Hrow. destruct Hrow as (row0 & <- & Hrow0).
    apply in_map_iff in Hrow0. destruct Hrow0 as ((index & area) & <- & _).
    cbn [fst snd].
    match goal with
    | |- context [standardizeRow ?a ?d (normalizeRow ?r ?sm ?i ?ar)] =>
        destruct (standardizeRow_spec a d (normalizeRow r sm i ar))
          as (Hn & _ & Hz);
        destruct (normalizeRow_spec r sm i ar) as (_ & Hz0 & Hnorm);
        destruct (frame_standardizeRow a d (normalizeRow r sm i ar))
          as (_ & Hs);
        destruct (frame_normalizeRow r sm i ar) as (_ & Hs0)
    end.
    rewrite Hn, Hs. split; [| split; assumption].
    intros p. rewrite Hz.
    destruct (normalized _ p); [split; discriminate|].
    rewrite Hz0. split; reflexivity.
Qed.

(** *** A recording without calibration length *)

(** A frame whose C2-C4 length is null or not positive. *)
Definition withoutCalibration (area : Area num) : Prop :=
  match c2c4_length area with
  | None => True
  | Some x => (x >? ofZ 0) = false /\ (x <=? ofZ 0) = true
  end.

Lemma smoothAll_withoutCalibration (originalAreas : list (Area num)) :
  Forall withoutCalibration originalAreas ->
  sm_c2c4_length (smoothAll Math_exp originalAreas) = [].
Proof.
  intros Hall. unfold smoothAll. cbn [sm_c2c4_length].
  assert (E : filter (fun d : option num => isNotNull d && (ToNumber d >? ofZ 0))
                     (map (@c2c4_length num) originalAreas) = []).
  { induction Hall as [|area areas Harea _ IH]; [reflexivity|]. simpl.
    unfold withoutCalibration in Harea.
    destruct (c2c4_length area) as [x|]; simpl.
    - destruct Harea as (-> & _). assumption.
    - assumption. }
  rewrite E. reflexivity.
Qed.

Lemma groupValuesOf_null_rows (paramNames : list Param) (data : list (Row num)) :
  Forall (fun row => forall p, normalized row p = None) data ->
  groupValuesOf (@normalized num) paramNames data = [].
Proof.
  intros Hall. unfold groupValuesOf.
  assert (Hq : forall q,
             filterNotNull (map (fun row : Row num => normalized row q) data)
             = []).
  { intros q. induction Hall as [|row rows Hrow _ IHrows]; [reflexivity|].
    simpl. rewrite Hrow. exact IHrows. }
  induction paramNames as [|q names IH]; [reflexivity|]. simpl.
  rewrite IH, Hq. reflexivity.
Qed.

(** X12. When no frame has a positive C2-C4 length, every normalized value
    and every z-score of every row is null, and both groups get the default
    statistics: mean 0, standard deviation 1. *)
Theorem no_calibration_gives_null_rows
    (originalAreas : list (Area num)) (referenceC2C4 : num) :
  Forall withoutCalibration originalAreas ->
  let processed := processAdvancedData Math_exp originalAreas referenceC2C4 in
  Forall (fun row => forall p, normalized row p = None /\ zscore row p = None)
         (processedData processed) /\
  fst (areaStats processed) = {| mean := ofZ 0; stdDev := ofZ 1 |} /\
  fst (distanceStats processed) = {| mean := ofZ 0; stdDev := ofZ 1 |}.
Proof.
  intros Hall.
  assert (Hnull : Forall (fun row => forall p, normalized row p = None)
                         (normalizeRows Math_exp originalAreas referenceC2C4)).
  { unfold normalizeRows. rewrite Forall_forall. intros row Hrow.
    apply in_map_iff in Hrow. destruct Hrow as ((index & area) & <- & Hin).
    apply in_combine_r in Hin. rewrite Forall_forall in Hall.
    pose proof (Hall area Hin) as Harea. cbn [fst snd].
    unfold normalizeRow, c2c4LengthAt.
    rewrite (smoothAll_withoutCalibration (proj2 (Forall_forall _ _) Hall)).
    replace (atIndex (@nil (option num)) index) with (@None (option num))
      by (unfold atIndex; destruct (index <? 0)%Z; [| destruct (Z.to_nat index)];
          reflexivity).
    unfold withoutCalibration in Harea.
    destruct (c2c4_length area) as [x|]; simpl.
    - destruct Harea as (_ & ->). rewrite orb_true_r. reflexivity.
    - reflexivity. }
  unfold processAdvancedData.
  cbn [processedData areaStats distanceStats fst].
  unfold calculateGroupZScore.
  rewrite !(groupValuesOf_null_rows _ Hnull). simpl.
  repeat split.
  unfold standardizeRows. rewrite Forall_forall. intros row Hrow.
  apply in_map_iff in Hrow. destruct Hrow as (row0 & <- & Hrow0).
  rewrite Forall_forall in Hnull. pose proof (Hnull row0 Hrow0) as Hrow0null.
  unfold normalizeRows in Hrow0. apply in_map_iff in Hrow0.
  destruct Hrow0 as ((index & area) & <- & _). cbn [fst snd] in *.
  match goal with
  | |- context [standardizeRow ?a ?d (normalizeRow ?r ?sm ?i ?ar)] =>
      destruct (standardizeRow_spec a d (normalizeRow r sm i ar))
        as (Hn & _ & Hz);
      destruct (normalizeRow_spec r sm i ar) as (_ & Hz0 & _)
  end.
  intros p. rewrite Hn, Hz, Hrow0null. split; [reflexivity | apply Hz0].
Qed.

End ProcessedRows.

Definition uncalibratedRecording : list (Area float) :=
  [areaOf 0.1%float 1%float (Some 3%float) (Some 2%float) None;
   areaOf 0.2%float 1%float (Some 5%float) (Some 4%float) (Some 0%float);
   areaOf 0.1%float 1%float (Some 4%float) (Some 3%float) (Some (-10)%float)].

Lemma no_calibration_gives_null_rows_witness :
  let processed := processAdvancedData exp_table uncalibratedRecording 10%float in
  Forall (fun row => forall p, normalized row p = None /\ zscore row p = None)
         (processedData processed) /\
  fst (areaStats processed) = {| mean := 0%float; stdDev := 1%float |} /\
  fst (distanceStats processed) = {| mean := 0%float; stdDev := 1%float |}.
Proof.
  assert (Hall : Forall (@withoutCalibration float _) uncalibratedRecording)
    by (repeat constructor).
  exact (@no_calibration_gives_null_rows float _ exp_table
           uncalibratedRecording 10%float Hall).
Defined.

(** ** Sorting and percentiles in exact arithmetic *)

Section ExactOrder.

Local Open Scope R_scope.

Lemma Rltb_true (a b : R) : Rltb a b = true <-> a < b.
Proof. unfold Rltb. destruct (Rlt_dec a b); split; intros; auto; discriminate. Qed.

Lemma Rltb_false (a b : R) : Rltb a b = false <-> b <= a.
Proof.
  unfold Rltb. destruct (Rlt_dec a b); split; intros; auto;
    try discriminate; lra.
Qed.

Lemma Rleb_true (a b : R) : Rleb a b = true <-> a <= b.
Proof. unfold Rleb. destruct (Rle_dec a b); split; intros; auto; discriminate. Qed.

Lemma insertSorted_Permutation (x : R) (l : list R) :
  Permutation (insertSorted x l) (x :: l).
Proof.
  induction l as [|y l IH]; simpl.
  - apply Permutation_refl.
  - destruct (Rltb (x - y) 0).
    + apply Permutation_refl.
    + eapply perm_trans; [apply perm_skip, IH | apply perm_swap].
Qed.

Lemma insertSorted_sorted (x : R) (l : list R) :
  ForallOrdPairs Rle l -> ForallOrdPairs Rle (insertSorted x l).
Proof.
  induction 1 as [|y l Hy Hl IH]; simpl.
  - constructor; constructor.
  - destruct (Rltb (x - y) 0) eqn:E.
    + apply Rltb_true in E. constructor; [| constructor; assumption].
      constructor; [lra|].
      rewrite Forall_forall in *. intros z Hz. specialize (Hy z Hz). lra.
    + apply Rltb_false in E. constructor; [| assumption].
      rewrite Forall_forall in *. intros z Hz.
      apply (Permutation_in _ (insertSorted_Permutation x l)) in Hz.
      destruct Hz as [<- | Hz]; [lra | apply Hy, Hz].
Qed.

Lemma sortAscending_fold (l : list R) :
  forall acc,
    ForallOrdPairs Rle acc ->
    ForallOrdPairs Rle (fold_left (fun acc x => insertSorted x acc) l acc) /\
    Permutation (fold_left (fun acc x => insertSorted x acc) l acc) (acc ++ l).
Proof.
  induction l as [|x l IH]; intros acc Hacc; simpl.
  - split; [assumption|]. rewrite app_nil_r. apply Permutation_refl.
  - destruct (IH (insertSorted x acc) (insertSorted_sorted x Hacc))
      as (Hsorted & Hperm).
    split; [assumption|].
    eapply perm_trans; [exact Hperm|].
    eapply perm_trans;
      [apply Permutation_app_tail, insertSorted_Permutation|].
    simpl. apply Permutation_cons_app. apply Permutation_refl.
Qed.

(** X13. In exact arithmetic the comparator sort [(a, b) => a - b] returns
    its input rearranged in non-decreasing order. *)
Theorem sortAscending_sorts (l : list R) :
  ForallOrdPairs Rle (sortAscending l) /\ Permutation (sortAscending l) l.
Proof.
  unfold sortAscending.
  destruct (sortAscending_fold l (FOP_nil Rle)) as (Hsorted & Hperm).
  split; assumption.
Qed.

End ExactOrder.

(** *** The range of the PCR *)

Section ExactPercentiles.

Local Open Scope R_scope.

Ltac realOps :=
  cbn [nltb nleb neqb nsub ndiv nadd nmul nabs nopp ofZ nan R_JSNumber] in *.

Lemma floorUpTo_bounds (bound : nat) (x : R) :
  (0 <= floorUpTo bound x <= Z.of_nat bound)%Z.
Proof.
  induction bound as [|b IH]; [simpl; lia|].
  cbn [floorUpTo]. destruct (_ <=? x)%js; lia.
Qed.

Lemma floorUpTo_below (bound : nat) (x : R) :
  floorUpTo bound x = 0%Z \/ IZR (floorUpTo bound x) <= x.
Proof.
  induction bound as [|b IH]; [left; reflexivity|].
  cbn [floorUpTo]. destruct (_ <=? x)%js eqn:E; [| exact IH].
  right. realOps. apply Rleb_true in E. exact E.
Qed.

Lemma floorUpTo_monotone (bound : nat) (x y : R) :
  x <= y -> (floorUpTo bound x <= floorUpTo bound y)%Z.
Proof.
  intros Hxy. induction bound as [|b IH]; [simpl; lia|].
  cbn [floorUpTo].
  destruct (_ <=? x)%js eqn:Ex; destruct (_ <=? y)%js eqn:Ey; realOps.
  - lia.
  - apply Rleb_true in Ex.
    assert (Hy : Rleb (IZR (Z.of_nat (S b))) y = true)
      by (apply Rleb_true; lra).
    rewrite Hy in Ey. discriminate.
  - pose proof (floorUpTo_bounds b x). lia.
  - exact IH.
Qed.

Lemma numAt_nth_error (l : list R) (i : Z) :
  (0 <= i < len l)%Z ->
  exists x, nth_error l (Z.to_nat i) = Some x /\ numAt l i = x.
Proof.
  intros Hi. unfold numAt, atIndex.
  destruct (i <? 0)%Z eqn:E; [apply Z.ltb_lt in E; lia|].
  destruct (nth_error l (Z.to_nat i)) as [x|] eqn:Ex.
  - exists x. split; reflexivity.
  - apply nth_error_None in Ex. unfold len in Hi. lia.
Qed.

(** The two percentile indices of a non-empty sorted series. *)
Lemma percentile_indices (sortedPharynx : list R) :
  (0 < len sortedPharynx)%Z ->
  (0 <= p5Index sortedPharynx <= p95Index sortedPharynx)%Z /\
  (p95Index sortedPharynx < len sortedPharynx)%Z.
Proof.
  intros Hlen. unfold p5Index, p95Index, dec. realOps.
  assert (Hn : 0 < IZR (len sortedPharynx)) by (apply IZR_lt; assumption).
  replace (10 ^ Z.of_nat 2)%Z with 100%Z by reflexivity.
  split; [split|].
  - apply floorUpTo_bounds.
  - apply floorUpTo_monotone. nra.
  - destruct (floorUpTo_below (length sortedPharynx)
                (IZR (len sortedPharynx) * (95 / 100))) as [-> | Hle].
    + assumption.
    + apply lt_IZR. lra.
Qed.

Lemma percentiles_in_order (samples : list R) :
  samples <> [] ->
  percentile5 samples <= percentile95 samples /\
  In (percentile5 samples) samples /\ In (percentile95 samples) samples.
Proof.
  intros Hne. unfold percentile5, percentile95.
  destruct (sortAscending_fold samples (FOP_nil Rle)) as (Hsorted & Hperm).
  fold (sortAscending samples) in Hsorted, Hperm. simpl in Hperm.
  assert (Hlen : (0 < len (sortAscending samples))%Z).
  { unfold len. rewrite (Permutation_length Hperm).
    destruct samples; [contradiction | simpl; lia]. }
  destruct (@percentile_indices _ Hlen) as ((H0 & H5) & H95).
  destruct (@numAt_nth_error (sortAscending samples)
              (p5Index (sortAscending samples))) as (x & Hx & ->); [lia|].
  destruct (@numAt_nth_error (sortAscending samples)
              (p95Index (sortAscending samples))) as (y & Hy & ->); [lia|].
  split; [| split].
  - destruct (Z.eq_dec (p5Index (sortAscending samples))
                       (p95Index (sortAscending samples))) as [E | Hneq].
    + rewrite E in Hx. rewrite Hx in Hy. injection Hy as ->. lra.
    + apply (ForallOrdPairs_nth Hsorted
               (i := Z.to_nat (p5Index (sortAscending samples)))
               (j := Z.to_nat (p95Index (sortAscending samples))));
        [lia | assumption | assumption].
  - apply (Permutation_in _ Hperm). eapply nth_error_In. exact Hx.
  - apply (Permutation_in _ Hperm). eapply nth_error_In. exact Hy.
Qed.

Lemma minOf_below (a b : R) : minOf a b <= a /\ minOf a b <= b.
Proof.
  unfold minOf, isNaN. realOps.
  assert (Ea : Reqb a a = true)
    by (unfold Reqb; destruct (Req_dec_T a a); [reflexivity | contradiction]).
  assert (Eb : Reqb b b = true)
    by (unfold Reqb; destruct (Req_dec_T b b); [reflexivity | contradiction]).
  rewrite Ea, Eb. simpl.
  destruct (Rltb b a) eqn:E.
  - apply Rltb_true in E. lra.
  - apply Rltb_false in E.
    unfold Reqb. destruct (Req_dec_T a b) as [-> | Hneq]; simpl.
    + destruct (Rltb _ _); lra.
    + lra.
Qed.

Lemma fold_minOf_below (r : list R) :
  forall x,
    fold_left minOf r x <= x /\
    forall y, In y r -> fold_left minOf r x <= y.
Proof.
  induction r as [|z r IH]; intros x; simpl.
  - split; [lra | intros y []].
  - destruct (IH (minOf x z)) as (H1 & H2).
    destruct (minOf_below x z) as (Hx & Hz).
    split; [lra|]. intros y [<- | Hy]; [lra | apply H2, Hy].
Qed.

Lemma Math_min_below (l : list R) (y : R) : In y l -> Math_min l <= y.
Proof.
  destruct l as [|x r]; [contradiction|]. unfold Math_min.
  destruct (fold_minOf_below r x) as (H1 & H2).
  intros [<- | Hy]; [assumption | apply H2, Hy].
Qed.

(** X14. In exact arithmetic the 5th percentile of a cycle's pharynx
    z-scores is not above the 95th.  When the 95th percentile is negative the
    reported PCR is at least 1; otherwise, unless both percentiles are 0, it
    lies between 0 and 1. *)
Theorem pcr_range
    (startFrame endFrame : Z) (processedData : list (Row R)) (cycleNumber : Z) :
  pharynxSamples processedData startFrame endFrame <> [] ->
  exists p,
    extractCycleParameters startFrame endFrame processedData cycleNumber
    = Parameters p /\
    PCR_p5 p <= PCR_p95 p /\
    (PCR_p95 p < 0 -> 1 <= PCR p) /\
    (0 <= PCR_p95 p -> PCR_p5 p <> 0 \/ PCR_p95 p <> 0 -> 0 <= PCR p <= 1).
Proof.
  intros Hne.
  destruct (pharynx_sample_gives_parameters startFrame endFrame processedData
              cycleNumber Hne)
    as (p & Hp & H5 & H95 & Hpcr & Hadj & _).
  exists p. split; [assumption|].
  destruct (percentiles_in_order Hne) as (Hle & Hin5 & _).
  pose proof (@Math_min_below _ _ Hin5) as Hmin.
  rewrite <- H5 in Hle, Hmin. rewrite <- H95 in Hle.
  set (samples := pharynxSamples processedData startFrame endFrame) in *.
  clearbody samples. clear Hp H5 H95 Hin5 Hne.
  rewrite Hpcr. unfold adjustPercentiles, dec in Hadj. realOps.
  replace (10 ^ Z.of_nat 1)%Z with 10%Z in Hadj by reflexivity.
  split; [assumption|].
  destruct (Rltb (PCR_p95 p) 0) eqn:E95; destruct (Rltb (PCR_p5 p) 0) eqn:E5;
    simpl in Hadj; injection Hadj as -> ->;
    try apply Rltb_true in E95; try apply Rltb_false in E95;
    try apply Rltb_true in E5; try apply Rltb_false in E5.
  - split; [| intros; lra]. intros _.
    rewrite !Rabs_left by lra.
    apply (Rmult_le_reg_r (- PCR_p95 p)); [lra|].
    unfold Rdiv. rewrite Rmult_assoc, Rinv_l by lra. lra.
  - lra.
  - split; [intros; lra|]. intros _ _.
    assert (Hoff : 0 < PCR_p5 p + (Rabs (Math_min samples) + 1 / 10)).
    { rewrite Rabs_left by lra. lra. }
    split.
    + apply Rmult_le_pos; [lra|]. apply Rlt_le, Rinv_0_lt_compat. lra.
    + apply (Rmult_le_reg_r (PCR_p95 p + (Rabs (Math_min samples) + 1 / 10)));
        [lra|].
      unfold Rdiv. rewrite Rmult_assoc, Rinv_l by lra. lra.
  - split; [intros; lra|]. intros _ Hnz.
    assert (Hpos : 0 < PCR_p95 p) by (destruct Hnz; lra).
    split.
    + apply Rmult_le_pos; [lra|]. apply Rlt_le, Rinv_0_lt_compat. lra.
    + apply (Rmult_le_reg_r (PCR_p95 p)); [lra|].
      unfold Rdiv. rewrite Rmult_assoc, Rinv_l by lra. lra.
Qed.

End ExactPercentiles.

(** Three frames with pharynx z-scores -8, -2 and -5. *)
Definition exactPharynxRows : list (Row R) :=
  map (fun z : R =>
         {| frame := 0;
            smoothed := fun _ => None;
            normalized := fun _ => None;
            zscore := fun p => if Param_eqb p Ppharynx then Some z else None;
            row_cycleNumber := None;
            row_startFrame := None;
            row_endFrame := None |})
      [(-8)%R; (-2)%R; (-5)%R].

Lemma pcr_range_witness :
  exists p,
    extractCycleParameters 0 2 exactPharynxRows 1 = Parameters p /\
    (PCR_p5 p <= PCR_p95 p)%R /\
    ((PCR_p95 p < 0)%R -> (1 <= PCR p)%R) /\
    ((0 <= PCR_p95 p)%R -> PCR_p5 p <> 0%R \/ PCR_p95 p <> 0%R ->
     (0 <= PCR p <= 1)%R).
Proof.
  apply (@pcr_range 0 2 exactPharynxRows 1).
  unfold pharynxSamples, slice. simpl. discriminate.
Defined.

(** ** Smoothing and standardization in exact arithmetic *)

Section ExactSmoothing.

Variable Math_exp : R -> R.
Hypothesis Math_exp_positive : forall x : R, (0 < Math_exp x)%R.

Local Open Scope R_scope.

Ltac realOps :=
  cbn [nltb nleb neqb nsub ndiv nadd nmul nabs nopp ofZ nan R_JSNumber] in *.

(** A sample read as an operand ([null] as 0) lies between [lo] and [hi]. *)
Definition within (lo hi : R) (v : option R) : Prop :=
  lo <= ToNumber v <= hi.

Lemma valAt_within (lo hi : R) (data : list (option R)) (idx : Z) :
  Forall (within lo hi) data -> (0 <= idx < len data)%Z ->
  lo <= valAt data idx <= hi.
Proof.
  intros Hdata Hidx. unfold valAt, atIndex.
  destruct (idx <? 0)%Z eqn:E; [apply Z.ltb_lt in E; lia|].
  destruct (nth_error data (Z.to_nat idx)) as [v|] eqn:Ev.
  - rewrite Forall_forall in Hdata. apply Hdata.
    eapply nth_error_In. exact Ev.
  - apply nth_error_None in Ev. unfold len in Hidx. lia.
Qed.

(** A running pair (weighted sum, sum of weights) of values in [lo, hi]. *)
Definition averaging (lo hi : R) (acc : R * R) : Prop :=
  0 <= snd acc /\ lo * snd acc <= fst acc <= hi * snd acc.

Lemma weighted_fold (lo hi : R) (step : R * R -> Z -> R * R)
    (counted : Z -> Prop) :
  (forall acc j, averaging lo hi acc ->
                 snd acc <= snd (step acc j) /\
                 averaging lo hi (step acc j) /\
                 (counted j -> 0 < snd (step acc j))) ->
  forall js acc,
    averaging lo hi acc ->
    snd acc <= snd (fold_left step js acc) /\
    averaging lo hi (fold_left step js acc) /\
    (forall j, In j js -> counted j -> 0 < snd (fold_left step js acc)).
Proof.
  intros Hstep. induction js as [|j js IH]; intros acc Hacc; simpl.
  - split; [lra|]. split; [assumption | intros j []].
  - destruct (Hstep acc j Hacc) as (Hmono & Hacc' & Hpos).
    destruct (IH (step acc j) Hacc') as (Hmono' & Hres & Hpos').
    split; [lra|]. split; [assumption|].
    intros k [<- | Hk] Hcounted.
    + specialize (Hpos Hcounted). lra.
    + apply (Hpos' k); assumption.
Qed.

Lemma smoothAt_within (lo hi : R) (data : list (option R))
    (halfWindow i : Z) :
  Forall (within lo hi) data ->
  (0 <= halfWindow)%Z -> (0 <= i < len data)%Z ->
  lo <= smoothAt Math_exp data halfWindow i <= hi.
Proof.
  intros Hdata Hhalf Hi. unfold smoothAt.
  match goal with
  | |- context [fold_left ?step0 ?js0 ?acc0] =>
      assert (Hfold :
                snd acc0 <= snd (fold_left step0 js0 acc0) /\
                averaging lo hi (fold_left step0 js0 acc0) /\
                (forall j, In j js0 -> (0 <= i + j < len data)%Z ->
                           0 < snd (fold_left step0 js0 acc0)));
      [apply (@weighted_fold lo hi step0
                (fun j => (0 <= i + j < len data)%Z))
      | set (sums := fold_left step0 js0 acc0) in * ]
  end.
  - intros acc j (Hw & Hs). cbv beta zeta.
    destruct ((0 <=? i + j)%Z && (i + j <? len data)%Z) eqn:E.
    + apply andb_true_iff in E. destruct E as (E1 & E2).
      apply Z.leb_le in E1. apply Z.ltb_lt in E2.
      pose proof (@valAt_within lo hi data (i + j) Hdata (conj E1 E2)) as Hv.
      match goal with
      | |- context [Math_exp ?x] =>
          pose proof (Math_exp_positive x) as Hexp;
          set (weight := Math_exp x) in *
      end.
      unfold averaging. realOps. cbn [fst snd].
      repeat split; try lra; try nra.
    + unfold averaging. repeat split; try lra.
      intros Hin. apply andb_false_iff in E.
      destruct E as [E | E];
        [apply Z.leb_gt in E | apply Z.ltb_ge in E]; lia.
  - unfold averaging. realOps. cbn [fst snd]. lra.
  - destruct Hfold as (_ & (_ & Hsum) & Hpos).
    assert (Hweights : 0 < snd sums)
      by (apply (Hpos 0%Z); [apply range_In; lia | lia]).
    realOps. split.
    + apply (Rmult_le_reg_r (snd sums)); [assumption|].
      unfold Rdiv. rewrite Rmult_assoc, Rinv_l by lra. lra.
    + apply (Rmult_le_reg_r (snd sums)); [assumption|].
      unfold Rdiv. rewrite Rmult_assoc, Rinv_l by lra. lra.
Qed.

(** X15. In exact arithmetic, with a positive [Math.exp] and a window of at
    least 2 frames (so that the half window is not 0 and no weight divides
    by 0), the filter is a weighted average: if every sample, read as an
    operand (null as 0), lies between [lo] and [hi], so does every element
    of the result. *)
Theorem smoothing_stays_within_the_data
    (data : list (option R)) (windowSize : Z) (lo hi : R) :
  (2 <= windowSize)%Z ->
  Forall (within lo hi) data ->
  Forall (within lo hi) (savitzkyGolayFilter Math_exp data windowSize).
Proof.
  intros Hw Hdata. unfold savitzkyGolayFilter.
  destruct (len data <? windowSize)%Z; [assumption|].
  rewrite Forall_forall. intros v Hv.
  apply in_map_iff in Hv. destruct Hv as (i & <- & Hi).
  apply In_range in Hi. unfold within. cbn [ToNumber].
  apply smoothAt_within; [assumption | | lia].
  apply Z.div_pos; lia.
Qed.

End ExactSmoothing.

Section ExactStandardization.

Local Open Scope R_scope.

(** X16. In exact arithmetic the standard deviation of a group is always
    positive (never the zero divisor), and the standardization keeps the
    order of the normalized values of the group. *)
Theorem standardization_keeps_the_order
    (paramNames : list Param) (data : list (Row R)) :
  let stats := calculateGroupZScore paramNames data in
  0 < stdDev stats /\
  forall v w : R, v < w -> standardized stats v < standardized stats w.
Proof.
  intros stats.
  assert (Hsd : 0 < stdDev stats).
  { unfold stats, calculateGroupZScore.
    destruct (len _ =? 0)%Z; cbn [stdDev ofZ R_JSNumber]; [lra|].
    cbn [nltb nsqrt R_JSNumber].
    destruct (Rltb 0 _) eqn:E; [apply Rltb_true in E; exact E | lra]. }
  split; [assumption|].
  intros v w Hvw. unfold standardized. cbn [nsub ndiv R_JSNumber].
  unfold Rdiv. apply Rmult_lt_compat_r; [| lra].
  apply Rinv_0_lt_compat. assumption.
Qed.

End ExactStandardization.

Lemma smoothing_stays_within_the_data_witness :
  Forall (within 0 3)
         (savitzkyGolayFilter exp
            [Some 1%R; None; Some 3%R; Some 2%R; Some 2%R] 5).
Proof.
  apply (@smoothing_stays_within_the_data exp exp_pos
           [Some 1%R; None; Some 3%R; Some 2%R; Some 2%R] 5 0%R 3%R).
  - lia.
  - repeat (apply Forall_cons || apply Forall_nil);
      unfold within; simpl; lra.
Defined.

(** * The callers in the component

    [handleAdvancedAnalysis] (App.tsx 1173-1263) and the [normalizedData]
    memo (1763-1822), from the point where [summary.signals.areas] is known
    to be present.  The state setters, the logs and the CSV download are
    left out: what is modelled is the value passed to [setAdvancedData]. *)

Section Component.

Context {num : Type} `{JSNumber num}.
Variable Math_exp : num -> num.

Local Open Scope js_scope.

(** Lines 1185-1187 and 1769-1771:
    [areas.map(area => area.c2c4_length).filter(length => length !== null && length > 0)] *)
Definition validC2C4Lengths (areas : list (Area num)) : list num :=
  filterNotNull
    (filter (fun length => isNotNull length && (ToNumber length >? ofZ 0))
            (map (@c2c4_length num) areas)).

(** Lines 1195-1199 and 1776-1780: the median of a non-empty list. *)
Definition medianOf (lengths : list num) : num :=
  let sortedLengths := sortAscending lengths in
  let midIndex := (len sortedLengths / 2)%Z in
  if (len sortedLengths mod 2 =? 0)%Z then
    (numAt sortedLengths (midIndex - 1) + numAt sortedLengths midIndex)
    / ofZ 2
  else numAt sortedLengths midIndex.

(** [summary.fps || 30] *)
Definition fpsOr30 (fps : option num) : num :=
  if truthy fps then ToNumber fps else ofZ 30.

(** The negation of the test of line 1218: the result is the analysis
    object and its [cycles] are not empty. *)
Definition hasCycles (d : Detection num) : bool :=
  match d with
  | EmptyArray => false
  | Analysis a => negb (len (cycles a) =? 0)%Z
  end.

(** What the handler leaves in the state: the error of line 1192, caught at
    line 1245 ([advancedData] is null), or [{...processedData,
    swallowingAnalysis}]. *)
Inductive AdvancedOutcome : Type :=
| AnalysisFailed
| AdvancedData (processed : Processed num) (swallowingAnalysis : Detection num).

Definition handleAdvancedAnalysis (areas : list (Area num))
    (fps : option num) : AdvancedOutcome :=
  let validLengths := validC2C4Lengths areas in
  if (len validLengths =? 0)%Z then AnalysisFailed
  else
    let reference := medianOf validLengths in
    let processed := processAdvancedData Math_exp areas reference in
    let zscoreBolusPharynxOverlap :=
      map (@zscore_bolus_pharynx_overlap num) (processedData processed) in
    let swallowingAnalysis :=
      detectSwallowingCycles Math_exp zscoreBolusPharynxOverlap
        (processedData processed) (fpsOr30 fps) (dec 3 1) 15 in
    if hasCycles swallowingAnalysis then
      AdvancedData processed swallowingAnalysis
    else
      let relaxedAnalysis :=
        detectSwallowingCycles Math_exp zscoreBolusPharynxOverlap
          (processedData processed) (fpsOr30 fps) (dec 1 1) 10 in
      if hasCycles relaxedAnalysis then AdvancedData processed relaxedAnalysis
      else AdvancedData processed swallowingAnalysis.

(** The [normalized_] properties the memo adds to one area (lines 1783-1815);
    it adds none for [bolus], which reads [undefined], here [None]. *)
Definition normalizeArea (reference : num) (area : Area num)
    : Param -> option num :=
  if negb (truthy (c2c4_length area))
     || (ToNumber (c2c4_length area) <=? ofZ 0)
  then fun _ => None
  else
    let scaleFactor := reference / ToNumber (c2c4_length area) in
    let scaleFactorSquared := scaleFactor * scaleFactor in
    fun p =>
      match p with
      | Phyoid_c4_distance =>
          option_map (fun d => d * scaleFactorSquared) (hyoid_c4_distance area)
      | Pues_length =>
          option_map (fun d => d * scaleFactorSquared) (ues_length area)
      | Ppharynx => Some (ToNumber (pharynx area) * scaleFactor)
      | Pvestibule => Some (ToNumber (vestibule area) * scaleFactor)
      | Pbolus_pharynx_overlap =>
          Some (ToNumber (bolus_pharynx_overlap area) * scaleFactor)
      | Pbolus_vestibule_overlap =>
          Some (ToNumber (bolus_vestibule_overlap area) * scaleFactor)
      | Pbolus => None
      end.

Record NormalizedAreas : Type := {
  nd_reference : num;
  nd_areas : list (Area num * (Param -> option num))
}.

(** The memo: [null] without a valid length. *)
Definition normalizedData (areas : list (Area num)) : option NormalizedAreas :=
  let validLengths := validC2C4Lengths areas in
  if (len validLengths =? 0)%Z then None
  else
    let reference := medianOf validLengths in
    Some {| nd_reference := reference;
            nd_areas :=
              map (fun area => (area, normalizeArea reference area)) areas |}.

End Component.

Arguments AdvancedOutcome num : clear implicits.
Arguments NormalizedAreas num : clear implicits.

Section ComponentProperties.

Context {num : Type} `{JSNumber num}.
Variable Math_exp : num -> num.

Local Open Scope js_scope.

Lemma handleAdvancedAnalysis_cases (areas : list (Area num))
    (fps : option num) :
  let reference := medianOf (validC2C4Lengths areas) in
  let processed := processAdvancedData Math_exp areas reference in
  let driver :=
    map (@zscore_bolus_pharynx_overlap num) (processedData processed) in
  let first :=
    detectSwallowingCycles Math_exp driver (processedData processed)
                           (fpsOr30 fps) (dec 3 1) 15 in
  let relaxed :=
    detectSwallowingCycles Math_exp driver (processedData processed)
                           (fpsOr30 fps) (dec 1 1) 10 in
  (validC2C4Lengths areas = [] /\
   handleAdvancedAnalysis Math_exp areas fps = AnalysisFailed) \/
  (validC2C4Lengths areas <> [] /\
   ((hasCycles first = true /\
     handleAdvancedAnalysis Math_exp areas fps = AdvancedData processed first) \/
    (hasCycles first = false /\ hasCycles relaxed = true /\
     handleAdvancedAnalysis Math_exp areas fps
     = AdvancedData processed relaxed) \/
    (hasCycles first = false /\ hasCycles relaxed = false /\
     handleAdvancedAnalysis Math_exp areas fps
     = AdvancedData processed first))).
Proof.
  intros reference processed driver first relaxed.
  unfold handleAdvancedAnalysis.
  destruct (len (validC2C4Lengths areas) =? 0)%Z eqn:E.
  - left. split; [apply len_zero_nil; assumption | reflexivity].
  - right. split.
    + intros Enil. rewrite Enil in E. discriminate.
    + cbv zeta. fold reference. fold processed. fold driver.
      fold first. fold relaxed.
      destruct (hasCycles first) eqn:E1; [left; split; reflexivity|].
      right. destruct (hasCycles relaxed) eqn:E2.
      * left. repeat split.
      * right. repeat split.
Qed.

Lemma hasCycles_cyclesOf (d : Detection num) :
  hasCycles d = false <-> cyclesOf d = [].
Proof.
  destruct d as [|a]; simpl.
  - split; reflexivity.
  - destruct (cycles a) as [|c cs]; simpl.
    + split; reflexivity.
    + split; [| discriminate].
      unfold len. simpl length.
      destruct (Z.of_nat (S (length cs)) =? 0)%Z eqn:E;
        [apply Z.eqb_eq in E; lia | discriminate].
Qed.

(** X17. The chart normalization and the advanced analysis agree: the memo
    is null exactly when the handler fails, which is exactly when no frame
    has a positive C2-C4 length; otherwise both use the same reference, the
    median of the positive lengths, the processed data is
    [processAdvancedData] of the whole recording with that reference, and
    both keep one entry per frame. *)
Theorem chart_and_analysis_share_the_reference
    (areas : list (Area num)) (fps : option num) :
  match handleAdvancedAnalysis Math_exp areas fps, normalizedData areas with
  | AnalysisFailed, None => validC2C4Lengths areas = []
  | AdvancedData processed _, Some nd =>
      validC2C4Lengths areas <> [] /\
      reference processed = medianOf (validC2C4Lengths areas) /\
      nd_reference nd = reference processed /\
      processed = processAdvancedData Math_exp areas (reference processed) /\
      length (processedData processed) = length areas /\
      length (nd_areas nd) = length areas
  | _, _ => False
  end.
Proof.
  destruct (handleAdvancedAnalysis_cases areas fps)
    as [(Enil & ->) | (Hne & [(_ & ->) | [(_ & _ & ->) | (_ & _ & ->)]])];
    unfold normalizedData.
  - rewrite Enil. reflexivity.
  - destruct (len (validC2C4Lengths areas) =? 0)%Z eqn:E;
      [apply len_zero_nil in E; contradiction|].
    cbn [nd_reference nd_areas reference].
    rewrite length_processedData, length_map. repeat split. assumption.
  - destruct (len (validC2C4Lengths areas) =? 0)%Z eqn:E;
      [apply len_zero_nil in E; contradiction|].
    cbn [nd_reference nd_areas reference].
    rewrite length_processedData, length_map. repeat split. assumption.
  - destruct (len (validC2C4Lengths areas) =? 0)%Z eqn:E;
      [apply len_zero_nil in E; contradiction|].
    cbn [nd_reference nd_areas reference].
    rewrite length_processedData, length_map. repeat split. assumption.
Qed.

(** X18. The relaxed detection (threshold 0.1, minimum length 10) is only a
    fallback: the stored analysis is the default one (0.3, 15) whenever that
    one has a cycle, and the relaxed one only when the default has none and
    the relaxed has one.  When the stored analysis has no cycle neither
    attempt found one, and it is the bare empty array only for a recording
    of fewer than 15 frames. *)
Theorem relaxed_detection_is_a_fallback
    (areas : list (Area num)) (fps : option num)
    (processed : Processed num) (analysis : Detection num) :
  handleAdvancedAnalysis Math_exp areas fps = AdvancedData processed analysis ->
  let rows := processedData processed in
  let driver := map (@zscore_bolus_pharynx_overlap num) rows in
  let first :=
    detectSwallowingCycles Math_exp driver rows (fpsOr30 fps) (dec 3 1) 15 in
  let relaxed :=
    detectSwallowingCycles Math_exp driver rows (fpsOr30 fps) (dec 1 1) 10 in
  (cyclesOf first <> [] -> analysis = first) /\
  (cyclesOf first = [] -> cyclesOf relaxed <> [] -> analysis = relaxed) /\
  (cyclesOf analysis = [] ->
   cyclesOf first = [] /\ cyclesOf relaxed = [] /\ analysis = first) /\
  (analysis = EmptyArray -> (len areas < 15)%Z).
Proof.
  intros Hrun rows driver first relaxed.
  assert (Hshort : first = EmptyArray -> (len areas < 15)%Z).
  { unfold first, detectSwallowingCycles.
    destruct (len driver <? 15)%Z eqn:E; [| discriminate].
    intros _. apply Z.ltb_lt in E. unfold driver, rows, len in E.
    rewrite length_map in E.
    destruct (handleAdvancedAnalysis_cases areas fps)
      as [(_ & Ef) | (_ & [(_ & Ef) | [(_ & _ & Ef) | (_ & _ & Ef)]])];
      rewrite Ef in Hrun; try discriminate;
      injection Hrun as <- _; rewrite length_processedData in E;
      unfold len; exact E. }
  assert (Hfirst : hasCycles first = false <-> cyclesOf first = [])
    by apply hasCycles_cyclesOf.
  assert (Hrelaxed : hasCycles relaxed = false <-> cyclesOf relaxed = [])
    by apply hasCycles_cyclesOf.
  assert (Hcases :
            (hasCycles first = true /\ analysis = first) \/
            (hasCycles first = false /\ hasCycles relaxed = true /\
             analysis = relaxed) \/
            (hasCycles first = false /\ hasCycles relaxed = false /\
             analysis = first)).
  { unfold first, relaxed, driver, rows.
    destruct (handleAdvancedAnalysis_cases areas fps)
      as [(_ & Ef) | (_ & [(E1 & Ef) | [(E1 & E2 & Ef) | (E1 & E2 & Ef)]])];
      rewrite Ef in Hrun; try discriminate;
      injection Hrun as <- <-; auto. }
  clearbody first relaxed. clear Hrun.
  destruct Hcases as [(E1 & ->) | [(E1 & E2 & ->) | (E1 & E2 & ->)]].
  - assert (Hne : cyclesOf first <> [])
      by (intros Hc; apply Hfirst in Hc; rewrite Hc in E1; discriminate).
    split; [intros _; reflexivity|].
    split; [intros Hc; contradiction|].
    split; [intros Hc; contradiction | assumption].
  - assert (Hne : cyclesOf relaxed <> [])
      by (intros Hc; apply Hrelaxed in Hc; rewrite Hc in E2; discriminate).
    apply Hfirst in E1.
    split; [intros Hc; contradiction|].
    split; [reflexivity|].
    split; [intros Hc; contradiction|].
    intros Hc. rewrite Hc in Hne. contradiction Hne. reflexivity.
  - apply Hfirst in E1. apply Hrelaxed in E2.
    split; [intros Hc; contradiction|].
    split; [intros _ Hc; contradiction|].
    split; [intros _; repeat split; assumption | assumption].
Qed.

End ComponentProperties.

Lemma relaxed_detection_is_a_fallback_witness :
  exists processed,
    handleAdvancedAnalysis exp_table (thresholdAreas 0.2%float) (Some 30%float)
    = AdvancedData processed EmptyArray /\
    (len (thresholdAreas 0.2%float) < 15)%Z.
Proof.
  assert (Hrun : exists processed,
             handleAdvancedAnalysis exp_table (thresholdAreas 0.2%float)
                                    (Some 30%float)
             = AdvancedData processed EmptyArray)
    by (eexists; vm_compute; reflexivity).
  destruct Hrun as (processed & Hrun).
  exists processed. split; [exact Hrun|].
  destruct (@relaxed_detection_is_a_fallback float _ exp_table
              (thresholdAreas 0.2%float) (Some 30%float) processed EmptyArray
              Hrun)
    as (_ & _ & _ & Hshort).
  apply Hshort. reflexivity.
Defined.

(** ** The reference length in exact arithmetic *)

Section ExactMedian.

Local Open Scope R_scope.

Ltac realOps :=
  cbn [nltb nleb neqb nsub ndiv nadd nmul nabs nopp ofZ nan R_JSNumber] in *.

Lemma Permutation_filter_length (p : R -> bool) (l m : list R) :
  Permutation l m -> length (filter p l) = length (filter p m).
Proof.
  induction 1 as [| x l m _ IH | x y l | l m k _ IH1 _ IH2]; simpl.
  - reflexivity.
  - destruct (p x); simpl; lia.
  - destruct (p x), (p y); reflexivity.
  - lia.
Qed.

Lemma count_prefix (p : R -> bool) (s : list R) :
  forall k : nat,
    (k <= length s)%nat ->
    (forall i x, (i < k)%nat -> nth_error s i = Some x -> p x = true) ->
    (k <= length (filter p s))%nat.
Proof.
  induction s as [|a s IH]; intros k Hk Hall; simpl in *.
  - lia.
  - destruct k as [|k]; [lia|].
    rewrite (Hall 0%nat a) by (lia || reflexivity). simpl.
    apply le_n_S, IH; [lia|].
    intros i x Hi Hx. apply (Hall (S i) x); [lia | exact Hx].
Qed.

Lemma count_suffix (p : R -> bool) (s : list R) :
  forall k : nat,
    (forall i x, (k <= i)%nat -> nth_error s i = Some x -> p x = true) ->
    (length s - k <= length (filter p s))%nat.
Proof.
  induction s as [|a s IH]; intros k Hall; simpl in *.
  - lia.
  - destruct k as [|k].
    + rewrite (Hall 0%nat a) by (lia || reflexivity). simpl.
      assert (Hrest : (length s - 0 <= length (filter p s))%nat).
      { apply IH. intros i x _ Hx. apply (Hall (S i) x); [lia | exact Hx]. }
      lia.
    + assert (Hrest : (length s - k <= length (filter p s))%nat).
      { apply IH. intros i x Hi Hx. apply (Hall (S i) x); [lia | exact Hx]. }
      destruct (p a); simpl; lia.
Qed.

Lemma sorted_nth (s : list R) (i j : nat) (x y : R) :
  ForallOrdPairs Rle s -> (i <= j)%nat ->
  nth_error s i = Some x -> nth_error s j = Some y -> x <= y.
Proof.
  intros Hs Hij Hx Hy.
  destruct (Nat.eq_dec i j) as [-> | Hne].
  - rewrite Hx in Hy. injection Hy as ->. lra.
  - apply (ForallOrdPairs_nth Hs (i := i) (j := j)); [lia | assumption..].
Qed.

(** The two middle elements between which the median lies. *)
Lemma medianOf_middle (lengths : list R) :
  lengths <> [] ->
  exists (ia ib : nat) (a b : R),
    nth_error (sortAscending lengths) ia = Some a /\
    nth_error (sortAscending lengths) ib = Some b /\
    (ia <= ib)%nat /\
    (length lengths <= 2 * (ia + 1))%nat /\
    (length lengths <= 2 * (length lengths - ib))%nat /\
    a <= medianOf lengths <= b.
Proof.
  intros Hne. unfold medianOf.
  destruct (sortAscending_fold lengths (FOP_nil Rle)) as (Hsorted & Hperm).
  fold (sortAscending lengths) in Hsorted, Hperm. simpl in Hperm.
  pose proof (Permutation_length Hperm) as Hlength.
  set (s := sortAscending lengths) in *.
  assert (Hpos : (0 < length lengths)%nat)
    by (destruct lengths; [contradiction | simpl; lia]).
  assert (Hlen : len s = Z.of_nat (length lengths))
    by (unfold len; rewrite Hlength; reflexivity).
  cbv zeta. rewrite Hlen.
  set (n := Z.of_nat (length lengths)) in *.
  assert (Hn : (0 < n)%Z) by (unfold n; lia).
  pose proof (Z.div_mod n 2 ltac:(lia)) as Hdiv.
  pose proof (Z.mod_pos_bound n 2 ltac:(lia)) as Hmod.
  destruct (n mod 2 =? 0)%Z eqn:Eeven.
  - apply Z.eqb_eq in Eeven.
    destruct (@numAt_nth_error s (n / 2 - 1)) as (a & Ha & ->);
      [rewrite Hlen; fold n; lia|].
    destruct (@numAt_nth_error s (n / 2)) as (b & Hb & ->);
      [rewrite Hlen; fold n; lia|].
    exists (Z.to_nat (n / 2 - 1)), (Z.to_nat (n / 2)), a, b.
    assert (Hab : a <= b)
      by (apply (@sorted_nth s (Z.to_nat (n / 2 - 1)) (Z.to_nat (n / 2)));
          [assumption | lia | assumption..]).
    realOps. repeat split; try assumption; try lia; lra.
  - apply Z.eqb_neq in Eeven.
    destruct (@numAt_nth_error s (n / 2)) as (a & Ha & ->);
      [rewrite Hlen; fold n; lia|].
    exists (Z.to_nat (n / 2)), (Z.to_nat (n / 2)), a, a.
    repeat split; try assumption; try lia; lra.
Qed.

(** X19. In exact arithmetic the reference computed from a non-empty list of
    lengths is a median of it: at least half of the lengths are not above
    it and at least half are not below it; it lies between two of the
    lengths. *)
Theorem reference_is_a_median (lengths : list R) :
  lengths <> [] ->
  let m := medianOf lengths in
  (length lengths <= 2 * length (filter (fun x => Rleb x m) lengths))%nat /\
  (length lengths <= 2 * length (filter (fun x => Rleb m x) lengths))%nat /\
  exists lo hi, In lo lengths /\ In hi lengths /\ lo <= m <= hi.
Proof.
  intros Hne m.
  destruct (medianOf_middle Hne)
    as (ia & ib & a & b & Ha & Hb & Hab & Hhalf1 & Hhalf2 & Hm).
  fold m in Hm.
  destruct (sortAscending_fold lengths (FOP_nil Rle)) as (Hsorted & Hperm).
  fold (sortAscending lengths) in Hsorted, Hperm. simpl in Hperm.
  pose proof (Permutation_length Hperm) as Hlength.
  split; [| split].
  - rewrite <- (Permutation_filter_length _ Hperm).
    assert (Hcount : (ia + 1 <= length (filter (fun x => Rleb x m)
                                               (sortAscending lengths)))%nat).
    { apply count_prefix.
      - assert (ia < length (sortAscending lengths))%nat
          by (apply nth_error_Some; rewrite Ha; discriminate).
        lia.
      - intros i x Hi Hx. apply Rleb_true.
        assert (x <= a)
          by (apply (@sorted_nth (sortAscending lengths) i ia);
              [assumption | lia | assumption..]).
        lra. }
    lia.
  - rewrite <- (Permutation_filter_length _ Hperm).
    assert (Hcount : (length (sortAscending lengths) - ib
                      <= length (filter (fun x => Rleb m x)
                                        (sortAscending lengths)))%nat).
    { apply count_suffix.
      intros i x Hi Hx. apply Rleb_true.
      assert (b <= x)
        by (apply (@sorted_nth (sortAscending lengths) ib i);
            [assumption | lia | assumption..]).
      lra. }
    lia.
  - exists a, b. repeat split; try lra.
    + apply (Permutation_in _ Hperm). eapply nth_error_In. exact Ha.
    + apply (Permutation_in _ Hperm). eapply nth_error_In. exact Hb.
Qed.

Lemma validC2C4Lengths_positive (areas : list (Area R)) (x : R) :
  In x (validC2C4Lengths areas) -> 0 < x.
Proof.
  unfold validC2C4Lengths, filterNotNull. intros Hx.
  apply in_flat_map in Hx. destruct Hx as (v & Hv & Hx).
  apply filter_In in Hv. destruct Hv as (_ & Hv).
  destruct v as [y|]; [| contradiction].
  destruct Hx as [<- | []]. simpl in Hv. apply Rltb_true in Hv. exact Hv.
Qed.

(** X20. In exact arithmetic, when some frame has a positive C2-C4 length
    the analysis completes and its reference, the median of the positive
    lengths, is positive (the scale factors are well defined). *)
Theorem reference_is_positive
    (Math_exp : R -> R) (areas : list (Area R)) (fps : option R) :
  validC2C4Lengths areas <> [] ->
  exists processed analysis,
    handleAdvancedAnalysis Math_exp areas fps
    = AdvancedData processed analysis /\
    reference processed = medianOf (validC2C4Lengths areas) /\
    0 < reference processed.
Proof.
  intros Hne.
  destruct (medianOf_middle Hne)
    as (ia & ib & a & b & Ha & _ & _ & _ & _ & Hm).
  destruct (sortAscending_fold (validC2C4Lengths areas) (FOP_nil Rle))
    as (_ & Hperm).
  fold (sortAscending (validC2C4Lengths areas)) in Hperm. simpl in Hperm.
  assert (Hpos : 0 < a).
  { apply (@validC2C4Lengths_positive areas).
    apply (Permutation_in _ Hperm). eapply nth_error_In. exact Ha. }
  destruct (handleAdvancedAnalysis_cases Math_exp areas fps)
    as [(Enil & _) | (_ & [(_ & ->) | [(_ & _ & ->) | (_ & _ & ->)]])];
    [contradiction | ..];
    eexists; eexists; (split; [reflexivity|]);
    cbn [reference processAdvancedData]; (split; [reflexivity | lra]).
Qed.

End ExactMedian.

Lemma reference_is_a_median_witness :
  let m := medianOf [4%R; 1%R; 3%R] in
  (3 <= 2 * length (filter (fun x => Rleb x m) [4%R; 1%R; 3%R]))%nat /\
  (3 <= 2 * length (filter (fun x => Rleb m x) [4%R; 1%R; 3%R]))%nat /\
  exists lo hi, In lo [4%R; 1%R; 3%R] /\ In hi [4%R; 1%R; 3%R] /\
                (lo <= m <= hi)%R.
Proof.
  apply (@reference_is_a_median [4%R; 1%R; 3%R]). discriminate.
Defined.

Definition exactAreas : list (Area R) :=
  map (fun length : option R =>
         {| bolus_pharynx_overlap := Some 1%R;
            bolus_vestibule_overlap := Some 0%R;
            pharynx := Some 4%R;
            vestibule := Some 1%R;
            bolus := Some 2%R;
            hyoid_c4_distance := Some 3%R;
            ues_length := None;
            c2c4_length := length |})
      [Some 10%R; None; Some 12%R].

Lemma reference_is_positive_witness :
  exists processed analysis,
    handleAdvancedAnalysis exp exactAreas None
    = AdvancedData processed analysis /\
    reference processed = medianOf (validC2C4Lengths exactAreas) /\
    (0 < reference processed)%R.
Proof.
  apply (@reference_is_positive exp exactAreas None).
  unfold validC2C4Lengths, exactAreas. simpl.
  unfold Rltb. destruct (Rlt_dec 0 10); [discriminate | lra].
Defined.

(** * The special moments (App.tsx 1671-1760)

    The [calculateSpecialMoments] memo, from the point where
    [summary.signals.areas] is present.  A moment is its frame index and its
    name; the two URLs of a moment are built from the frame index and the
    job alone and are left out. *)

Section SpecialMoments.

Context {num : Type} `{JSNumber num}.

Local Open Scope js_scope.

(** The six [frame_name]s, in the order in which they are pushed. *)
Inductive MomentName : Type :=
| PharyngealSwallowStart
| AspirationPresent
| HyoidPeak
| PharynxMax
| PharynxMin
| PharyngealSwallowEnd.

Record SpecialMoment : Type := {
  frame_index : Z;
  frame_name : MomentName
}.

Definition moment (name : MomentName) (index : Z) : SpecialMoment :=
  {| frame_index := index; frame_name := name |}.

(** [areas.reduce((best, area, index) => pick(area, areas[best]) ? index : best, 0)] *)
Definition reduceIndex (pick : Area num -> Area num -> bool)
    (areas : list (Area num)) : Z :=
  fold_left
    (fun best ia =>
       match atIndex areas best with
       | Some bestArea => if pick (snd ia) bestArea then fst ia else best
       | None => best
       end)
    (combine (range 0 (len areas)) areas) 0%Z.

(** [area.bolus_pharynx_overlap > 0] *)
Definition overlapsPharynx (area : Area num) : bool :=
  ToNumber (bolus_pharynx_overlap area) >? ofZ 0.

(** [area.bolus_vestibule_overlap > 0] *)
Definition overlapsVestibule (area : Area num) : bool :=
  ToNumber (bolus_vestibule_overlap area) >? ofZ 0.

(** [area.bolus_pharynx_overlap === 0] *)
Definition noPharynxOverlap (area : Area num) : bool :=
  match bolus_pharynx_overlap area with
  | Some x => neqb x (ofZ 0)
  | None => false
  end.

Definition largerVestibuleOverlap (area best : Area num) : bool :=
  ToNumber (bolus_vestibule_overlap area)
  >? ToNumber (bolus_vestibule_overlap best).

(** Lines 1704-1707: no move as soon as one of the two distances is null. *)
Definition largerHyoidDistance (area best : Area num) : bool :=
  match hyoid_c4_distance area, hyoid_c4_distance best with
  | Some x, Some y => x >? y
  | _, _ => false
  end.

Definition largerPharynx (area best : Area num) : bool :=
  ToNumber (pharynx area) >? ToNumber (pharynx best).

Definition smallerPharynx (area best : Area num) : bool :=
  ToNumber (pharynx area) <? ToNumber (pharynx best).

(** 1. The first frame on which bolus and pharynx overlap. *)
Definition startMoment (areas : list (Area num)) : list SpecialMoment :=
  match findIndex overlapsPharynx areas with
  | Some firstOverlapIndex => [moment PharyngealSwallowStart firstOverlapIndex]
  | None => []
  end.

(** 2. The frame with the largest bolus-vestibule overlap, if positive. *)
Definition aspirationMoment (areas : list (Area num)) : list SpecialMoment :=
  let maxVestibuleOverlapIndex := reduceIndex largerVestibuleOverlap areas in
  match atIndex areas maxVestibuleOverlapIndex with
  | Some area =>
      if overlapsVestibule area
      then [moment AspirationPresent maxVestibuleOverlapIndex]
      else []
  | None => []
  end.

(** 3. The frame with the largest hyoid-C4 distance, if not null. *)
Definition hyoidMoment (areas : list (Area num)) : list SpecialMoment :=
  let maxHyoidDistanceIndex := reduceIndex largerHyoidDistance areas in
  match atIndex areas maxHyoidDistanceIndex with
  | Some area =>
      if isNotNull (hyoid_c4_distance area)
      then [moment HyoidPeak maxHyoidDistanceIndex]
      else []
  | None => []
  end.

(** 4. The frames with the largest and the smallest pharynx area. *)
Definition pharynxMoments (areas : list (Area num)) : list SpecialMoment :=
  [moment PharynxMax (reduceIndex largerPharynx areas);
   moment PharynxMin (reduceIndex smallerPharynx areas)].

(** 5. The first later frame on which the overlap is 0 again. *)
Definition endMoment (areas : list (Area num)) : list SpecialMoment :=
  match findIndex overlapsPharynx areas with
  | Some firstOverlapIndex =>
      match findIndex (fun ia => (firstOverlapIndex <? fst ia)%Z
                                 && noPharynxOverlap (snd ia))
                      (combine (range 0 (len areas)) areas) with
      | Some lastOverlapIndex => [moment PharyngealSwallowEnd lastOverlapIndex]
      | None => []
      end
  | None => []
  end.

(** On an empty recording [areas[0].bolus_vestibule_overlap] (line 1695)
    throws a TypeError: [None]. *)
Definition calculateSpecialMoments (areas : list (Area num))
    : option (list SpecialMoment) :=
  match areas with
  | [] => None
  | _ :: _ =>
      Some (startMoment areas ++ aspirationMoment areas ++ hyoidMoment areas
            ++ pharynxMoments areas ++ endMoment areas)
  end.

(** ** Properties *)

Lemma findIndex_spec (A : Type) (p : A -> bool) (l : list A) :
  forall i,
    findIndex p l = Some i ->
    (0 <= i < len l)%Z /\
    exists x, nth_error l (Z.to_nat i) = Some x /\ p x = true.
Proof.
  induction l as [|y l IH]; intros i E; simpl in E; [discriminate|].
  destruct (p y) eqn:Ey.
  - injection E as <-. split; [unfold len; simpl; lia|].
    exists y. split; [reflexivity | assumption].
  - destruct (findIndex p l) as [k|]; [| discriminate].
    injection E as <-.
    destruct (IH k eq_refl) as (Hk & x & Hx & Hp).
    split; [unfold len in *; simpl length; lia|].
    exists x. split; [| assumption].
    replace (Z.to_nat (k + 1)) with (S (Z.to_nat k)) by lia. exact Hx.
Qed.

Lemma nth_error_combine_range (A : Type) (l : list A) :
  forall lo k j x,
    nth_error (combine (range lo (lo + len l)) l) k = Some (j, x) ->
    j = (lo + Z.of_nat k)%Z /\ nth_error l k = Some x.
Proof.
  induction l as [|y l IH]; intros lo k j x E.
  - rewrite combine_nil in E. destruct k; discriminate.
  - rewrite range_cons in E by (unfold len; simpl length; lia).
    destruct k as [|k]; simpl in E.
    + injection E as <- <-. split; [lia | reflexivity].
    + replace (lo + len (y :: l))%Z with (lo + 1 + len l)%Z in E
        by (unfold len; simpl length; lia).
      apply IH in E. destruct E as (-> & E). split; [lia | exact E].
Qed.

Lemma atIndex_nth_error (A : Type) (l : list A) (i : Z) (x : A) :
  (0 <= i)%Z -> nth_error l (Z.to_nat i) = Some x -> atIndex l i = Some x.
Proof.
  intros Hi E. unfold atIndex.
  destruct (i <? 0)%Z eqn:Ei; [apply Z.ltb_lt in Ei; lia | exact E].
Qed.

(** An invariant of the index kept by a [reduce]. *)
Lemma reduceIndex_invariant (pick : Area num -> Area num -> bool)
    (areas : list (Area num)) (Q : Z -> Prop) :
  Q 0%Z ->
  (forall best bestArea i area,
      Q best -> atIndex areas best = Some bestArea ->
      (0 <= i)%Z -> nth_error areas (Z.to_nat i) = Some area ->
      pick area bestArea = true -> Q i) ->
  Q (reduceIndex pick areas).
Proof.
  intros H0 Hstep. unfold reduceIndex.
  assert (Hitems : forall ia, In ia (combine (range 0 (len areas)) areas) ->
                     (0 <= fst ia)%Z /\
                     nth_error areas (Z.to_nat (fst ia)) = Some (snd ia)).
  { intros (i & area) Hin.
    apply (@In_combine_range _ areas 0 i area) in Hin.
    replace (i - 0)%Z with i in Hin by lia. exact Hin. }
  revert Hitems. generalize (combine (range 0 (len areas)) areas).
  intros items Hitems.
  assert (Hfold : forall best, Q best ->
            Q (fold_left
                 (fun best ia =>
                    match atIndex areas best with
                    | Some bestArea =>
                        if pick (snd ia) bestArea then fst ia else best
                    | None => best
                    end)
                 items best)).
  { induction items as [|ia items IH]; intros best Hbest; simpl.
    - assumption.
    - apply IH; [intros ib Hib; apply Hitems; right; assumption|].
      destruct (atIndex areas best) as [bestArea|] eqn:Ebest; [| assumption].
      destruct (pick (snd ia) bestArea) eqn:Epick; [| assumption].
      destruct (Hitems ia (or_introl eq_refl)) as (Hi & Hnth).
      apply (Hstep best bestArea (fst ia) (snd ia)); assumption. }
  apply Hfold. assumption.
Qed.

Lemma reduceIndex_range (pick : Area num -> Area num -> bool)
    (areas : list (Area num)) :
  areas <> [] -> (0 <= reduceIndex pick areas < len areas)%Z.
Proof.
  intros Hne.
  apply (reduceIndex_invariant pick areas
           (fun best => (0 <= best < len areas)%Z)).
  - destruct areas; [contradiction | unfold len; simpl length; lia].
  - intros best bestArea i area _ _ Hi Hnth _.
    assert (Z.to_nat i < length areas)%nat
      by (apply nth_error_Some; rewrite Hnth; discriminate).
    unfold len. lia.
Qed.

(** A moment that names a frame of the recording. *)
Definition onFrame (areas : list (Area num)) (m : SpecialMoment) : Prop :=
  (0 <= frame_index m < len areas)%Z.

Lemma startMoment_spec (areas : list (Area num)) :
  (length (startMoment areas) <= 1)%nat /\
  Forall (onFrame areas) (startMoment areas) /\
  Forall (fun m => frame_name m = PharyngealSwallowStart) (startMoment areas).
Proof.
  unfold startMoment.
  destruct (findIndex overlapsPharynx areas) as [i|] eqn:E; simpl.
  - apply findIndex_spec in E. destruct E as (Hi & _).
    repeat split; try lia; repeat constructor; unfold onFrame; simpl; lia.
  - repeat split; try lia; constructor.
Qed.

Lemma aspirationMoment_spec (areas : list (Area num)) :
  areas <> [] ->
  (length (aspirationMoment areas) <= 1)%nat /\
  Forall (onFrame areas) (aspirationMoment areas) /\
  Forall (fun m => frame_name m = AspirationPresent) (aspirationMoment areas).
Proof.
  intros Hne. unfold aspirationMoment.
  pose proof (reduceIndex_range largerVestibuleOverlap Hne) as Hi.
  destruct (atIndex areas _) as [area|]; [| repeat split; simpl; try lia; constructor].
  destruct (overlapsVestibule area); simpl.
  - repeat split; try lia; repeat constructor; unfold onFrame; simpl; lia.
  - repeat split; try lia; constructor.
Qed.

Lemma hyoidMoment_spec (areas : list (Area num)) :
  areas <> [] ->
  (length (hyoidMoment areas) <= 1)%nat /\
  Forall (onFrame areas) (hyoidMoment areas) /\
  Forall (fun m => frame_name m = HyoidPeak) (hyoidMoment areas).
Proof.
  intros Hne. unfold hyoidMoment.
  pose proof (reduceIndex_range largerHyoidDistance Hne) as Hi.
  destruct (atIndex areas _) as [area|]; [| repeat split; simpl; try lia; constructor].
  destruct (isNotNull (hyoid_c4_distance area)); simpl.
  - repeat split; try lia; repeat constructor; unfold onFrame; simpl; lia.
  - repeat split; try lia; constructor.
Qed.

Lemma pharynxMoments_spec (areas : list (Area num)) :
  areas <> [] ->
  length (pharynxMoments areas) = 2%nat /\
  Forall (onFrame areas) (pharynxMoments areas) /\
  Forall (fun m => frame_name m = PharynxMax \/ frame_name m = PharynxMin)
         (pharynxMoments areas).
Proof.
  intros Hne. unfold pharynxMoments.
  pose proof (reduceIndex_range largerPharynx Hne) as Hmax.
  pose proof (reduceIndex_range smallerPharynx Hne) as Hmin.
  split; [reflexivity|]. split.
  - constructor; [unfold onFrame; simpl; lia|].
    constructor; [unfold onFrame; simpl; lia | constructor].
  - constructor; [left; reflexivity|].
    constructor; [right; reflexivity | constructor].
Qed.

(** The end of the pharyngeal phase, when it is reported. *)
Lemma endMoment_spec (areas : list (Area num)) :
  (length (endMoment areas) <= 1)%nat /\
  Forall (onFrame areas) (endMoment areas) /\
  Forall (fun m =>
            frame_name m = PharyngealSwallowEnd /\
            exists first area,
              startMoment areas = [moment PharyngealSwallowStart first] /\
              (first < frame_index m)%Z /\
              atIndex areas (frame_index m) = Some area /\
              noPharynxOverlap area = true)
         (endMoment areas).
Proof.
  unfold endMoment, startMoment.
  destruct (findIndex overlapsPharynx areas) as [first|];
    [| repeat split; simpl; try lia; constructor].
  destruct (findIndex _ (combine _ _)) as [last|] eqn:E;
    [| repeat split; simpl; try lia; constructor].
  apply findIndex_spec in E.
  destruct E as (Hlast & (j & area) & Hnth & Htest).
  apply (@nth_error_combine_range _ areas 0) in Hnth.
  destruct Hnth as (Hj & Harea). cbn [fst snd] in Htest.
  apply andb_true_iff in Htest. destruct Htest as (Hafter & Hzero).
  apply Z.ltb_lt in Hafter.
  assert (Hlen : len (combine (range 0 (len areas)) areas) = len areas).
  { unfold len. rewrite length_combine, length_range. lia. }
  simpl. split; [lia|]. split.
  - constructor; [unfold onFrame; simpl; lia | constructor].
  - constructor; [| constructor]. simpl. split; [reflexivity|].
    exists first, area.
    split; [reflexivity|]. split; [lia|]. split; [| assumption].
    apply atIndex_nth_error; [lia|].
    replace (Z.to_nat last) with (Z.to_nat last - 0)%nat by lia.
    rewrite Nat.sub_0_r. exact Harea.
Qed.

Lemma calculateSpecialMoments_parts (areas : list (Area num))
    (moments : list SpecialMoment) :
  calculateSpecialMoments areas = Some moments ->
  areas <> [] /\
  forall m,
    In m moments <->
    In m (startMoment areas) \/ In m (aspirationMoment areas) \/
    In m (hyoidMoment areas) \/ In m (pharynxMoments areas) \/
    In m (endMoment areas).
Proof.
  unfold calculateSpecialMoments.
  destruct areas as [|a0 rest] eqn:Eareas; [discriminate|].
  rewrite <- Eareas. intros E.
  split; [rewrite Eareas; discriminate|].
  assert (Hmoments : moments
                     = startMoment areas ++ aspirationMoment areas
                       ++ hyoidMoment areas ++ pharynxMoments areas
                       ++ endMoment areas) by congruence.
  rewrite Hmoments. intros m. rewrite !in_app_iff. reflexivity.
Qed.

(** X21. The memo throws exactly on an empty recording.  Otherwise it
    reports between 2 and 6 moments, each on a frame of the recording. *)
Theorem special_moments_are_frames_of_the_recording
    (areas : list (Area num)) :
  match calculateSpecialMoments areas with
  | None => areas = []
  | Some moments =>
      areas <> [] /\
      (2 <= length moments <= 6)%nat /\
      Forall (onFrame areas) moments
  end.
Proof.
  unfold calculateSpecialMoments.
  destruct areas as [|a0 rest] eqn:Eareas; [reflexivity|].
  rewrite <- Eareas.
  assert (Hne : areas <> []) by (rewrite Eareas; discriminate).
  destruct (startMoment_spec areas) as (L1 & F1 & _).
  destruct (aspirationMoment_spec Hne) as (L2 & F2 & _).
  destruct (hyoidMoment_spec Hne) as (L3 & F3 & _).
  destruct (pharynxMoments_spec Hne) as (L4 & F4 & _).
  destruct (endMoment_spec areas) as (L5 & F5 & _).
  split; [assumption|]. split.
  - rewrite !length_app. lia.
  - repeat (apply Forall_app; split); assumption.
Qed.

(** X22. When the end of the pharyngeal phase is reported, so is its start,
    on an earlier frame, and the bolus-pharynx overlap of the end frame is
    0. *)
Theorem swallow_end_follows_swallow_start
    (areas : list (Area num)) (moments : list SpecialMoment)
    (m : SpecialMoment) :
  calculateSpecialMoments areas = Some moments ->
  In m moments -> frame_name m = PharyngealSwallowEnd ->
  exists first area,
    In (moment PharyngealSwallowStart first) moments /\
    (first < frame_index m)%Z /\
    atIndex areas (frame_index m) = Some area /\
    noPharynxOverlap area = true.
Proof.
  intros E Hm Hname.
  destruct (@calculateSpecialMoments_parts areas moments E) as (Hne & Hparts).
  destruct (startMoment_spec areas) as (_ & _ & N1).
  destruct (aspirationMoment_spec Hne) as (_ & _ & N2).
  destruct (hyoidMoment_spec Hne) as (_ & _ & N3).
  destruct (pharynxMoments_spec Hne) as (_ & _ & N4).
  destruct (endMoment_spec areas) as (_ & _ & N5).
  rewrite Forall_forall in N1, N2, N3, N4, N5.
  apply Hparts in Hm.
  destruct Hm as [Hm | [Hm | [Hm | [Hm | Hm]]]].
  - specialize (N1 m Hm). congruence.
  - specialize (N2 m Hm). congruence.
  - specialize (N3 m Hm). congruence.
  - specialize (N4 m Hm). destruct N4; congruence.
  - destruct (N5 m Hm) as (_ & first & area & Hstart & Hlt & Harea & Hzero).
    exists first, area. repeat split; try assumption.
    apply Hparts. left. rewrite Hstart. left. reflexivity.
Qed.

(** X23. The hyoid peak is reported exactly when the first frame has a
    hyoid-C4 distance: if it has none the search never leaves frame 0,
    whatever the later frames hold. *)
Theorem hyoid_peak_needs_a_distance_on_the_first_frame
    (areas : list (Area num)) (moments : list SpecialMoment) :
  calculateSpecialMoments areas = Some moments ->
  ((exists m, In m moments /\ frame_name m = HyoidPeak) <->
   (exists first, hd_error areas = Some first /\
                  hyoid_c4_distance first <> None)).
Proof.
  intros E.
  destruct (@calculateSpecialMoments_parts areas moments E) as (Hne & Hparts).
  destruct areas as [|a0 rest] eqn:Eareas; [contradiction|].
  rewrite <- Eareas in *.
  assert (Hpeak : exists area,
             atIndex areas (reduceIndex largerHyoidDistance areas) = Some area /\
             isNotNull (hyoid_c4_distance area)
             = isNotNull (hyoid_c4_distance a0)).
  { apply (reduceIndex_invariant largerHyoidDistance areas
             (fun best => exists area,
                  atIndex areas best = Some area /\
                  isNotNull (hyoid_c4_distance area)
                  = isNotNull (hyoid_c4_distance a0))).
    - exists a0. rewrite Eareas. split; reflexivity.
    - intros best bestArea i area (area' & Hbest' & Hsame) Hbest Hi Hnth Hpick.
      rewrite Hbest in Hbest'. injection Hbest' as <-.
      exists area. split; [apply atIndex_nth_error; assumption|].
      rewrite <- Hsame. unfold largerHyoidDistance in Hpick.
      destruct (hyoid_c4_distance area); [| discriminate].
      destruct (hyoid_c4_distance bestArea); [reflexivity | discriminate]. }
  destruct Hpeak as (area & Harea & Hsame).
  destruct (startMoment_spec areas) as (_ & _ & N1).
  destruct (aspirationMoment_spec Hne) as (_ & _ & N2).
  destruct (pharynxMoments_spec Hne) as (_ & _ & N4).
  destruct (endMoment_spec areas) as (_ & _ & N5).
  rewrite Forall_forall in N1, N2, N4, N5.
  assert (Hhyoid : hyoidMoment areas
                   = if isNotNull (hyoid_c4_distance a0)
                     then [moment HyoidPeak
                                  (reduceIndex largerHyoidDistance areas)]
                     else []).
  { unfold hyoidMoment. rewrite Harea, Hsame. reflexivity. }
  assert (Hhead : hd_error areas = Some a0) by (rewrite Eareas; reflexivity).
  rewrite Hhead. clear Eareas.
  split.
  - intros (m & Hm & Hname).
    exists a0. split; [reflexivity|].
    apply Hparts in Hm. rewrite Hhyoid in Hm.
    destruct Hm as [Hm | [Hm | [Hm | [Hm | Hm]]]].
    + specialize (N1 m Hm). congruence.
    + specialize (N2 m Hm). congruence.
    + destruct (hyoid_c4_distance a0); [discriminate | contradiction].
    + specialize (N4 m Hm). destruct N4; congruence.
    + destruct (N5 m Hm) as (Hn & _). congruence.
  - intros (first & Hfirst & Hsome). injection Hfirst as <-.
    exists (moment HyoidPeak (reduceIndex largerHyoidDistance areas)).
    split; [| reflexivity].
    apply Hparts. right. right. left. rewrite Hhyoid.
    destruct (hyoid_c4_distance a0); [left; reflexivity | contradiction].
Qed.

End SpecialMoments.

Arguments SpecialMoment : clear implicits.

(** The moments of the recording of two swallows: the bolus reaches the
    pharynx on frame 4 and has left it on frame 37. *)
Example special_moments_of_the_recording :
  option_map (map (fun m => (frame_name m, frame_index m)))
             (calculateSpecialMoments recordingAreas)
  = Some [(PharyngealSwallowStart, 4); (AspirationPresent, 20);
          (HyoidPeak, 20); (PharynxMax, 0); (PharynxMin, 20);
          (PharyngealSwallowEnd, 37)].
Proof. vm_compute. reflexivity. Qed.

Lemma swallow_end_follows_swallow_start_witness :
  exists moments first area,
    calculateSpecialMoments recordingAreas = Some moments /\
    In (moment PharyngealSwallowStart first) moments /\
    (first < 37)%Z /\
    atIndex recordingAreas 37 = Some area /\
    noPharynxOverlap area = true.
Proof.
  assert (Hrun : exists moments,
             calculateSpecialMoments recordingAreas = Some moments /\
             In (moment PharyngealSwallowEnd 37) moments).
  { eexists. split; [vm_compute; reflexivity|].
    vm_compute. do 5 right. left. reflexivity. }
  destruct Hrun as (moments & Hrun & Hin).
  destruct (@swallow_end_follows_swallow_start float _ recordingAreas moments
              (moment PharyngealSwallowEnd 37) Hrun Hin eq_refl)
    as (first & area & Hstart & Hlt & Harea & Hzero).
  exists moments, first, area. repeat split; assumption.
Defined.

Lemma hyoid_peak_needs_a_distance_on_the_first_frame_witness :
  exists moments,
    calculateSpecialMoments shiftedAreas = Some moments /\
    map (fun m => (frame_name m, frame_index m)) moments
    = [(PharyngealSwallowStart, 0%Z); (AspirationPresent, 0%Z);
       (PharynxMax, 0%Z); (PharynxMin, 0%Z)] /\
    ((exists m, In m moments /\ frame_name m = HyoidPeak) <->
     (exists first, hd_error shiftedAreas = Some first /\
                    hyoid_c4_distance first <> None)).
Proof.
  eexists. split; [vm_compute; reflexivity|].
  split; [vm_compute; reflexivity|].
  apply (@hyoid_peak_needs_a_distance_on_the_first_frame float _ shiftedAreas).
  vm_compute. reflexivity.
Defined.

(** * The timing table (App.tsx 3701-3735)

    One row per cycle of the stored analysis: five differences of landmark
    frames, each also in seconds at the table's fixed 30 frames per
    second. *)

Section Timing.

Context {num : Type} `{JSNumber num}.

Local Open Scope js_scope.

(** What reading a landmark property off a cycle gives.  The cycle object
    spreads the result of [extractCycleParameters] (line 846): after its
    early return the property is missing and reads [undefined]. *)
Inductive Landmark : Type :=
| Undefined
| Null
| Frame (f : Z).

Definition landmarkOf (get : ClinicalParameters num -> option Z)
    (cycle : Cycle num) : Landmark :=
  match parameters cycle with
  | PCRNullOnly => Undefined
  | Parameters p =>
      match get p with
      | Some f => Frame f
      | None => Null
      end
  end.

(** A difference of frame numbers; NaN when an operand is [undefined]. *)
Inductive FrameCount : Type :=
| NotANumber
| Frames (n : Z).

(** [a !== null && b !== null ? a - b : null] *)
Definition framesBetween (a b : Landmark) : option FrameCount :=
  match a, b with
  | Null, _ | _, Null => None
  | Frame x, Frame y => Some (Frames (x - y))
  | _, _ => Some NotANumber
  end.

(** [frames !== null ? frames / fps : null] with [fps = 30] (line 3703). *)
Definition secondsOf (frames : option FrameCount) : option num :=
  option_map (fun count =>
                match count with
                | Frames n => ofZ n / ofZ 30
                | NotANumber => nan / ofZ 30
                end)
             frames.

Record TimingRow : Type := {
  swallowReactionTimeFrames : option FrameCount;
  swallowReactionTimeSeconds : option num;
  pharyngealResponseTimeFrames : option FrameCount;
  pharyngealResponseTimeSeconds : option num;
  uesOpenDurationFrames : option FrameCount;
  uesOpenDurationSeconds : option num;
  lvcReactionTimeFrames : option FrameCount;
  lvcReactionTimeSeconds : option num;
  lvcDurationFrames : option FrameCount;
  lvcDurationSeconds : option num
}.

Definition timingRow (cycle : Cycle num) : TimingRow :=
  let hyb := landmarkOf (@HYB num) cycle in
  let ueso := landmarkOf (@UESO num) cycle in
  let uesc := landmarkOf (@UESC num) cycle in
  let lvc := landmarkOf (@LVC num) cycle in
  let lvcOff := landmarkOf (@LVCoff num) cycle in
  let swallowReactionTimeFrames :=
    framesBetween hyb (Frame (startFrame cycle)) in
  let pharyngealResponseTimeFrames := framesBetween ueso hyb in
  let uesOpenDurationFrames := framesBetween uesc ueso in
  let lvcReactionTimeFrames := framesBetween lvc hyb in
  let lvcDurationFrames := framesBetween lvcOff lvc in
  {| swallowReactionTimeFrames := swallowReactionTimeFrames;
     swallowReactionTimeSeconds := secondsOf swallowReactionTimeFrames;
     pharyngealResponseTimeFrames := pharyngealResponseTimeFrames;
     pharyngealResponseTimeSeconds := secondsOf pharyngealResponseTimeFrames;
     uesOpenDurationFrames := uesOpenDurationFrames;
     uesOpenDurationSeconds := secondsOf uesOpenDurationFrames;
     lvcReactionTimeFrames := lvcReactionTimeFrames;
     lvcReactionTimeSeconds := secondsOf lvcReactionTimeFrames;
     lvcDurationFrames := lvcDurationFrames;
     lvcDurationSeconds := secondsOf lvcDurationFrames |}.

End Timing.

Section TimingProperties.

Context {num : Type} `{JSNumber num}.
Variable Math_exp : num -> num.

Local Open Scope js_scope.

(** The cycles of an analysis: their frames and where their parameters come
    from. *)
Lemma cycle_of_analysis (zscoreData : list (option num))
    (processedData : list (Row num)) (fps minPeakHeight : num)
    (minCycleLength : Z) (c : Cycle num) :
  In c (cyclesOf (detectSwallowingCycles Math_exp zscoreData processedData
                                         fps minPeakHeight minCycleLength)) ->
  (0 <= startFrame c <= endFrame c)%Z /\
  duration c = (endFrame c - startFrame c)%Z /\
  parameters c = extractCycleParameters (startFrame c) (endFrame c)
                                        processedData (cycleNumber c).
Proof.
  intros Hc.
  destruct (analysis_cycles Math_exp zscoreData processedData fps
                            minPeakHeight minCycleLength) as (Hall & _ & _).
  rewrite Forall_forall in Hall. specialize (Hall c Hc).
  destruct Hall as (lastEnd & index & Hlast & _ & _ & Hbuilt).
  destruct Hbuilt as (_ & _ & _ & _ & Hd & _ & Hs & Ho & _ & Hp & _).
  repeat split; try assumption; lia.
Qed.

(** The landmarks of a returned object, inside the cycle and in order. *)
Lemma landmarks_of_parameters (startFrame endFrame : Z)
    (processedData : list (Row num)) (cycleNumber : Z)
    (p : ClinicalParameters num) :
  (0 <= startFrame <= endFrame)%Z ->
  extractCycleParameters startFrame endFrame processedData cycleNumber
  = Parameters p ->
  (forall f, In (Some f) [HYB p; UESO p; UESC p; LVC p; LVCoff p] ->
             (startFrame <= f <= endFrame)%Z) /\
  inOrder (UESO p) (UESC p) /\ inOrder (LVC p) (LVCoff p).
Proof.
  intros Hse Hp. split.
  - intros f Hf.
    exact (@landmarks_stay_inside_cycle num _ startFrame endFrame processedData
             cycleNumber p f Hse Hp Hf).
  - unfold extractCycleParameters in Hp.
    destruct (len _ =? 0)%Z; [discriminate|]. injection Hp as <-.
    cbn [UESO UESC LVC LVCoff].
    destruct (uesBlock _ _ _ _) as [ues|] eqn:Eues;
      destruct (lvcBlock _ _ _ _ _) as [lvc|] eqn:Elvc;
      cbn [option_map inOrder];
      try (apply uesBlock_ordered in Eues);
      try (apply lvcBlock_ordered in Elvc);
      split; solve [exact I | lia].
Qed.

(** X25. For a cycle of an analysis that has its parameters, no timing cell
    is NaN; the swallow reaction time (HYB - start), the UES opening
    duration (UESC - UESO) and the LVC duration (LVCoff - LVC) are never
    negative and never exceed the cycle's duration, and the two other
    differences lie between [-duration] and [duration]. *)
Theorem timing_cells_are_bounded_by_the_duration
    (zscoreData : list (option num)) (processedData : list (Row num))
    (fps minPeakHeight : num) (minCycleLength : Z) (c : Cycle num)
    (p : ClinicalParameters num) :
  In c (cyclesOf (detectSwallowingCycles Math_exp zscoreData processedData
                                         fps minPeakHeight minCycleLength)) ->
  parameters c = Parameters p ->
  let row := timingRow c in
  (forall cell,
      In cell [swallowReactionTimeFrames row; uesOpenDurationFrames row;
               lvcDurationFrames row] ->
      cell = None \/ exists n, cell = Some (Frames n) /\
                               (0 <= n <= duration c)%Z) /\
  (forall cell,
      In cell [pharyngealResponseTimeFrames row; lvcReactionTimeFrames row] ->
      cell = None \/ exists n, cell = Some (Frames n) /\
                               (- duration c <= n <= duration c)%Z).
Proof.
  intros Hc Hp row.
  destruct (cycle_of_analysis _ _ _ _ _ _ Hc) as (Hse & Hd & Hextract).
  rewrite Hp in Hextract. symmetry in Hextract.
  destruct (@landmarks_of_parameters _ _ _ _ _ Hse Hextract)
    as (Hinside & Hues & Hlvc).
  assert (Hhyb : forall f, HYB p = Some f ->
                           (startFrame c <= f <= endFrame c)%Z)
    by (intros f E; apply Hinside; rewrite E; simpl; auto).
  assert (Hueso : forall f, UESO p = Some f ->
                            (startFrame c <= f <= endFrame c)%Z)
    by (intros f E; apply Hinside; rewrite E; simpl; auto).
  assert (Huesc : forall f, UESC p = Some f ->
                            (startFrame c <= f <= endFrame c)%Z)
    by (intros f E; apply Hinside; rewrite E; simpl; auto).
  assert (Hlvc' : forall f, LVC p = Some f ->
                            (startFrame c <= f <= endFrame c)%Z)
    by (intros f E; apply Hinside; rewrite E; simpl; auto 6).
  assert (Hoff : forall f, LVCoff p = Some f ->
                           (startFrame c <= f <= endFrame c)%Z)
    by (intros f E; apply Hinside; rewrite E; simpl; auto 6).
  clear Hinside Hextract.
  unfold row, timingRow, landmarkOf. rewrite Hp.
  cbn [swallowReactionTimeFrames uesOpenDurationFrames lvcDurationFrames
       pharyngealResponseTimeFrames lvcReactionTimeFrames].
  destruct (HYB p) as [hyb|]; destruct (UESO p) as [ueso|];
    destruct (UESC p) as [uesc|]; destruct (LVC p) as [lvc|];
    destruct (LVCoff p) as [off|];
    cbn [inOrder] in Hues, Hlvc;
    try (specialize (Hhyb _ eq_refl));
    try (specialize (Hueso _ eq_refl));
    try (specialize (Huesc _ eq_refl));
    try (specialize (Hlvc' _ eq_refl));
    try (specialize (Hoff _ eq_refl));
    (split; intros cell Hcell; simpl in Hcell;
     repeat (destruct Hcell as [<- | Hcell]); try contradiction;
     first [left; reflexivity
           | right; eexists; split; [reflexivity | lia]]).
Qed.

End TimingProperties.

Lemma timing_cells_are_bounded_by_the_duration_witness :
  exists c p,
    In c (cyclesOf recordingAnalysis) /\
    parameters c = Parameters p /\
    boundaries c = (2, 46, 60, 81)%Z /\
    (swallowReactionTimeFrames (timingRow c),
     pharyngealResponseTimeFrames (timingRow c),
     uesOpenDurationFrames (timingRow c),
     lvcReactionTimeFrames (timingRow c),
     lvcDurationFrames (timingRow c))
    = (Some (Frames 13), Some (Frames (-1)), Some (Frames 21),
       Some (Frames (-13)), Some (Frames 14)) /\
    ((forall cell,
         In cell [swallowReactionTimeFrames (timingRow c);
                  uesOpenDurationFrames (timingRow c);
                  lvcDurationFrames (timingRow c)] ->
         cell = None \/ exists n, cell = Some (Frames n) /\
                                  (0 <= n <= duration c)%Z) /\
     (forall cell,
         In cell [pharyngealResponseTimeFrames (timingRow c);
                  lvcReactionTimeFrames (timingRow c)] ->
         cell = None \/ exists n, cell = Some (Frames n) /\
                                  (- duration c <= n <= duration c)%Z)).
Proof.
  eexists. eexists.
  split; [vm_compute; right; left; reflexivity|].
  split; [vm_compute; reflexivity|].
  split; [vm_compute; reflexivity|].
  split; [vm_compute; reflexivity|].
  eapply (@timing_cells_are_bounded_by_the_duration float _ exp_table
            recordingDriver recordingRows 30%float 0.3%float 15).
  - vm_compute. right. left. reflexivity.
  - vm_compute. reflexivity.
Defined.


(** ** The pharynx extremes in exact arithmetic *)

Section ExactMoments.

Local Open Scope R_scope.

(** The index kept by a [reduce] that moves on a strictly larger value of
    [f] is the first index of the largest value. *)
Definition firstLargest (f : Area R -> R) (areas : list (Area R))
    (seen : nat) (best : Z) : Prop :=
  (0 <= best < len areas)%Z /\ (best <= Z.of_nat seen)%Z /\
  exists bestArea,
    nth_error areas (Z.to_nat best) = Some bestArea /\
    forall j area,
      (j < seen)%nat -> nth_error areas j = Some area ->
      f area <= f bestArea /\ ((Z.of_nat j < best)%Z -> f area < f bestArea).

Lemma reduce_step_firstLargest (f : Area R -> R)
    (pick : Area R -> Area R -> bool) (areas : list (Area R)) :
  (forall a b, pick a b = true <-> f b < f a) ->
  forall later earlier best,
    areas = earlier ++ later ->
    firstLargest f areas (length earlier) best ->
    firstLargest f areas (length areas)
      (fold_left
         (fun best ia =>
            match atIndex areas best with
            | Some bestArea => if pick (snd ia) bestArea then fst ia else best
            | None => best
            end)
         (combine (range (len earlier) (len earlier + len later)) later)
         best).
Proof.
  intros Hpick.
  induction later as [|x later IH]; intros earlier best Hareas Hbest.
  - rewrite combine_nil. simpl.
    rewrite app_nil_r in Hareas. subst earlier. exact Hbest.
  - rewrite range_cons by (unfold len; simpl length; lia).
    cbn [combine fold_left fst snd].
    replace (len earlier + len (x :: later))%Z
      with (len (earlier ++ [x]) + len later)%Z
      by (unfold len; rewrite length_app; simpl length; lia).
    replace (len earlier + 1)%Z with (len (earlier ++ [x]))
      by (unfold len; rewrite length_app; simpl length; lia).
    apply IH; [rewrite <- app_assoc; exact Hareas|].
    assert (Hx : nth_error areas (length earlier) = Some x).
    { rewrite Hareas, nth_error_app2 by lia.
      rewrite Nat.sub_diag. reflexivity. }
    assert (Hlen : (length earlier < length areas)%nat)
      by (apply nth_error_Some; rewrite Hx; discriminate).
    destruct Hbest as (Hrange & Hle & bestArea & Hnth & Hall).
    rewrite (atIndex_nth_error areas (proj1 Hrange) Hnth).
    rewrite length_app. simpl length.
    destruct (pick x bestArea) eqn:E.
    + apply Hpick in E.
      split; [unfold len; lia|]. split; [unfold len; lia|].
      exists x. split; [unfold len; rewrite Nat2Z.id; exact Hx|].
      intros j area Hj Harea.
      destruct (Nat.eq_dec j (length earlier)) as [-> | Hne].
      * rewrite Hx in Harea. injection Harea as <-.
        split; [lra | unfold len; lia].
      * destruct (Hall j area ltac:(lia) Harea) as (Hmax & _).
        split; intros; lra.
    + assert (Hnot : ~ f bestArea < f x)
        by (intros Hlt; apply Hpick in Hlt; rewrite Hlt in E; discriminate).
      split; [assumption|]. split; [lia|].
      exists bestArea. split; [assumption|].
      intros j area Hj Harea.
      destruct (Nat.eq_dec j (length earlier)) as [-> | Hne].
      * rewrite Hx in Harea. injection Harea as <-.
        split; [lra | lia].
      * apply Hall; [lia | assumption].
Qed.

Lemma reduceIndex_firstLargest (f : Area R -> R)
    (pick : Area R -> Area R -> bool) (areas : list (Area R)) :
  (forall a b, pick a b = true <-> f b < f a) ->
  areas <> [] ->
  firstLargest f areas (length areas) (reduceIndex pick areas).
Proof.
  intros Hpick Hne. unfold reduceIndex.
  apply (@reduce_step_firstLargest f pick areas Hpick areas [] 0%Z);
    [reflexivity|].
  destruct areas as [|a0 rest]; [contradiction|].
  split; [unfold len; simpl length; lia|]. split; [simpl; lia|].
  exists a0. split; [reflexivity|].
  intros j area Hj. simpl in Hj. lia.
Qed.

(** X24. In exact arithmetic the frame reported as [PharynxMax] is the
    first frame with the largest pharynx area, and the one reported as
    [PharynxMin] the first frame with the smallest. *)
Theorem pharynx_extremes_are_the_first_largest_and_smallest
    (areas : list (Area R)) :
  areas <> [] ->
  pharynxMoments areas
  = [moment PharynxMax (reduceIndex largerPharynx areas);
     moment PharynxMin (reduceIndex smallerPharynx areas)] /\
  exists largest smallest,
    atIndex areas (reduceIndex largerPharynx areas) = Some largest /\
    atIndex areas (reduceIndex smallerPharynx areas) = Some smallest /\
    forall j area,
      nth_error areas j = Some area ->
      (ToNumber (pharynx area) <= ToNumber (pharynx largest) /\
       ((Z.of_nat j < reduceIndex largerPharynx areas)%Z ->
        ToNumber (pharynx area) < ToNumber (pharynx largest))) /\
      (ToNumber (pharynx smallest) <= ToNumber (pharynx area) /\
       ((Z.of_nat j < reduceIndex smallerPharynx areas)%Z ->
        ToNumber (pharynx smallest) < ToNumber (pharynx area))).
Proof.
  intros Hne. split; [reflexivity|].
  destruct (@reduceIndex_firstLargest
              (fun area => ToNumber (pharynx area)) largerPharynx areas)
    as (Hrange & _ & largest & Hlargest & Hmax); [| assumption |].
  { intros a b. unfold largerPharynx. cbn [nltb R_JSNumber].
    apply Rltb_true. }
  destruct (@reduceIndex_firstLargest
              (fun area => - ToNumber (pharynx area)) smallerPharynx areas)
    as (Hrange' & _ & smallest & Hsmallest & Hmin); [| assumption |].
  { intros a b. unfold smallerPharynx. cbn [nltb R_JSNumber].
    rewrite Rltb_true. split; intros; lra. }
  exists largest, smallest.
  split; [apply atIndex_nth_error; [lia | assumption]|].
  split; [apply atIndex_nth_error; [lia | assumption]|].
  intros j area Harea.
  assert (Hj : (j < length areas)%nat)
    by (apply nth_error_Some; rewrite Harea; discriminate).
  destruct (Hmax j area Hj Harea) as (H1 & H2).
  destruct (Hmin j area Hj Harea) as (H3 & H4).
  split; split; try assumption; try lra.
  intros Hlt. specialize (H4 Hlt). lra.
Qed.

End ExactMoments.

Definition pharynxAreas : list (Area R) :=
  map (fun area : R =>
         {| bolus_pharynx_overlap := Some 0%R;
            bolus_vestibule_overlap := Some 0%R;
            pharynx := Some area;
            vestibule := Some 1%R;
            bolus := Some 2%R;
            hyoid_c4_distance := None;
            ues_length := None;
            c2c4_length := Some 10%R |})
      [3%R; 5%R; 1%R; 5%R; 1%R].

Lemma pharynx_extremes_are_the_first_largest_and_smallest_witness :
  pharynxMoments pharynxAreas
  = [moment PharynxMax (reduceIndex largerPharynx pharynxAreas);
     moment PharynxMin (reduceIndex smallerPharynx pharynxAreas)] /\
  exists largest smallest,
    atIndex pharynxAreas (reduceIndex largerPharynx pharynxAreas)
    = Some largest /\
    atIndex pharynxAreas (reduceIndex smallerPharynx pharynxAreas)
    = Some smallest /\
    forall j area,
      nth_error pharynxAreas j = Some area ->
      ((ToNumber (pharynx area) <= ToNumber (pharynx largest))%R /\
       ((Z.of_nat j < reduceIndex largerPharynx pharynxAreas)%Z ->
        (ToNumber (pharynx area) < ToNumber (pharynx largest))%R)) /\
      ((ToNumber (pharynx smallest) <= ToNumber (pharynx area))%R /\
       ((Z.of_nat j < reduceIndex smallerPharynx pharynxAreas)%Z ->
        (ToNumber (pharynx smallest) < ToNumber (pharynx area))%R)).
Proof.
  apply (@pharynx_extremes_are_the_first_largest_and_smallest pharynxAreas).
  discriminate.
Defined.

(** * The percentiles of the PCR

    The function reads its percentiles at the indices [floor (n * 0.05)] and
    [floor (n * 0.95)] of the sorted samples.  They are stated here without
    the function's own sort and index computations: the sorted series is any
    ascending rearrangement of the samples, and the indices are given by
    their bounds. *)

Section RankPercentiles.

Local Open Scope R_scope.

Lemma sorted_permutation_unique (l : list R) :
  forall m,
    ForallOrdPairs Rle l -> ForallOrdPairs Rle m -> Permutation l m -> l = m.
Proof.
  induction l as [|a l IH]; intros m Hl Hm Hperm.
  - apply Permutation_nil in Hperm. subst m. reflexivity.
  - destruct m as [|b m];
      [apply Permutation_sym, Permutation_nil in Hperm; discriminate|].
    inversion Hl as [|? ? Ha Hl']; subst.
    inversion Hm as [|? ? Hb Hm']; subst.
    rewrite Forall_forall in Ha, Hb.
    assert (Hab : a = b).
    { assert (Hin : In a (b :: m))
        by (apply (Permutation_in _ Hperm); left; reflexivity).
      assert (Hin' : In b (a :: l))
        by (apply (Permutation_in _ (Permutation_sym Hperm)); left;
            reflexivity).
      destruct Hin as [E | Hin]; [symmetry; exact E|].
      destruct Hin' as [E | Hin']; [exact E|].
      specialize (Ha b Hin'). specialize (Hb a Hin). lra. }
    subst b. f_equal.
    apply IH; try assumption.
    apply (Permutation_cons_inv Hperm).
Qed.

(** [floorUpTo] is the floor on its range. *)
Lemma floorUpTo_floor (bound : nat) (x : R) (k : nat) :
  INR k <= x < INR k + 1 -> x < INR bound + 1 ->
  floorUpTo bound x = Z.of_nat k.
Proof.
  intros Hk. induction bound as [|b IH]; intros Hx.
  - simpl in Hx. simpl.
    destruct k as [|k]; [reflexivity|].
    rewrite S_INR in Hk. pose proof (pos_INR k). lra.
  - cbn [floorUpTo]. cbn [nleb ofZ R_JSNumber].
    rewrite <- INR_IZR_INZ.
    destruct (Rleb (INR (S b)) x) eqn:E.
    + apply Rleb_true in E.
      assert (Hlt1 : INR (S b) < INR (S k)) by (rewrite (S_INR k); lra).
      assert (Hlt2 : INR k < INR (S (S b))) by (rewrite (S_INR (S b)); lra).
      apply INR_lt in Hlt1, Hlt2. lia.
    + assert (Hlt : x < INR (S b)).
      { unfold Rleb in E. destruct (Rle_dec (INR (S b)) x); [discriminate|].
        lra. }
      rewrite S_INR in Hlt. apply IH. exact Hlt.
Qed.

(** C4 (amended). In exact arithmetic, let the [n] standardized pharynx
    samples of a cycle be sorted in ascending order, and let the 5th and the
    95th percentile be the elements of index [floor (0.05 * n)] and
    [floor (0.95 * n)], counted from 0, of that order (no interpolation).
    When both are negative the function reports them as [PCR_p5] and
    [PCR_p95] and reports [PCR = |5th| / |95th|].  The 5th percentile is not
    above the 95th, so the PCR of this branch is at least 1. *)
Theorem pcr_of_negative_rank_percentiles
    (startFrame endFrame : Z) (processedData : list (Row R)) (cycleNumber : Z)
    (sorted : list R) (k5 k95 : nat) (v5 v95 : R) :
  let samples := pharynxSamples processedData startFrame endFrame in
  Permutation sorted samples ->
  ForallOrdPairs Rle sorted ->
  INR k5 <= INR (length samples) * (5 / 100) < INR k5 + 1 ->
  INR k95 <= INR (length samples) * (95 / 100) < INR k95 + 1 ->
  nth_error sorted k5 = Some v5 ->
  nth_error sorted k95 = Some v95 ->
  v5 < 0 -> v95 < 0 ->
  exists p,
    extractCycleParameters startFrame endFrame processedData cycleNumber
    = Parameters p /\
    PCR_p5 p = v5 /\ PCR_p95 p = v95 /\
    v5 <= v95 /\
    PCR p = Rabs v5 / Rabs v95 /\
    1 <= PCR p.
Proof.
  intros samples Hperm Hsorted H5 H95 E5 E95 Hv5 Hv95.
  assert (Hne : samples <> []).
  { intros Enil. rewrite Enil in Hperm.
    apply Permutation_sym, Permutation_nil in Hperm.
    rewrite Hperm in E5. destruct k5; discriminate. }
  destruct (sortAscending_fold samples (FOP_nil Rle)) as (Hsorted' & Hperm').
  fold (sortAscending samples) in Hsorted', Hperm'. simpl in Hperm'.
  assert (Esorted : sortAscending samples = sorted).
  { apply sorted_permutation_unique; try assumption.
    eapply perm_trans; [exact Hperm' | apply Permutation_sym; exact Hperm]. }
  pose proof (Permutation_length Hperm) as Hlength.
  pose proof (pos_INR (length samples)) as Hn.
  assert (Hindex : forall (percent : R) (k : nat) (v : R),
             0 <= percent <= 1 ->
             INR k <= INR (length samples) * percent < INR k + 1 ->
             nth_error sorted k = Some v ->
             numAt sorted
                   (floorUpTo (length sorted) (IZR (len sorted) * percent))
             = v).
  { intros percent k v Hpercent Hk Ev.
    assert (Elen : IZR (len sorted) = INR (length samples))
      by (unfold len; rewrite <- INR_IZR_INZ, Hlength; reflexivity).
    rewrite Elen.
    rewrite (@floorUpTo_floor (length sorted) _ k Hk)
      by (rewrite Hlength; nra).
    unfold numAt, atIndex.
    destruct (Z.of_nat k <? 0)%Z eqn:Eneg; [apply Z.ltb_lt in Eneg; lia|].
    rewrite Nat2Z.id, Ev. reflexivity. }
  assert (Ep5 : percentile5 samples = v5).
  { unfold percentile5, p5Index, dec. rewrite Esorted.
    cbn [nmul ndiv ofZ R_JSNumber].
    replace (10 ^ Z.of_nat 2)%Z with 100%Z by reflexivity.
    apply (Hindex (5 / 100) k5 v5); [lra | assumption..]. }
  assert (Ep95 : percentile95 samples = v95).
  { unfold percentile95, p95Index, dec. rewrite Esorted.
    cbn [nmul ndiv ofZ R_JSNumber].
    replace (10 ^ Z.of_nat 2)%Z with 100%Z by reflexivity.
    apply (Hindex (95 / 100) k95 v95); [lra | assumption..]. }
  assert (Hle : v5 <= v95).
  { assert (Hk : (k5 <= k95)%nat).
    { assert (Hlt : INR k5 < INR (S k95)) by (rewrite S_INR; lra).
      apply INR_lt in Hlt. lia. }
    exact (@sorted_nth sorted k5 k95 v5 v95 Hsorted Hk E5 E95). }
  destruct (@pcr_of_negative_percentiles R _ startFrame endFrame processedData
              cycleNumber Hne)
    as (p & Hp & Hpcr).
  - fold samples. rewrite Ep5. apply Rltb_true. assumption.
  - fold samples. rewrite Ep95. apply Rltb_true. assumption.
  - destruct (pharynx_sample_gives_parameters startFrame endFrame
                processedData cycleNumber Hne)
      as (p' & Hp' & Hp5 & Hp95 & _).
    rewrite Hp in Hp'. injection Hp' as <-.
    fold samples in Hpcr, Hp5, Hp95.
    rewrite Ep5 in Hpcr, Hp5. rewrite Ep95 in Hpcr, Hp95.
    cbn [nabs ndiv R_JSNumber] in Hpcr.
    exists p. repeat split; try assumption.
    rewrite Hpcr, !Rabs_left by assumption.
    apply (Rmult_le_reg_r (- v95)); [lra|].
    unfold Rdiv. rewrite Rmult_assoc, Rinv_l by lra. lra.
Qed.

End RankPercentiles.

Lemma pcr_of_negative_rank_percentiles_witness :
  exists p,
    extractCycleParameters 0 2 exactPharynxRows 1 = Parameters p /\
    PCR_p5 p = (-8)%R /\ PCR_p95 p = (-2)%R /\
    (-8 <= -2)%R /\
    PCR p = (Rabs (-8) / Rabs (-2))%R /\
    (1 <= PCR p)%R.
Proof.
  apply (@pcr_of_negative_rank_percentiles 0 2 exactPharynxRows 1
           [(-8)%R; (-5)%R; (-2)%R] 0 2 (-8)%R (-2)%R).
  - unfold pharynxSamples, slice. simpl. apply perm_skip, perm_swap.
  - repeat constructor; lra.
  - unfold pharynxSamples, slice. simpl. lra.
  - unfold pharynxSamples, slice. simpl. lra.
  - reflexivity.
  - reflexivity.
  - lra.
  - lra.
Defined.

(** ** The nearest rank

    The percentile as the specification words it (nearest rank, no
    interpolation): the element of rank [ceil (percent / 100 * n)], counted
    from 1, of the [n] samples in ascending order.  This definition follows
    the specification, not the source, whose indices are [p5Index] and
    [p95Index]; the two are compared below. *)
Definition nearestRankPercentile (percent : Z) (sortedValues : list float)
    : float :=
  numAt sortedValues ((percent * len sortedValues + 99) / 100 - 1).

(** One swallow that rises faster than it falls, on a slow drift. *)
Definition longSwallow : list float :=
  [0.000; 0.002; 0.004; 0.006; 0.008; 0.010; 0.012; 0.014; 0.016; 0.018;
   0.021; 0.023; 0.027; 0.032; 0.040; 0.052; 0.072; 0.102; 0.148; 0.216;
   0.311; 0.438; 0.600; 0.797; 1.022; 1.263; 1.504; 1.725; 1.902; 2.018;
   2.060; 2.029; 1.936; 1.790; 1.603; 1.393; 1.175; 0.964; 0.770; 0.602;
   0.463; 0.353; 0.269; 0.208; 0.166; 0.139; 0.121; 0.111; 0.105; 0.103;
   0.103; 0.103; 0.105; 0.106; 0.108; 0.110; 0.112; 0.114; 0.116; 0.118;
   0.120; 0.122; 0.124; 0.126; 0.128; 0.130; 0.132; 0.134; 0.136; 0.138]%float.

(** A recording of 70 frames that follows it, every C2-C4 length being the
    reference 10. *)
Definition longSwallowAreas : list (Area float) :=
  map (fun v : float =>
         {| bolus_pharynx_overlap := Some (PrimFloat.mul 4 v);
            bolus_vestibule_overlap := Some (PrimFloat.mul 0.1 v);
            pharynx := Some (PrimFloat.sub 1 (PrimFloat.mul 0.2 v));
            vestibule := Some (PrimFloat.sub 2 (PrimFloat.mul 0.5 v));
            bolus := Some (PrimFloat.add 1 v);
            hyoid_c4_distance := Some (PrimFloat.add 2 (PrimFloat.mul 0.5 v));
            ues_length := Some (PrimFloat.add 1 (PrimFloat.mul 0.25 v));
            c2c4_length := Some 10 |}%float)
      longSwallow.

Definition longSwallowRows : list (Row float) :=
  processedData (processAdvancedData exp_table longSwallowAreas 10%float).

(** The analysis as [handleAdvancedAnalysis] runs it (lines 1205-1214). *)
Definition longSwallowAnalysis : Detection float :=
  detectSwallowingCycles exp_table
    (map (@zscore_bolus_pharynx_overlap float) longSwallowRows)
    longSwallowRows 30%float 0.3%float 15.

(** C4 (as stated, refuted). The analysis of [longSwallowAreas] finds one
    cycle, frames 12 to 51, with 40 pharynx samples, none of them NaN.  Their
    nearest-rank percentiles are the 2nd and the 38th sample in ascending
    order, both negative; the function reports the 3rd and the 39th as
    [PCR_p5] and [PCR_p95], and a PCR that is not the quotient of the
    nearest-rank percentiles. *)
Lemma nearest_rank_percentiles_give_another_pcr :
  exists (c : Cycle float) (p : ClinicalParameters float),
    cyclesOf longSwallowAnalysis = [c] /\
    (startFrame c, endFrame c) = (12, 51) /\
    parameters c = Parameters p /\
    extractCycleParameters 12 51 longSwallowRows 1 = Parameters p /\
    let samples := pharynxSamples longSwallowRows 12 51 in
    let sorted := sortAscending samples in
    let fifth := nearestRankPercentile 5 sorted in
    let ninetyFifth := nearestRankPercentile 95 sorted in
    len samples = 40 /\
    forallb (fun v => PrimFloat.eqb v v) samples = true /\
    (fifth, ninetyFifth)
    = ((-0.44876495627283991)%float, (-0.15315462592598042)%float) /\
    PrimFloat.ltb fifth 0 = true /\
    PrimFloat.ltb ninetyFifth 0 = true /\
    (p5Index sorted, p95Index sorted) = (2, 38) /\
    (PCR_p5 p, PCR_p95 p)
    = ((-0.44593000174439756)%float, (-0.15171099641305025)%float) /\
    PCR p = 2.9393386919053843%float /\
    PrimFloat.div (PrimFloat.abs fifth) (PrimFloat.abs ninetyFifth)
    = 2.9301430078235304%float /\
    PrimFloat.eqb (PCR p)
      (PrimFloat.div (PrimFloat.abs fifth) (PrimFloat.abs ninetyFifth))
    = false.
Proof.
  eexists. eexists.
  split; [vm_compute; reflexivity|].
  split; [reflexivity|].
  split; [reflexivity|].
  split; [vm_compute; reflexivity|].
  vm_compute. repeat (split; [reflexivity|]). reflexivity.
Qed.

(** * Absent series

    On the rows of [processAdvancedData] a frame whose pharynx z-score is
    null has no value at all, so the early return of
    [extractCycleParameters] (line 50) leaves out nothing that the blocks
    after it would have reported. *)

Section OwnSeries.

Context {num : Type} `{JSNumber num}.
Variable Math_exp : num -> num.

Local Open Scope js_scope.















End OwnSeries.
